(** * The PC2 service supervisor of the ElastOS launcher

  A shallow embedding of [src/main/pc2Manager.ts] (native revision: direct
  spawn, no WSL, no PM2), of the [pc2:setEnvironment] handler and the tray
  menu of [src/main/index.ts], and of the environment selector, the
  controls and the log panel of [src/renderer/app.js].

  The manager is asynchronous JavaScript.  Every callback runs to
  completion before the next one starts, so the program is modelled as an
  event machine: one total function [handle] that performs a whole
  callback (or the synchronous part of an exported function) on the
  module's state, and [run] that folds it over a schedule of events chosen
  by the environment.  Module-level variables are fields of [State];
  [ChildProcess] objects and the promises handed to callers live in two
  heaps indexed by allocation order, because handlers registered on one
  child read and write the shared variable [pc2Process] long after another
  child may have replaced it. *)

From Stdlib Require Import String Ascii ZArith List Lia Bool Sorted.
From stdpp Require Import base list strings pretty.
From Equations Require Import Equations.
Import ListNotations.

Local Open Scope string_scope.
Local Open Scope list_scope.

(** ** JavaScript library functions the manager relies on *)

Module JS.

(** The line feed used by [split('\n')] and [join('\n')]. *)
Definition LF : ascii := ascii_of_nat 10.

(** The separator ['\n'] as a string. *)
Definition newline : string := String LF "".

(** [Array.prototype.slice(start)] with its end omitted.  A negative
    [start] counts from the end and is clamped at the first element; a
    [start] past the end yields the empty array.  [-0] is [0]. *)
Definition slice {A} (start : Z) (l : list A) : list A :=
  let len := Z.of_nat (length l) in
  let k := if (start <? 0)%Z then Z.max (len + start) 0 else Z.min start len in
  drop (Z.to_nat k) l.

(** [Array.prototype.join(sep)] on an array of strings. *)
Fixpoint join (sep : string) (l : list string) : string :=
  match l with
  | [] => ""
  | [x] => x
  | x :: rest => x +:+ sep +:+ join sep rest
  end.

(** [String.prototype.includes(needle)]. *)
Fixpoint includes (s needle : string) : bool :=
  String.prefix needle s ||
  match s with
  | EmptyString => false
  | String _ s' => includes s' needle
  end.

(** [String.prototype.split(c)] for a one-character separator. *)
Fixpoint split (c : ascii) (s : string) : list string :=
  match s with
  | EmptyString => [""]
  | String a s' =>
      if Ascii.eqb a c then "" :: split c s'
      else match split c s' with
           | [] => [String a ""]
           | w :: ws => String a w :: ws
           end
  end.

(** White space removed by [trim()], among the characters below 128: tab,
    line feed, vertical tab, form feed, carriage return, space.  On
    strings that are not [isAscii] (below), [trim()] removes more. *)
Definition is_space (a : ascii) : bool :=
  let n := nat_of_ascii a in
  (Nat.leb 9 n && Nat.leb n 13) || Nat.eqb n 32.

(** Truthiness of [l.trim()] for an ASCII string: some character of [l] is
    not white space. *)
Fixpoint trim_truthy (l : string) : bool :=
  match l with
  | EmptyString => false
  | String a l' => negb (is_space a) || trim_truthy l'
  end.

(** Truthiness of a string: it is not empty. *)
Definition truthy (s : string) : bool :=
  match s with EmptyString => false | _ => true end.

(** [String.prototype.startsWith(needle)]. *)
Definition startsWith (needle s : string) : bool := String.prefix needle s.

(** [Array.prototype.sort()] without a comparator on an array of strings:
    ascending by code units (here: strings of one-byte characters). *)
Fixpoint insert (x : string) (l : list string) : list string :=
  match l with
  | [] => [x]
  | y :: rest => if String.leb x y then x :: l else y :: insert x rest
  end.

Definition sort (l : list string) : list string := fold_right insert [] l.

(** [String.prototype.endsWith(suffix)]. *)
Definition endsWith (suffix s : string) : bool :=
  let n := String.length s in
  let k := String.length suffix in
  Nat.leb k n && String.eqb (String.substring (n - k) k s) suffix.

(** A string of bytes below 128.  The strings of this development are
    byte strings; on such a string [is_space] is the white space of
    [trim()], which beyond it also strips U+00A0, U+FEFF, U+2028 and
    other code points written with bytes from 128 on. *)
Fixpoint isAscii (s : string) : bool :=
  match s with
  | EmptyString => true
  | String a s' => Nat.ltb (nat_of_ascii a) 128 && isAscii s'
  end.

End JS.

(** ** Paths and the file system *)

Module Path.

(** [path.join(...segments)] on a POSIX host, without its normalisation
    pass: empty segments are skipped and the others are joined with a
    slash; with nothing left the result is ["."].  The result is the one of
    [path.join] whenever it is [canonical] (below): then no [.], [..],
    doubled or trailing slash is left for the normalisation to remove.
    With a home directory or a custom root that is not normalised, and on
    Windows (where the separator is a backslash), the two differ. *)
Definition join (segments : list string) : string :=
  match filter (fun x => JS.truthy x = true) segments with
  | [] => "."
  | segs => JS.join "/" segs
  end.

(** [path.dirname] of a path: everything before its last slash. *)
Fixpoint dirname_aux (p : string) : option string :=
  match p with
  | EmptyString => None
  | String a p' =>
      match dirname_aux p' with
      | Some d => Some (String a d)
      | None => if Ascii.eqb a "/" then Some "" else None
      end
  end.

Definition dirname (p : string) : string :=
  match dirname_aux p with
  | Some "" => "/"
  | Some d => d
  | None => "."
  end.

(** A normalised absolute POSIX path other than the root: a slash, then
    segments separated by single slashes, none of them empty, [.] or
    [..], and no slash at the end.  On such paths the text of a path says
    where it is in the tree. *)
Definition canonical (p : string) : bool :=
  match JS.split "/" p with
  | "" :: seg :: segs =>
      forallb (fun g => negb (String.eqb g "" || String.eqb g "."
                                || String.eqb g ".."))
        (seg :: segs)
  | _ => false
  end.

End Path.

Module Fs.

(** The file system is the list of paths that exist (files and
    directories alike), each under one name.  Paths are compared as text:
    that is the file system's own notion of "the same file" and "below"
    on [Path.canonical] paths, and only there (the operating system
    resolves [..], doubled slashes and links before it looks).  The
    operations below cannot fail; the errors the real ones can throw (a
    missing permission, a busy file) are left out. *)
Definition t := list string.

(** [fs.existsSync]. *)
Definition existsSync (p : string) (fs : t) : bool :=
  existsb (String.eqb p) fs.

(** A path is [dir] itself or lies below it (as text, see above). *)
Definition within (dir p : string) : bool :=
  String.eqb p dir || String.prefix (dir +:+ "/") p.

(** [fs.rmSync(dir, { recursive: true, force: true })] for a canonical
    [dir]. *)
Definition rmSync (dir : string) (fs : t) : t :=
  filter (fun p => within dir p = false) fs.

(** [fs.renameSync(old, new)] on a directory, for a canonical [old]: every
    path below [old] moves below [new]. *)
Definition renameSync (old new : string) (fs : t) : t :=
  map (fun p =>
         if within old p
         then new +:+ String.substring (String.length old)
                                       (String.length p - String.length old) p
         else p) fs.

(** What [fs.createWriteStream(p)] does to the set of paths: the file
    exists afterwards (created, or truncated). *)
Definition createWriteStream (p : string) (fs : t) : t :=
  if existsSync p fs then fs else fs ++ [p].

(** [fs.unlinkSync(p)] and [fs.unlink(p, cb)]: the file is gone. *)
Definition unlinkSync (p : string) (fs : t) : t :=
  List.filter (fun q => negb (String.eqb q p)) fs.

(** The directories above a path, nearest last: its prefixes that end
    right before a slash (the root itself is not listed). *)
Fixpoint ancestors (p : string) : list string :=
  match p with
  | EmptyString => []
  | String a p' =>
      (if Ascii.eqb a "/" then [""] else [])
      ++ map (String a) (ancestors p')
  end.

(** [fs.mkdirSync(dir, { recursive: true })]: the directory and those above
    it that are missing. *)
Definition mkdirSync (dir : string) (fs : t) : t :=
  fold_left (fun fs p => if existsSync p fs then fs else fs ++ [p])
    (List.filter JS.truthy (ancestors dir) ++ [dir]) fs.

End Fs.

(** ** The manager: [src/main/pc2Manager.ts] *)

Module Manager.

(** *** Data *)

(** [type PC2Status]. *)
Inductive PC2Status :=
| running | stopped | starting | stopping | error | not_installed.

(** [type PC2Environment]. *)
Inductive PC2Environment := env_default | env_dev | env_custom.

Inductive Signal := SIGTERM | SIGKILL.

(** State of a promise returned to a caller. *)
Inductive Outcome := Pending | Resolved | Rejected (message : string).

(** What a promise returned by [startPC2] or [stopPC2] still waits for. *)
Inductive Continuation :=
| NoCont                 (* the async function returned on the spot *)
| AwaitReady (p : nat)   (* startPC2: waitForServer, or child [p]'s error event *)
| AwaitTimer             (* stopPC2: the 3000 ms grace timer *)
| AwaitExec.             (* stopPC2: the callback of the port-4200 kill command *)

Record Call := mkCall { cont : Continuation; outcome : Outcome }.

(** One entry per [spawn]: the fields of Node's [ChildProcess] object that
    the manager reads ([killed]) or that decide what [kill()] does
    ([exited]: Node has reaped the process and dropped its handle), and the
    closure the handlers registered on it captured: whether [waitForServer]
    is still polling for this spawn and which promise ([caller], an index
    into [calls]) its [resolve]/[reject] settle. *)
Record Child := mkChild {
  killed : bool;
  exited : bool;
  waiting : bool;
  caller : nat
}.

(** The host the launcher runs on: [process.platform], [process.arch],
    [os.homedir()], and the node binary found by the scan of system
    locations that [findNodePath] falls back to when the launcher's own
    copy is missing. *)
Record Host := mkHost {
  platform : string;
  arch : string;
  HOME : string;
  systemNode : string
}.

Record State := mkState {
  (* module-level variables *)
  pc2Process : option nat;        (* reference into [children], or null *)
  logBuffer : list string;
  currentEnv : PC2Environment;
  customPath : string;
  custom_dir : string;            (* ENVIRONMENTS.custom.dir *)
  custom_nodeDir : string;        (* ENVIRONMENTS.custom.nodeDir *)
  (* objects allocated by the module *)
  children : list Child;
  calls : list Call;
  (* what the outside observes *)
  statusLog : list PC2Status;     (* arguments of emitStatus, oldest first *)
  signals : list (nat * Signal);  (* signals delivered by kill() *)
  execLog : list string;          (* command lines handed to exec() *)
  progressLog : list string;      (* arguments of onProgress *)
  (* the environment *)
  host : Host;
  fs : Fs.t;
  wallClock : string;             (* new Date().toLocaleTimeString() *)
  port4200 : bool                 (* some process listens on port 4200 *)
}.

Definition set_pc2Process (v : option nat) (s : State) : State :=
  mkState v (logBuffer s) (currentEnv s) (customPath s) (custom_dir s)
    (custom_nodeDir s) (children s) (calls s) (statusLog s) (signals s)
    (execLog s) (progressLog s) (host s) (fs s) (wallClock s) (port4200 s).

Definition set_logBuffer (v : list string) (s : State) : State :=
  mkState (pc2Process s) v (currentEnv s) (customPath s) (custom_dir s)
    (custom_nodeDir s) (children s) (calls s) (statusLog s) (signals s)
    (execLog s) (progressLog s) (host s) (fs s) (wallClock s) (port4200 s).

Definition set_env (e : PC2Environment) (s : State) : State :=
  mkState (pc2Process s) (logBuffer s) e (customPath s) (custom_dir s)
    (custom_nodeDir s) (children s) (calls s) (statusLog s) (signals s)
    (execLog s) (progressLog s) (host s) (fs s) (wallClock s) (port4200 s).

Definition set_custom (dir nodeDir : string) (s : State) : State :=
  mkState (pc2Process s) (logBuffer s) (currentEnv s) dir dir
    nodeDir (children s) (calls s) (statusLog s) (signals s)
    (execLog s) (progressLog s) (host s) (fs s) (wallClock s) (port4200 s).

Definition set_children (v : list Child) (s : State) : State :=
  mkState (pc2Process s) (logBuffer s) (currentEnv s) (customPath s)
    (custom_dir s) (custom_nodeDir s) v (calls s) (statusLog s) (signals s)
    (execLog s) (progressLog s) (host s) (fs s) (wallClock s) (port4200 s).

Definition set_calls (v : list Call) (s : State) : State :=
  mkState (pc2Process s) (logBuffer s) (currentEnv s) (customPath s)
    (custom_dir s) (custom_nodeDir s) (children s) v (statusLog s)
    (signals s) (execLog s) (progressLog s) (host s) (fs s) (wallClock s)
    (port4200 s).

Definition set_statusLog (v : list PC2Status) (s : State) : State :=
  mkState (pc2Process s) (logBuffer s) (currentEnv s) (customPath s)
    (custom_dir s) (custom_nodeDir s) (children s) (calls s) v (signals s)
    (execLog s) (progressLog s) (host s) (fs s) (wallClock s) (port4200 s).

Definition set_signals (v : list (nat * Signal)) (s : State) : State :=
  mkState (pc2Process s) (logBuffer s) (currentEnv s) (customPath s)
    (custom_dir s) (custom_nodeDir s) (children s) (calls s) (statusLog s) v
    (execLog s) (progressLog s) (host s) (fs s) (wallClock s) (port4200 s).

Definition set_execLog (v : list string) (s : State) : State :=
  mkState (pc2Process s) (logBuffer s) (currentEnv s) (customPath s)
    (custom_dir s) (custom_nodeDir s) (children s) (calls s) (statusLog s)
    (signals s) v (progressLog s) (host s) (fs s) (wallClock s) (port4200 s).

Definition set_progressLog (v : list string) (s : State) : State :=
  mkState (pc2Process s) (logBuffer s) (currentEnv s) (customPath s)
    (custom_dir s) (custom_nodeDir s) (children s) (calls s) (statusLog s)
    (signals s) (execLog s) v (host s) (fs s) (wallClock s) (port4200 s).

Definition set_fs (v : Fs.t) (s : State) : State :=
  mkState (pc2Process s) (logBuffer s) (currentEnv s) (customPath s)
    (custom_dir s) (custom_nodeDir s) (children s) (calls s) (statusLog s)
    (signals s) (execLog s) (progressLog s) (host s) v (wallClock s)
    (port4200 s).

Definition set_wallClock (v : string) (s : State) : State :=
  mkState (pc2Process s) (logBuffer s) (currentEnv s) (customPath s)
    (custom_dir s) (custom_nodeDir s) (children s) (calls s) (statusLog s)
    (signals s) (execLog s) (progressLog s) (host s) (fs s) v (port4200 s).

Definition set_port4200 (v : bool) (s : State) : State :=
  mkState (pc2Process s) (logBuffer s) (currentEnv s) (customPath s)
    (custom_dir s) (custom_nodeDir s) (children s) (calls s) (statusLog s)
    (signals s) (execLog s) (progressLog s) (host s) (fs s) (wallClock s) v.

(** The module right after it is loaded. *)
Definition init (h : Host) (files : Fs.t) (clock : string) (port : bool) : State :=
  mkState None [] env_default "" "" "" [] [] [] [] [] [] h files clock port.

(** *** Constants *)

Definition PC2_URL : string := "http://localhost:4200".
Definition NODE_VERSION : string := "22.13.1".
Definition MAX_LOG_LINES : nat := 500.

Definition IS_WINDOWS (h : Host) : bool := String.eqb (platform h) "win32".

Definition BUNDLED_NODE_DIR (h : Host) : string :=
  Path.join [HOME h; ".elastos"; "node"].

(** *** Environments *)

Definition getPC2Dir (s : State) : string :=
  match currentEnv s with
  | env_default => Path.join [HOME (host s); ".pc2"]
  | env_dev => Path.join [HOME (host s); "pc2.net"]
  | env_custom => custom_dir s
  end.

Definition getPC2NodeDir (s : State) : string :=
  match currentEnv s with
  | env_default => Path.join [HOME (host s); ".pc2"; "pc2-node"]
  | env_dev => Path.join [HOME (host s); "pc2.net"; "pc2-node"]
  | env_custom => custom_nodeDir s
  end.

(** [setEnvironment(env, customDir?)].  The trailing [log.info] goes to the
    electron-log file, not to the log buffer. *)
Definition setEnvironment (env : PC2Environment) (customDir : option string)
    (s : State) : State :=
  let s := set_env env s in
  match env, customDir with
  | env_custom, Some d =>
      if JS.truthy d then set_custom d (Path.join [d; "pc2-node"]) s else s
  | _, _ => s
  end.

Definition getEnvironment (s : State) : PC2Environment := currentEnv s.

(** *** Status and log events *)

Definition emitStatus (status : PC2Status) (s : State) : State :=
  set_statusLog (statusLog s ++ [status]) s.

(** The buffer update of [emitLog]: push, then shift once when the length
    exceeds [MAX_LOG_LINES]. *)
Definition pushLog (logMessage : string) (buf : list string) : list string :=
  let buf := buf ++ [logMessage] in
  if Nat.ltb MAX_LOG_LINES (length buf) then tail buf else buf.

Definition stamp (clock message : string) : string :=
  "[" +:+ clock +:+ "] " +:+ message.

Definition emitLog (message : string) (s : State) : State :=
  let logMessage := stamp (wallClock s) message in
  set_logBuffer (pushLog logMessage (logBuffer s)) s.

(** [getLogs(lines = 100)]; [lines] is an integer. *)
Definition getLogs (lines : Z) (s : State) : string :=
  let recentLogs := JS.slice (- lines) (logBuffer s) in
  JS.join JS.newline recentLogs.

(** *** Installation marker *)

(** What a status query touches outside the module's own variables. *)
Inductive Access :=
| Stat (path : string)                   (* fs.existsSync *)
| HttpGet (url : string) (timeout : Z)   (* fetch with an abort timer *)
| ReadProcess.                           (* pc2Process && !pc2Process.killed *)

Definition markerPath (s : State) : string :=
  Path.join [getPC2NodeDir s; "dist"; "index.js"].

(** [isInstalled()], with the existence checks it performs; [&&] does not
    evaluate its right operand when the left one is false. *)
Definition isInstalled (s : State) : bool * list Access :=
  let nodeDir := getPC2NodeDir s in
  if Fs.existsSync nodeDir (fs s)
  then (Fs.existsSync (markerPath s) (fs s), [Stat nodeDir; Stat (markerPath s)])
  else (false, [Stat nodeDir]).

(** *** Health probe *)

(** What the service answers to one [GET /health]: after [latency]
    milliseconds either a response with a status code, or a network
    error. *)
Inductive FetchResult := Response (status : Z) | NetworkError.

Record ProbeOutcome := mkProbe { latency : N; result : FetchResult }.

(** [response.ok]: the status is in the range 200-299. *)
Definition response_ok (status : Z) : bool :=
  (200 <=? status)%Z && (status <=? 299)%Z.

(** The [try] block shared by [getStatus] and [waitForServer]: a fetch
    guarded by an [AbortController] that fires after 2000 ms.  The result
    is whether [response.ok] was reached and true, and how long the attempt
    lasted; an abort or a network error lands in the empty [catch]. *)
Definition healthProbe (o : ProbeOutcome) : bool * Z :=
  if (Z.of_N (latency o) <? 2000)%Z
  then (match result o with
        | Response st => response_ok st
        | NetworkError => false
        end, Z.of_N (latency o))
  else (false, 2000%Z).

Definition healthUrl : string := PC2_URL +:+ "/health".

Inductive WaitResult := Ready | TimedOut (message : string).

(** The loop of [waitForServer] with timers that fire on time; [elapsed]
    is [Date.now() - startTime] at the loop test.  After a failed attempt
    the loop sleeps 1000 ms.  The loop with timers that fire late is
    [waitForServer_late] below. *)
Equations? waitForServer_from (timeout : Z) (health : Z -> ProbeOutcome)
    (elapsed : Z) : WaitResult by wf (Z.to_nat (timeout - elapsed)) lt :=
  waitForServer_from timeout health elapsed with Z_lt_dec elapsed timeout => {
    | left _ :=
        if fst (healthProbe (health elapsed)) then Ready
        else waitForServer_from timeout health
               (elapsed + snd (healthProbe (health elapsed)) + 1000);
    | right _ := TimedOut "Timeout waiting for server to start" }.
Proof.
  assert (0 <= snd (healthProbe (health elapsed)))%Z.
  { unfold healthProbe. destruct (Z.of_N _ <? 2000)%Z; simpl; lia. }
  lia.
Qed.

(** [waitForServer(timeout = 30000)]; [health t] is what the service
    answers to an attempt started [t] ms after the call. *)
Definition waitForServer (health : Z -> ProbeOutcome) : WaitResult :=
  waitForServer_from 30000 health 0.

(** Timers of Node never fire early and may fire late.  In the round of
    the loop begun at some moment, [abortLate] is how long after its
    2000 ms the abort timer fires, and [sleepLate] is everything that
    delays the next loop test beyond the 1000 ms of the pause.  Negative
    values count as zero. *)
Record Timers := mkTimers { abortLate : Z; sleepLate : Z }.

(** The guarded fetch when the abort timer fires [late] ms late: an answer
    that arrives before the timer fires is still taken. *)
Definition healthProbe_late (late : Z) (o : ProbeOutcome) : bool * Z :=
  let limit := (2000 + Z.max 0 late)%Z in
  if (Z.of_N (latency o) <? limit)%Z
  then (match result o with
        | Response st => response_ok st
        | NetworkError => false
        end, Z.of_N (latency o))
  else (false, limit).

(** The loop of [waitForServer] with such timers. *)
Equations? waitForServer_late (timeout : Z) (health : Z -> ProbeOutcome)
    (timers : Z -> Timers) (elapsed : Z) : WaitResult
    by wf (Z.to_nat (timeout - elapsed)) lt :=
  waitForServer_late timeout health timers elapsed
    with Z_lt_dec elapsed timeout => {
    | left _ :=
        if fst (healthProbe_late (abortLate (timers elapsed)) (health elapsed))
        then Ready
        else waitForServer_late timeout health timers
               (elapsed
                + snd (healthProbe_late (abortLate (timers elapsed))
                         (health elapsed))
                + 1000 + Z.max 0 (sleepLate (timers elapsed)));
    | right _ := TimedOut "Timeout waiting for server to start" }.
Proof.
  assert (0 <= snd (healthProbe_late (abortLate (timers elapsed))
                      (health elapsed)))%Z.
  { unfold healthProbe_late. cbv zeta.
    destruct (Z.of_N _ <? _)%Z; simpl; lia. }
  lia.
Qed.

(** *** The tracked child *)

(** [pc2Process && !pc2Process.killed]. *)
Definition trackedAlive (s : State) : bool :=
  match pc2Process s with
  | Some p =>
      match children s !! p with
      | Some ch => negb (killed ch)
      | None => false
      end
  | None => false
  end.

(** [child.kill(sig)] of Node: while the process handle is open the signal
    is delivered and [killed] becomes true; once the process has exited the
    call does nothing and returns false. *)
Definition kill (p : nat) (sig : Signal) (s : State) : State :=
  match children s !! p with
  | Some ch =>
      if exited ch then s
      else set_signals (signals s ++ [(p, sig)])
             (set_children
                (<[p := mkChild true (exited ch) (waiting ch) (caller ch)]>
                   (children s)) s)
  | None => s
  end.

(** [pc2Process.kill(sig)] behind a guard that made sure it is not null. *)
Definition killTracked (sig : Signal) (s : State) : State :=
  match pc2Process s with
  | Some p => kill p sig s
  | None => s
  end.

(** [resolve()] / [reject(err)] of the promise of call [c]: a promise
    settles once, later calls are ignored. *)
Definition settle (c : nat) (o : Outcome) (s : State) : State :=
  match calls s !! c with
  | Some cl =>
      match outcome cl with
      | Pending => set_calls (<[c := mkCall (cont cl) o]> (calls s)) s
      | _ => s
      end
  | None => s
  end.

(** *** Locating node and npm *)

Definition getBundledNodePath (h : Host) : string :=
  if IS_WINDOWS h
  then Path.join [BUNDLED_NODE_DIR h;
                  "node-v" +:+ NODE_VERSION +:+ "-win-x64"; "node.exe"]
  else Path.join [BUNDLED_NODE_DIR h;
                  "node-v" +:+ NODE_VERSION +:+ "-" +:+ platform h +:+ "-"
                    +:+ arch h; "bin"; "node"].

Definition hasBundledNode (s : State) : bool :=
  Fs.existsSync (getBundledNodePath (host s)) (fs s).

(** [findNodePath()]: the launcher's own node when it exists, else the
    result of the scan of system locations. *)
Definition findNodePath (s : State) : string :=
  let bundledNode := getBundledNodePath (host s) in
  if Fs.existsSync bundledNode (fs s) then bundledNode
  else systemNode (host s).

Definition findNpmPath (s : State) : string :=
  let bundledNode := getBundledNodePath (host s) in
  let npmName := if IS_WINDOWS (host s) then "npm.cmd" else "npm" in
  if Fs.existsSync bundledNode (fs s)
  then let npmPath := Path.join [Path.dirname bundledNode; npmName] in
       if Fs.existsSync npmPath (fs s) then npmPath else npmName
  else npmName.

(** *** Start *)

(** [spawn(...)] and the assignment to [pc2Process]: a fresh child object,
    tracked at once, whose handlers settle the promise allocated for this
    call. *)
Definition spawn (s : State) : State :=
  let p := length (children s) in
  let c := length (calls s) in
  set_pc2Process (Some p)
    (set_children (children s ++ [mkChild false false true c])
       (set_calls (calls s ++ [mkCall (AwaitReady p) Pending]) s)).

(** A call of an async function that returns without awaiting anything
    more: its promise is already fulfilled. *)
Definition returned (s : State) : State :=
  set_calls (calls s ++ [mkCall NoCont Resolved]) s.

(** [startPC2()] up to the point where it waits for [waitForServer].  The
    only [await] before that, on [isInstalled()], resumes in the same turn
    of the event loop, before any timer, I/O callback or child event. *)
Definition startPC2 (s : State) : State :=
  let installed := fst (isInstalled s) in
  let nodeDir := getPC2NodeDir s in
  if negb installed then
    returned
      (emitLog "PC2 is not installed. Please install first."
         (emitStatus not_installed s))
  else if trackedAlive s then
    returned (emitLog "PC2 is already running" s)
  else
    let s := emitStatus starting s in
    let s := emitLog ("Starting PC2 from " +:+ nodeDir +:+ "...") s in
    let nodePath := findNodePath s in
    let distPath := Path.join [nodeDir; "dist"; "index.js"] in
    let s := emitLog ("Using node: " +:+ nodePath) s in
    let s := emitLog ("Starting: " +:+ distPath) s in
    let s := spawn s in
    emitLog "Process spawned, waiting for server to be ready..." s.

(** Handler of the child's [stdout] data event. *)
Definition onStdout (data : string) (s : State) : State :=
  let lines := List.filter JS.trim_truthy (JS.split JS.LF data) in
  fold_left (fun s line => emitLog line s) lines s.

(** Handler of the child's [stderr] data event. *)
Definition onStderr (data : string) (s : State) : State :=
  let lines := List.filter JS.trim_truthy (JS.split JS.LF data) in
  fold_left (fun s line => emitLog ("[stderr] " +:+ line) s) lines s.

(** Handler of the [error] event of child [p]. *)
Definition onError (p : nat) (message : string) (s : State) : State :=
  match children s !! p with
  | Some ch =>
      let s := emitStatus error s in
      let s := emitLog ("Failed to start PC2: " +:+ message) s in
      let s := set_pc2Process None s in
      settle (caller ch) (Rejected message) s
  | None => s
  end.

(** Handler of the [exit] event of child [p]. *)
Definition onExit (code : option Z) (signal : option string) (s : State) : State :=
  let s := match code, signal with
           | Some n, _ => emitLog ("PC2 exited with code " +:+ pretty n) s
           | None, Some sg =>
               if JS.truthy sg
               then emitLog ("PC2 was killed with signal " +:+ sg) s
               else s
           | None, None => s
           end in
  let s := set_pc2Process None s in
  emitStatus stopped s.

(** The [then] callback of [waitForServer()] in the promise of call [c]. *)
Definition onReady (c : nat) (s : State) : State :=
  let s := emitStatus running s in
  let s := emitLog "PC2 is now running!" s in
  settle c Resolved s.

(** The [catch] callback of [waitForServer()] in the promise of call [c]. *)
Definition onWaitFailed (c : nat) (message : string) (s : State) : State :=
  let s := emitStatus error s in
  let s := emitLog ("Failed to start: " +:+ message) s in
  let s := if trackedAlive s
           then set_pc2Process None (killTracked SIGTERM s)
           else s in
  settle c (Rejected message) s.

(** *** Stop *)

Definition DQ : string := String (ascii_of_nat 34) "".

Definition quoted (x : string) : string := DQ +:+ x +:+ DQ.

Definition killPortCommand (h : Host) : string :=
  if IS_WINDOWS h
  then "for /f " +:+ quoted "tokens=5"
       +:+ " %a in ('netstat -ano ^| findstr :4200 ^| findstr LISTENING') do taskkill /F /PID %a 2>nul"
  else "lsof -ti:4200 | xargs kill -9 2>/dev/null || true".

(** [stopPC2()] up to the point where its promise waits for the timer or
    for the callback of [exec]. *)
Definition stopPC2 (s : State) : State :=
  let s := emitStatus stopping s in
  let s := emitLog "Stopping PC2..." s in
  if trackedAlive s then
    let s := killTracked SIGTERM s in
    set_calls (calls s ++ [mkCall AwaitTimer Pending]) s
  else
    let s := set_execLog (execLog s ++ [killPortCommand (host s)]) s in
    set_calls (calls s ++ [mkCall AwaitExec Pending]) s.

(** The callback of [setTimeout(..., 3000)] in [stopPC2], for call [c]. *)
Definition onStopTimer (c : nat) (s : State) : State :=
  let s := if trackedAlive s
           then killTracked SIGKILL (emitLog "Force killing PC2..." s)
           else s in
  let s := set_pc2Process None s in
  let s := emitStatus stopped s in
  let s := emitLog "PC2 stopped" s in
  settle c Resolved s.

(** The callback of [exec] in [stopPC2], for call [c]; by then the command
    has killed whatever listened on port 4200. *)
Definition onStopExec (c : nat) (s : State) : State :=
  let s := set_port4200 false s in
  let s := emitStatus stopped s in
  let s := emitLog "PC2 stopped" s in
  settle c Resolved s.

(** *** Status query *)

(** [getStatus()], with what it touched.  [probe] is what the service
    answers to the one health request made when the marker exists.  The
    query writes nothing; its reads are taken in one state, that is, no
    other event is scheduled between its two awaits. *)
Definition getStatus (probe : ProbeOutcome) (s : State) : PC2Status * list Access :=
  let (installed, checks) := isInstalled s in
  if negb installed then (not_installed, checks)
  else if fst (healthProbe probe)
  then (running, checks ++ [HttpGet healthUrl 2000])
  else if trackedAlive s
  then (starting, checks ++ [HttpGet healthUrl 2000; ReadProcess])
  else (stopped, checks ++ [HttpGet healthUrl 2000; ReadProcess]).

(** The [onProgress] callback handed to [installPC2]. *)
Definition onProgress (message : string) (s : State) : State :=
  set_progressLog (progressLog s ++ [message]) s.

(** *** The event machine *)

Inductive Event :=
| CallStartPC2
| CallStopPC2
| CallSetEnvironment (env : PC2Environment) (customDir : option string)
| StopTimer (c : nat)            (* the grace timer of stop call [c] fires *)
| StopExecDone (c : nat)         (* the port-kill command of stop call [c] ends *)
| WaitSettled (p : nat) (health : Z -> ProbeOutcome)
                                 (* waitForServer of spawn [p] ends; [health] is
                                    how the service answered meanwhile *)
| ChildStdout (p : nat) (data : string)
| ChildStderr (p : nat) (data : string)
| ChildError (p : nat) (message : string)
| ChildExit (p : nat) (code : option Z) (signal : option string)
| ClockTick (clock : string)
| FsChanged (files : Fs.t)
| Logged (message : string)        (* emitLog by install, uninstall or restart *)
| StatusEmitted (status : PC2Status)
                                   (* emitStatus by uninstall or restart *)
| Executed (command : string)      (* exec of an install step *)
| ProgressReported (message : string).

(** One turn of the event loop.  The last four events stand for the log
    lines, statuses, commands and progress reports of the operations that
    are not turns of their own ([installPC2], [uninstallPC2],
    [restartPC2]), so that every run of the module is a schedule.  An event
    that cannot happen in [s] (a timer that was never armed, an event of a
    child that was never spawned, a second exit of the same child, a promise
    callback that already ran) leaves the state alone, so every schedule of
    the real program is a list of events and every list of events is
    harmless. *)
Definition handle (e : Event) (s : State) : State :=
  match e with
  | CallStartPC2 => startPC2 s
  | CallStopPC2 => stopPC2 s
  | CallSetEnvironment env customDir => setEnvironment env customDir s
  | StopTimer c =>
      match calls s !! c with
      | Some (mkCall AwaitTimer Pending) => onStopTimer c s
      | _ => s
      end
  | StopExecDone c =>
      match calls s !! c with
      | Some (mkCall AwaitExec Pending) => onStopExec c s
      | _ => s
      end
  | WaitSettled p health =>
      match children s !! p with
      | Some ch =>
          if waiting ch then
            let s := set_children
                       (<[p := mkChild (killed ch) (exited ch) false (caller ch)]>
                          (children s)) s in
            match waitForServer health with
            | Ready => onReady (caller ch) s
            | TimedOut message => onWaitFailed (caller ch) message s
            end
          else s
      | None => s
      end
  | ChildStdout p data =>
      match children s !! p with Some _ => onStdout data s | None => s end
  | ChildStderr p data =>
      match children s !! p with Some _ => onStderr data s | None => s end
  | ChildError p message => onError p message s
  | ChildExit p code signal =>
      match children s !! p with
      | Some ch =>
          if exited ch then s
          else onExit code signal
                 (set_children
                    (<[p := mkChild (killed ch) true (waiting ch) (caller ch)]>
                       (children s)) s)
      | None => s
      end
  | ClockTick clock => set_wallClock clock s
  | FsChanged files => set_fs files s
  | Logged message => emitLog message s
  | StatusEmitted status => emitStatus status s
  | Executed command => set_execLog (execLog s ++ [command]) s
  | ProgressReported message => onProgress message s
  end.

Definition run (schedule : list Event) (s : State) : State :=
  fold_left (fun s e => handle e s) schedule s.

(** The event that ends the wait of stop call [c]. *)
Definition completion (c : nat) (s : State) : Event :=
  match calls s !! c with
  | Some (mkCall AwaitTimer _) => StopTimer c
  | _ => StopExecDone c
  end.

(** [await stopPC2()]: the call, whatever happens [during] the wait, then
    the callback that resolves the promise. *)
Definition await_stopPC2 (during : list Event) (s : State) : State :=
  let c := length (calls s) in
  let s1 := handle CallStopPC2 s in
  handle (completion c s1) (run during s1).

Definition call_outcome (c : nat) (s : State) : option Outcome :=
  outcome <$> calls s !! c.

Definition lastStatus (s : State) : option PC2Status := last (statusLog s).

(** *** Uninstall *)

Definition SAFETY_MESSAGE : string :=
  "Safety check failed: refusing to delete this path".

(** [uninstallPC2()]: the final state and how its promise settles.
    [probe] answers the health request of its [getStatus()], [during] is
    what happens while it awaits [stopPC2()]. *)
Definition uninstallPC2 (probe : ProbeOutcome) (during : list Event)
    (s : State) : State * Outcome :=
  let pc2Dir := getPC2Dir s in
  if negb (JS.includes pc2Dir ".pc2") && negb (JS.includes pc2Dir "pc2.net")
  then (s, Rejected SAFETY_MESSAGE)
  else
    let status := fst (getStatus probe s) in
    let s := match status with
             | running => await_stopPC2 during s
             | _ => s
             end in
    let s := emitLog ("Uninstalling PC2 from " +:+ pc2Dir +:+ "...") s in
    let s := if Fs.existsSync pc2Dir (fs s)
             then emitLog "PC2 uninstalled successfully"
                    (set_fs (Fs.rmSync pc2Dir (fs s)) s)
             else s in
    (emitStatus not_installed s, Resolved).

(** *** Install from source *)

(** How the HTTPS exchange of [downloadFile] goes: an answer 301 or 302
    with a [location] header, followed by the exchange with the new
    address; a response whose body is piped into the file, with the
    percentages [Math.round(downloaded / total * 100)] passed to the
    callback at its [data] events (none when the content length is missing
    or zero); or an [error] event of the request.  The status of a response
    is not looked at otherwise: a 404 page is received like an archive.
    Exchanges that never end (redirects without end, a response that
    stalls) are not described; with them the promise stays pending. *)
Inductive Exchange :=
| Redirected (next : Exchange)
| Received (percents : list Z)
| RequestFailed (message : string).

(** How a shell command ends: the file system it leaves (it may create,
    overwrite and delete) and, when it exits with a non-zero code, the
    message of the error [exec] reports.  A command that never ends is not
    described. *)
Record ExecResult := mkExec { after : Fs.t -> Fs.t; failure : option string }.

(** The tools installation depends on: whether [git --version] runs, how
    the download of the node archive goes, how each shell command ends,
    and [Date.now()]. *)
Record Tools := mkTools {
  gitAvailable : bool;
  download : Exchange;
  sh : string -> ExecResult;
  dateNow : Z
}.

(** [isGitAvailable()]. *)
Definition isGitAvailable (t : Tools) : bool := gitAvailable t.

Definition gitMessage (h : Host) : string :=
  if IS_WINDOWS h
  then "Git is not installed. Please download and install Git from https://git-scm.com/download/win then restart the launcher."
  else "Git is not installed. Please install git and try again.".

(** [NODE_URLS[key]]. *)
Definition NODE_URLS (key : string) : option string :=
  let dist := "https://nodejs.org/dist/v" +:+ NODE_VERSION +:+ "/node-v"
                +:+ NODE_VERSION in
  if String.eqb key "darwin-arm64" then Some (dist +:+ "-darwin-arm64.tar.gz")
  else if String.eqb key "darwin-x64" then Some (dist +:+ "-darwin-x64.tar.gz")
  else if String.eqb key "linux-x64" then Some (dist +:+ "-linux-x64.tar.gz")
  else if String.eqb key "linux-arm64" then Some (dist +:+ "-linux-arm64.tar.gz")
  else if String.eqb key "win32-x64" then Some (dist +:+ "-win-x64.zip")
  else None.

(** [downloadFile(url, dest, onProgress)]: the state when its promise
    settles and, when it is rejected, the message of the error.  The
    stream creates (or truncates) [dest] before the answer arrives; a
    redirect and a failed request remove it. *)
Fixpoint downloadFile (exchange : Exchange) (dest : string)
    (onProgress : Z -> State -> State) (s : State) : State * option string :=
  let s := set_fs (Fs.createWriteStream dest (fs s)) s in
  match exchange with
  | Redirected next =>
      downloadFile next dest onProgress
        (set_fs (Fs.unlinkSync dest (fs s)) s)
  | Received percents =>
      (fold_left (fun s percent => onProgress percent s) percents s, None)
  | RequestFailed message =>
      (set_fs (Fs.unlinkSync dest (fs s)) s, Some message)
  end.

Definition archivePath (h : Host) (archiveExt : string) : string :=
  Path.join [BUNDLED_NODE_DIR h; "node-v" +:+ NODE_VERSION +:+ archiveExt].

Definition extractCmd (h : Host) (isZip : bool) : string :=
  if isZip
  then "powershell -NoProfile -Command "
       +:+ quoted ("Expand-Archive -Path '" +:+ archivePath h ".zip"
                   +:+ "' -DestinationPath '" +:+ BUNDLED_NODE_DIR h
                   +:+ "' -Force")
  else "tar -xzf " +:+ quoted (archivePath h ".tar.gz") +:+ " -C "
       +:+ quoted (BUNDLED_NODE_DIR h).

(** [downloadBundledNode(onProgress)]: the state when its promise settles
    and, when it is rejected, the message of the error. *)
Definition downloadBundledNode (t : Tools) (s : State) : State * option string :=
  let h := host s in
  let key := platform h +:+ "-" +:+ arch h in
  match NODE_URLS key with
  | None =>
      (s, Some ("No Node.js binary available for " +:+ key
                +:+ ". Please install Node.js " +:+ NODE_VERSION
                +:+ " manually."))
  | Some url =>
      let s := if Fs.existsSync (BUNDLED_NODE_DIR h) (fs s) then s
               else set_fs (Fs.mkdirSync (BUNDLED_NODE_DIR h) (fs s)) s in
      let isZip := JS.endsWith ".zip" url in
      let archiveExt := if isZip then ".zip" else ".tar.gz" in
      let s := onProgress ("Downloading Node.js " +:+ NODE_VERSION +:+ "...") s in
      match downloadFile (download t) (archivePath h archiveExt)
              (fun percent =>
                 onProgress ("Downloading Node.js " +:+ NODE_VERSION +:+ "... "
                             +:+ pretty percent +:+ "%")) s with
      | (s, Some message) => (s, Some message)
      | (s, None) =>
          let s := onProgress "Extracting Node.js..." s in
          let s := set_execLog (execLog s ++ [extractCmd h isZip]) s in
          let r := sh t (extractCmd h isZip) in
          let s := set_fs (after r (fs s)) s in
          match failure r with
          | Some message => (s, Some message)
          | None =>
              (set_fs (Fs.unlinkSync (archivePath h archiveExt) (fs s)) s, None)
          end
      end
  end.

(** Step 1 of both installers. *)
Definition ensureBundledNode (t : Tools) (s : State) : State :=
  if hasBundledNode s then s
  else
    let s := onProgress ("Downloading Node.js " +:+ NODE_VERSION +:+ " LTS...") s in
    let s := emitLog ("Downloading bundled Node.js " +:+ NODE_VERSION
                        +:+ " LTS for compatibility...") s in
    match downloadBundledNode t s with
    | (s, None) => emitLog ("Node.js " +:+ NODE_VERSION +:+ " ready") s
    | (s, Some message) =>
        emitLog "Will try to use system Node.js..."
          (emitLog ("Warning: Could not download bundled Node.js: " +:+ message) s)
    end.

(** The backup of a directory that is not a PC2 checkout. *)
Definition backupForeignDir (t : Tools) (pc2Dir : string) (s : State) : State :=
  if Fs.existsSync pc2Dir (fs s)
     && negb (Fs.existsSync (Path.join [pc2Dir; "package.json"]) (fs s))
  then
    let backupDir := pc2Dir +:+ "_backup_" +:+ pretty (dateNow t) in
    set_fs (Fs.renameSync pc2Dir backupDir (fs s))
      (emitLog ("Backing up existing " +:+ pc2Dir +:+ " to " +:+ backupDir) s)
  else s.

Record Step := mkStep { cmd : string; msg : string }.

Definition cloneCmd (pc2Dir : string) : string :=
  "git clone https://github.com/Elacity/pc2.net " +:+ quoted pc2Dir.

Definition rootDepsCmd (pc2Dir npmPath : string) : string :=
  "cd " +:+ quoted pc2Dir +:+ " && " +:+ quoted npmPath
    +:+ " install --legacy-peer-deps --ignore-scripts".

Definition nodeDepsCmd (nodeDir npmPath : string) : string :=
  "cd " +:+ quoted nodeDir +:+ " && " +:+ quoted npmPath
    +:+ " install --legacy-peer-deps".

Definition buildCmd (nodeDir npmPath : string) : string :=
  "cd " +:+ quoted nodeDir +:+ " && " +:+ quoted npmPath +:+ " run build".

Definition steps (pc2Dir nodeDir npmPath : string) : list Step :=
  [ mkStep (cloneCmd pc2Dir) "Cloning repository...";
    mkStep (rootDepsCmd pc2Dir npmPath) "Installing dependencies...";
    mkStep (nodeDepsCmd nodeDir npmPath) "Installing node dependencies...";
    mkStep (buildCmd nodeDir npmPath) "Building PC2..." ].

(** The [for (const step of steps)] loop: a rejected [await] leaves the
    loop and the function. *)
Fixpoint runSteps (t : Tools) (todo : list Step) (s : State) : State * Outcome :=
  match todo with
  | [] => (s, Resolved)
  | step :: rest =>
      let s := onProgress (msg step) s in
      let s := emitLog (msg step) s in
      let s := set_execLog (execLog s ++ [cmd step]) s in
      let r := sh t (cmd step) in
      let s := set_fs (after r (fs s)) s in
      match failure r with
      | Some message => (emitLog ("Error: " +:+ message) s, Rejected message)
      | None => runSteps t rest s
      end
  end.

(** [installFromSource(pc2Dir, nodeDir, onProgress)]. *)
Definition installFromSource (t : Tools) (pc2Dir nodeDir : string)
    (s : State) : State * Outcome :=
  if negb (isGitAvailable t) then
    let gitMsg := gitMessage (host s) in
    (emitLog gitMsg s, Rejected gitMsg)
  else
    let s := ensureBundledNode t s in
    let nodePath := findNodePath s in
    let npmPath := findNpmPath s in
    let s := emitLog ("Using Node.js: " +:+ nodePath) s in
    let s := emitLog ("Using npm: " +:+ npmPath) s in
    let s := onProgress "Preparing installation..." s in
    let s := backupForeignDir t pc2Dir s in
    let s := onProgress "Cloning repository..." s in
    match runSteps t (steps pc2Dir nodeDir npmPath) s with
    | (s, Resolved) =>
        (onProgress "Installation complete!" (emitLog "Installation complete!" s),
         Resolved)
    | failed => failed
    end.

(** *** Awaited start and restart *)

(** [await startPC2()]: the call and, when it spawned a child, whatever
    happens [during] the wait and the end of [waitForServer].  The result is
    the state once [waitForServer] has settled and the way the promise
    settled (the error event of the child, if it is in [during], may have
    rejected it before). *)
Definition await_startPC2 (during : list Event) (health : Z -> ProbeOutcome)
    (s : State) : State * Outcome :=
  let c := length (calls s) in
  let p := length (children s) in
  let s1 := handle CallStartPC2 s in
  match calls s1 !! c with
  | Some (mkCall (AwaitReady _) _) =>
      let s2 := handle (WaitSettled p health) (run during s1) in
      (s2, match call_outcome c s2 with Some o => o | None => Pending end)
  | _ => (s1, Resolved)
  end.

(** [restartPC2()]: [during] is what happens while [stopPC2()] is awaited,
    [pause] during the 1000 ms pause, [wait] while [startPC2()] is
    awaited. *)
Definition restartPC2 (during pause wait : list Event)
    (health : Z -> ProbeOutcome) (s : State) : State * Outcome :=
  let s := emitStatus starting s in
  let s := emitLog "Restarting PC2..." s in
  let s := await_stopPC2 during s in
  let s := run pause s in
  await_startPC2 wait health s.

(** *** The environment of child processes *)

Definition getBundledNodeBinDir (h : Host) : string :=
  if IS_WINDOWS h
  then Path.join [BUNDLED_NODE_DIR h; "node-v" +:+ NODE_VERSION +:+ "-win-x64"]
  else Path.join [BUNDLED_NODE_DIR h;
                  "node-v" +:+ NODE_VERSION +:+ "-" +:+ platform h +:+ "-"
                    +:+ arch h; "bin"].

(** [process.env.X || fallback]. *)
Definition orElse (v : option string) (fallback : string) : string :=
  match v with
  | Some x => if JS.truthy x then x else fallback
  | None => fallback
  end.

Definition nvmDir (h : Host) : string := Path.join [HOME h; ".nvm/versions/node"].

(** The directories [getShellEnv] puts in front of the inherited [PATH] on
    macOS and Linux.  [listing] is what [readdirSync(nvmDir)] returns,
    [None] when it throws. *)
Definition additionalPaths (h : Host) (files : Fs.t)
    (listing : option (list string)) : list string :=
  let paths := [getBundledNodeBinDir h;
                Path.join [HOME h; ".nvm/versions/node"];
                "/usr/local/bin";
                "/opt/homebrew/bin";
                Path.join [HOME h; ".npm-global/bin"];
                Path.join [HOME h; ".local/bin"]] in
  if Fs.existsSync (nvmDir h) files then
    match listing with
    | Some versions =>
        match rev (JS.sort versions) with
        | latestVersion :: _ =>
            Path.join [nvmDir h; latestVersion; "bin"] :: paths
        | [] => paths
        end
    | None => paths
    end
  else paths.

(** [getShellEnv().PATH]; [envPATH] is [process.env.PATH]. *)
Definition getShellEnv (h : Host) (files : Fs.t) (envPATH : option string)
    (listing : option (list string)) : string :=
  let bundledBinDir := getBundledNodeBinDir h in
  let currentPath := orElse envPATH "" in
  if IS_WINDOWS h then bundledBinDir +:+ ";" +:+ currentPath
  else JS.join ":" (additionalPaths h files listing ++ JS.split ":" currentPath).

(** *** The scan for a system node *)

(** What the scan of [findNodePath] reads besides the file system: three
    environment variables (Windows) and the listing of the nvm directory
    ([None] when [readdirSync] throws). *)
Record NodeProbe := mkNodeProbe {
  PROGRAMFILES : option string;
  PROGRAMFILES_X86 : option string;
  LOCALAPPDATA : option string;
  nvmVersions : option (list string)
}.

(** The binary of an nvm version. *)
Definition nvmNode (h : Host) (version : string) : string :=
  Path.join [nvmDir h; version; "bin"; "node"].

(** The part of [findNodePath()] after the test for the launcher's own
    node. *)
Definition scanNode (h : Host) (files : Fs.t) (probe : NodeProbe) : string :=
  if IS_WINDOWS h then
    let possiblePaths :=
      [Path.join [orElse (PROGRAMFILES probe) "C:\Program Files";
                  "nodejs"; "node.exe"];
       Path.join [orElse (PROGRAMFILES_X86 probe) "C:\Program Files (x86)";
                  "nodejs"; "node.exe"];
       Path.join [orElse (LOCALAPPDATA probe) ""; "Programs"; "nodejs";
                  "node.exe"]] in
    match List.find (fun nodePath => JS.truthy nodePath
                                     && Fs.existsSync nodePath files)
            possiblePaths with
    | Some nodePath => nodePath
    | None => "node"
    end
  else
    let fromNvm :=
      if Fs.existsSync (nvmDir h) files then
        match nvmVersions probe with
        | Some versions =>
            let v20Versions :=
              rev (JS.sort (List.filter (JS.startsWith "v20") versions)) in
            List.find (fun nvmNode => Fs.existsSync nvmNode files)
              (map (nvmNode h) v20Versions)
        | None => None
        end
      else None in
    match fromNvm with
    | Some nvmNode => nvmNode
    | None =>
        match List.find (fun nodePath => Fs.existsSync nodePath files)
                ["/usr/local/bin/node"; "/opt/homebrew/bin/node";
                 "/usr/bin/node"] with
        | Some nodePath => nodePath
        | None => "node"
        end
    end.

(** *** The address on the local network *)

Inductive Family := IPv4 | IPv6.

(** An entry of [os.networkInterfaces()]. *)
Record NetworkInterfaceInfo := mkIface {
  family : Family;
  internal : bool;
  address : string
}.

(** [getLocalIP()]; [interfaces] lists the interface names in the order of
    [Object.keys], each with its addresses. *)
Fixpoint getLocalIP (interfaces : list (string * list NetworkInterfaceInfo))
    : string :=
  match interfaces with
  | [] => "127.0.0.1"
  | (_, ifaces) :: rest =>
      match List.find (fun iface =>
                         match family iface with IPv4 => true | IPv6 => false end
                         && negb (internal iface)) ifaces with
      | Some iface => address iface
      | None => getLocalIP rest
      end
  end.

Definition getLanURL (interfaces : list (string * list NetworkInterfaceInfo))
    : string :=
  "http://" +:+ getLocalIP interfaces +:+ ":4200".

End Manager.

(** ** The IPC handler of [src/main/index.ts] *)

Module Main.
Import Manager.

Record EnvReply := mkReply {
  reply_env : PC2Environment;
  reply_path : string;
  reply_installed : bool
}.

(** [ipcMain.handle('pc2:setEnvironment', ...)]: the new state, the status
    sent to the window on channel [pc2:status], and the reply. *)
Definition setEnvironmentHandler (env : PC2Environment)
    (customPath : option string) (probe : ProbeOutcome) (s : State)
    : State * PC2Status * EnvReply :=
  let s := setEnvironment env customPath s in
  let status := fst (getStatus probe s) in
  (s, status, mkReply env (getPC2Dir s) (fst (isInstalled s))).

(** [updateTrayMenu()]: the [enabled] flags of the three items that
    depend on the cached status. *)
Record TrayMenu := mkTray {
  startEnabled : bool;
  stopEnabled : bool;
  openEnabled : bool
}.

Definition updateTrayMenu (currentStatus : PC2Status) : TrayMenu :=
  mkTray (match currentStatus with stopped | error => true | _ => false end)
         (match currentStatus with running => true | _ => false end)
         (match currentStatus with running => true | _ => false end).

End Main.

(** ** The environment selector of [src/renderer/app.js] *)

Module Renderer.
Import Manager.

(** The [change] listener of [envSelect].  [currentStatus] is the
    renderer's cached status; the result is the manager's state and the
    status the renderer ends up showing.  [during] is what happens in the
    main process while [stop()] is awaited; [probe1] and [probe2] answer
    the health requests of the two status queries. *)
Definition envSelect_change (currentStatus : PC2Status) (env : PC2Environment)
    (during : list Event) (probe1 probe2 : ProbeOutcome) (s : State)
    : State * PC2Status :=
  let s := match currentStatus with
           | running => await_stopPC2 during s
           | _ => s
           end in
  let '(s, _, _) := Main.setEnvironmentHandler env None probe1 s in
  let status := fst (getStatus probe2 s) in
  (s, status).

(** *** Controls of the window *)

(** [updateStatus(status)]: the [disabled] flags it sets. *)
Record Controls := mkControls {
  powerDisabled : bool;
  openDisabled : bool;
  uninstallDisabled : bool
}.

Definition updateStatus (status : PC2Status) : Controls :=
  let isRunning := match status with running => true | _ => false end in
  let isInstalled := match status with not_installed => false | _ => true end in
  mkControls (match status with starting | stopping => true | _ => false end)
             (negb isRunning)
             (negb isInstalled || isRunning).

(** What the [click] listener of the power button asks the main process
    for, by the cached status. *)
Inductive PowerAction := Stop | Start | InstallThenStart | NoAction.

Definition powerClick (currentStatus : PC2Status) : PowerAction :=
  match currentStatus with
  | running => Stop
  | stopped | error => Start
  | not_installed => InstallThenStart
  | _ => NoAction
  end.

(** *** The log panel *)

Definition MAX_LOGS : nat := 200.

(** [addLog(message)]: the new value of [logs]. *)
Definition addLog (message : string) (logs : list string) : list string :=
  let logs := logs ++ [message] in
  if Nat.ltb MAX_LOGS (length logs) then tail logs else logs.

(** The click on the logs button while the panel is hidden: the value of
    [logs] once [getLogs(100)] has answered [logText]. *)
Definition loadLogs (logText : string) : list string :=
  List.filter JS.trim_truthy (JS.split JS.LF logText).

(** [logsContent.textContent]. *)
Definition logsContent (logs : list string) : string :=
  JS.join JS.newline logs.

End Renderer.

(** ** Predicates on supervisor states *)

Module Inv.
Import Manager.

(** The log buffer respects its capacity. *)
Definition bounded (s : State) : Prop := length (logBuffer s) <= MAX_LOG_LINES.

(** Fields of the child object and closure of spawn [p]. *)
Definition killedOf (s : State) (p : nat) : option bool :=
  killed <$> children s !! p.
Definition exitedOf (s : State) (p : nat) : option bool :=
  exited <$> children s !! p.
Definition waitingOf (s : State) (p : nat) : option bool :=
  waiting <$> children s !! p.
Definition callerOf (s : State) (p : nat) : option nat :=
  caller <$> children s !! p.

(** What the promise of call [c] waits for. *)
Definition contOf (s : State) (c : nat) : option Continuation :=
  cont <$> calls s !! c.

(** Call [c] is a call of [stopPC2]. *)
Definition isStopCall (s : State) (c : nat) : Prop :=
  contOf s c = Some AwaitTimer \/ contOf s c = Some AwaitExec.

(** The invariant of the event machine:
    - the tracked reference points to a child whose exit event has not
      been delivered;
    - the closure of every spawn holds the promise allocated for it;
    - while a child is tracked and [waitForServer] still polls for it, its
      promise is pending;
    - the promise of a stop call is pending or fulfilled. *)
Record wf (s : State) : Prop := mk_wf {
  wf_tracked : forall p, pc2Process s = Some p -> exitedOf s p = Some false;
  wf_caller : forall p c, callerOf s p = Some c -> contOf s c = Some (AwaitReady p);
  wf_pending : forall p c,
      pc2Process s = Some p -> waitingOf s p = Some true ->
      callerOf s p = Some c -> call_outcome c s = Some Pending;
  wf_stop : forall c,
      isStopCall s c ->
      call_outcome c s = Some Pending \/ call_outcome c s = Some Resolved
}.

(** The command of an install step exits with code zero. *)
Definition ok (t : Tools) (step : Step) : Prop := failure (sh t (cmd step)) = None.


(** What [isInstalled] and the path getters read. *)
Definition settings (s : State)
    : Host * Fs.t * PC2Environment * string * string :=
  (host s, fs s, currentEnv s, custom_dir s, custom_nodeDir s).

(** The signal that [stopPC2()] sends when called in state [s]. *)
Definition stopSignal (s : State) : list (nat * Signal) :=
  match pc2Process s with
  | Some p => if trackedAlive s then [(p, SIGTERM)] else []
  | None => []
  end.

(** The custom paths are unset, or the service directory is the
    [pc2-node] child of the custom root. *)
Definition customPaths (s : State) : Prop :=
  (custom_dir s = "" /\ custom_nodeDir s = "") \/
  (custom_dir s <> "" /\ custom_nodeDir s = custom_dir s +:+ "/pc2-node").

(** A turn that is not a [setEnvironment] call with a custom path. *)
Definition pathless (e : Event) : Prop :=
  match e with
  | CallSetEnvironment _ (Some d) => JS.truthy d = false
  | _ => True
  end.

(** A line as [emitLog] writes it. *)
Definition stamped (l : string) : Prop := exists clock m, l = stamp clock m.

(** A string without a line feed. *)
Fixpoint oneLine (l : string) : bool :=
  match l with
  | EmptyString => true
  | String a l' => negb (Ascii.eqb a JS.LF) && oneLine l'
  end.

(** The order of [sort()] on strings. *)
Definition leS (a b : string) : Prop := String.leb a b = true.


(** The name of the npm launcher on the host. *)
Definition npmName (h : Host) : string :=
  if IS_WINDOWS h then "npm.cmd" else "npm".

End Inv.

(** ** Concrete hosts, file systems and answers of the service *)

Module Sample.
Import Manager.

Definition linux : Host := mkHost "linux" "x64" "/home/ada" "/usr/bin/node".

(** A default installation: the marker file and its directories. *)
Definition installed : Fs.t :=
  ["/home/ada/.pc2"; "/home/ada/.pc2/pc2-node";
   "/home/ada/.pc2/pc2-node/dist/index.js"].

(** The launcher right after start-up, with the service installed. *)
Definition fresh : State := init linux installed "10:00:00" false.


(** A service that answers every health request with 200 after 50 ms. *)
Definition healthy : Z -> ProbeOutcome := fun _ => mkProbe 50 (Response 200).

(** A service that refuses every connection after 50 ms. *)
Definition down : Z -> ProbeOutcome := fun _ => mkProbe 50 NetworkError.

(** A service that accepts connections and never answers. *)
Definition hung : Z -> ProbeOutcome := fun _ => mkProbe 60000 (Response 200).

(** A service that refuses connections for its first five seconds and
    answers 200 afterwards. *)
Definition slowStart : Z -> ProbeOutcome :=
  fun t => if (t <? 5000)%Z then mkProbe 50 NetworkError
           else mkProbe 50 (Response 200).

(** The service is up: started, and [waitForServer] saw a 200. *)
Definition up : State := run [CallStartPC2; WaitSettled 0 healthy] fresh.

(** Timers that fire 15 ms and 40 ms late in every round. *)
Definition sluggish : Z -> Timers := fun _ => mkTimers 15 40.

(** Tools with git, no network for the node download, and every command
    succeeding except the build. *)
Definition buildFails : Tools :=
  mkTools true (RequestFailed "getaddrinfo ENOTFOUND nodejs.org")
    (fun c => mkExec (fun files => files)
                (if String.eqb c (buildCmd "/home/ada/.pc2/pc2-node" "npm")
                 then Some "Command failed: npm run build" else None))
    1700000000000.



End Sample.

(** * Properties *)

Import Manager Inv.

(** ** The log buffer *)

Section LogSink.

Lemma pushLog_length (m : string) (buf : list string) :
  length buf <= MAX_LOG_LINES -> length (pushLog m buf) <= MAX_LOG_LINES.
Proof.
  intros Hlen. unfold pushLog.
  destruct (Nat.ltb_spec MAX_LOG_LINES (length (buf ++ [m]))) as [Hgt | Hle].
  - rewrite length_tl, length_app. cbn [length]. lia.
  - exact Hle.
Qed.


Lemma pushLog_room (m : string) (buf : list string) :
  length buf < MAX_LOG_LINES -> pushLog m buf = buf ++ [m].
Proof.
  intros Hlen. unfold pushLog.
  destruct (Nat.ltb_spec MAX_LOG_LINES (length (buf ++ [m]))) as [Hgt | Hle].
  - rewrite length_app in Hgt. cbn [length] in Hgt. lia.
  - reflexivity.
Qed.

Lemma bounded_emitLog (m : string) (s : State) :
  bounded s -> bounded (emitLog m s).
Proof. unfold bounded, emitLog. simpl. apply pushLog_length. Qed.

Lemma bounded_same (s s' : State) :
  logBuffer s' = logBuffer s -> bounded s -> bounded s'.
Proof. unfold bounded. intros ->. auto. Qed.

Lemma bounded_fold_emitLog (f : string -> string) (lines : list string) (s : State) :
  bounded s -> bounded (fold_left (fun s line => emitLog (f line) s) lines s).
Proof.
  revert s. induction lines as [| l lines IH]; intros s Hs; simpl.
  - exact Hs.
  - apply IH, bounded_emitLog, Hs.
Qed.

Lemma logBuffer_kill (p : nat) (sig : Signal) (s : State) :
  logBuffer (kill p sig s) = logBuffer s.
Proof.
  unfold kill. destruct (children s !! p) as [ch |]; [| reflexivity].
  destruct (exited ch); reflexivity.
Qed.

Lemma logBuffer_killTracked (sig : Signal) (s : State) :
  logBuffer (killTracked sig s) = logBuffer s.
Proof.
  unfold killTracked. destruct (pc2Process s); [apply logBuffer_kill | reflexivity].
Qed.

Lemma logBuffer_settle (c : nat) (o : Outcome) (s : State) :
  logBuffer (settle c o s) = logBuffer s.
Proof.
  unfold settle. destruct (calls s !! c) as [cl |]; [| reflexivity].
  destruct (outcome cl); reflexivity.
Qed.

Lemma logBuffer_setEnvironment env d (s : State) :
  logBuffer (setEnvironment env d s) = logBuffer s.
Proof.
  unfold setEnvironment. destruct env, d as [d |]; try reflexivity.
  destruct (JS.truthy d); reflexivity.
Qed.

Local Ltac bounded_step :=
  first
    [ assumption
    | apply bounded_emitLog
    | apply bounded_fold_emitLog
    | eapply bounded_same;
      [ first [ apply logBuffer_settle | apply logBuffer_killTracked
              | apply logBuffer_kill | apply logBuffer_setEnvironment
              | reflexivity ] | ] ].

Lemma bounded_handle (e : Event) (s : State) :
  bounded s -> bounded (handle e s).
Proof.
  intros Hs. destruct e; simpl.
  - unfold startPC2.
    destruct (negb (fst (isInstalled s))); [repeat bounded_step |].
    destruct (trackedAlive s); repeat bounded_step.
  - unfold stopPC2.
    destruct (trackedAlive _); repeat bounded_step.
  - repeat bounded_step.
  - destruct (calls s !! c) as [[[] []] |]; try assumption.
    unfold onStopTimer.
    destruct (trackedAlive s); repeat bounded_step.
  - destruct (calls s !! c) as [[[] []] |]; try assumption.
    unfold onStopExec. repeat bounded_step.
  - destruct (children s !! p) as [ch |]; [| assumption].
    destruct (waiting ch); [| assumption].
    destruct (waitForServer health).
    + unfold onReady. repeat bounded_step.
    + unfold onWaitFailed.
      match goal with |- context [trackedAlive ?x] => destruct (trackedAlive x) end;
        repeat bounded_step.
  - destruct (children s !! p); [| assumption].
    unfold onStdout. apply (bounded_fold_emitLog (fun l => l)), Hs.
  - destruct (children s !! p); [| assumption].
    unfold onStderr. apply (bounded_fold_emitLog (fun l => "[stderr] " +:+ l)), Hs.
  - unfold onError. destruct (children s !! p); repeat bounded_step.
  - destruct (children s !! p) as [ch |]; [| assumption].
    destruct (exited ch); [assumption |].
    unfold onExit.
    destruct code as [n |]; [| destruct signal as [sg |]; [destruct (JS.truthy sg) |]];
      repeat bounded_step.
  - assumption.
  - assumption.
  - apply bounded_emitLog, Hs.
  - assumption.
  - assumption.
  - assumption.
Qed.

Lemma bounded_run (schedule : list Event) (s : State) :
  bounded s -> bounded (run schedule s).
Proof.
  revert s. induction schedule as [| e schedule IH]; intros s Hs; simpl.
  - exact Hs.
  - apply IH, bounded_handle, Hs.
Qed.


Lemma slice_zero {A} (l : list A) : JS.slice (- 0) l = l.
Proof. unfold JS.slice. simpl. rewrite Z.min_l by lia. reflexivity. Qed.

Lemma slice_all {A} (n : Z) (l : list A) :
  (Z.of_nat (length l) <= n)%Z -> JS.slice (- n) l = l.
Proof.
  intros Hn. unfold JS.slice.
  destruct (Z.ltb_spec (- n) 0) as [Hlt | Hge].
  - rewrite Z.max_r by lia. reflexivity.
  - assert (n = 0%Z) as -> by lia. simpl. rewrite Z.min_l by lia. reflexivity.
Qed.

Lemma slice_none {A} (n : Z) (l : list A) :
  (n <= - Z.of_nat (length l))%Z -> l <> [] -> JS.slice (- n) l = [].
Proof.
  intros Hn Hl. unfold JS.slice.
  assert (0 < length l) by (destruct l; [congruence | simpl; lia]).
  destruct (Z.ltb_spec (- n) 0) as [Hlt | Hge]; [lia |].
  rewrite Z.min_r by lia. rewrite Nat2Z.id. apply drop_all.
Qed.

End LogSink.

(** ** The primitive updates, seen through the accessors *)

Section Primitives.

Lemma insert_same_field {A} (f : Child -> A) (l : list Child) (p q : nat)
    (ch ch' : Child) :
  l !! p = Some ch -> f ch' = f ch ->
  f <$> <[p := ch']> l !! q = f <$> l !! q.
Proof.
  intros Hp Hf. destruct (decide (p = q)) as [-> | Hne].
  - rewrite list_lookup_insert_eq by (eapply lookup_lt_Some; eauto).
    rewrite Hp. simpl. congruence.
  - rewrite list_lookup_insert_ne by assumption. reflexivity.
Qed.

Lemma insert_new_field {A} (f : Child -> A) (l : list Child) (p : nat)
    (ch ch' : Child) :
  l !! p = Some ch -> f <$> <[p := ch']> l !! p = Some (f ch').
Proof.
  intros Hp. rewrite list_lookup_insert_eq by (eapply lookup_lt_Some; eauto).
  reflexivity.
Qed.

(** *** [kill] *)

Lemma kill_pc2Process p sig s : pc2Process (kill p sig s) = pc2Process s.
Proof.
  unfold kill. destruct (children s !! p) as [ch |]; [| reflexivity].
  destruct (exited ch); reflexivity.
Qed.

Lemma kill_calls p sig s : calls (kill p sig s) = calls s.
Proof.
  unfold kill. destruct (children s !! p) as [ch |]; [| reflexivity].
  destruct (exited ch); reflexivity.
Qed.

Lemma kill_statusLog p sig s : statusLog (kill p sig s) = statusLog s.
Proof.
  unfold kill. destruct (children s !! p) as [ch |]; [| reflexivity].
  destruct (exited ch); reflexivity.
Qed.

Lemma kill_length p sig s : length (children (kill p sig s)) = length (children s).
Proof.
  unfold kill. destruct (children s !! p) as [ch |]; [| reflexivity].
  destruct (exited ch); [reflexivity |]. simpl. apply length_insert.
Qed.

Lemma kill_field {A} (f : Child -> A) p sig s q :
  (forall ch, f (mkChild true (exited ch) (waiting ch) (caller ch)) = f ch) ->
  f <$> children (kill p sig s) !! q = f <$> children s !! q.
Proof.
  intros Hf. unfold kill. destruct (children s !! p) as [ch |] eqn:Hp; [| reflexivity].
  destruct (exited ch) eqn:He; [reflexivity |]. simpl.
  apply insert_same_field with (ch := ch); [exact Hp |].
  rewrite <- He. apply Hf.
Qed.

Lemma kill_exitedOf p sig s q : exitedOf (kill p sig s) q = exitedOf s q.
Proof. apply kill_field. reflexivity. Qed.

Lemma kill_waitingOf p sig s q : waitingOf (kill p sig s) q = waitingOf s q.
Proof. apply kill_field. reflexivity. Qed.

Lemma kill_callerOf p sig s q : callerOf (kill p sig s) q = callerOf s q.
Proof. apply kill_field. reflexivity. Qed.

(** A signal sent to a child whose handle is open sets its [killed] flag
    and is recorded. *)
Lemma kill_delivered p sig s :
  exitedOf s p = Some false ->
  killedOf (kill p sig s) p = Some true /\
  signals (kill p sig s) = signals s ++ [(p, sig)].
Proof.
  unfold exitedOf, killedOf, kill. intros He.
  destruct (children s !! p) as [ch |] eqn:Hp; [| discriminate].
  simpl in He. injection He as He. rewrite He. simpl. split; [| reflexivity].
  rewrite list_lookup_insert_eq by (eapply lookup_lt_Some; eauto). reflexivity.
Qed.

Lemma killTracked_pc2Process sig s :
  pc2Process (killTracked sig s) = pc2Process s.
Proof.
  unfold killTracked. destruct (pc2Process s) eqn:E; [| assumption].
  rewrite kill_pc2Process. assumption.
Qed.

Lemma killTracked_calls sig s : calls (killTracked sig s) = calls s.
Proof.
  unfold killTracked. destruct (pc2Process s); [apply kill_calls | reflexivity].
Qed.

Lemma killTracked_statusLog sig s : statusLog (killTracked sig s) = statusLog s.
Proof.
  unfold killTracked. destruct (pc2Process s); [apply kill_statusLog | reflexivity].
Qed.

Lemma killTracked_length sig s :
  length (children (killTracked sig s)) = length (children s).
Proof.
  unfold killTracked. destruct (pc2Process s); [apply kill_length | reflexivity].
Qed.

Lemma killTracked_exitedOf sig s q : exitedOf (killTracked sig s) q = exitedOf s q.
Proof.
  unfold killTracked. destruct (pc2Process s); [apply kill_exitedOf | reflexivity].
Qed.

Lemma killTracked_waitingOf sig s q : waitingOf (killTracked sig s) q = waitingOf s q.
Proof.
  unfold killTracked. destruct (pc2Process s); [apply kill_waitingOf | reflexivity].
Qed.

Lemma killTracked_callerOf sig s q : callerOf (killTracked sig s) q = callerOf s q.
Proof.
  unfold killTracked. destruct (pc2Process s); [apply kill_callerOf | reflexivity].
Qed.

(** *** [settle] *)

Lemma settle_pc2Process c o s : pc2Process (settle c o s) = pc2Process s.
Proof.
  unfold settle. destruct (calls s !! c) as [cl |]; [| reflexivity].
  destruct (outcome cl); reflexivity.
Qed.

Lemma settle_children c o s : children (settle c o s) = children s.
Proof.
  unfold settle. destruct (calls s !! c) as [cl |]; [| reflexivity].
  destruct (outcome cl); reflexivity.
Qed.

Lemma settle_statusLog c o s : statusLog (settle c o s) = statusLog s.
Proof.
  unfold settle. destruct (calls s !! c) as [cl |]; [| reflexivity].
  destruct (outcome cl); reflexivity.
Qed.

Lemma settle_signals c o s : signals (settle c o s) = signals s.
Proof.
  unfold settle. destruct (calls s !! c) as [cl |]; [| reflexivity].
  destruct (outcome cl); reflexivity.
Qed.

Lemma settle_contOf c o s c' : contOf (settle c o s) c' = contOf s c'.
Proof.
  unfold contOf, settle. destruct (calls s !! c) as [cl |] eqn:Hc; [| reflexivity].
  destruct (outcome cl); try reflexivity. simpl.
  destruct (decide (c = c')) as [-> | Hne].
  - rewrite list_lookup_insert_eq by (eapply lookup_lt_Some; eauto).
    rewrite Hc. reflexivity.
  - rewrite list_lookup_insert_ne by assumption. reflexivity.
Qed.

Lemma settle_hit c o s :
  call_outcome c s = Some Pending -> call_outcome c (settle c o s) = Some o.
Proof.
  unfold call_outcome, settle. intros H.
  destruct (calls s !! c) as [cl |] eqn:Hc; [| discriminate].
  simpl in H. injection H as H. rewrite H. simpl.
  rewrite list_lookup_insert_eq by (eapply lookup_lt_Some; eauto). reflexivity.
Qed.

Lemma settle_miss c o s c' :
  c <> c' -> call_outcome c' (settle c o s) = call_outcome c' s.
Proof.
  unfold call_outcome, settle. intros Hne.
  destruct (calls s !! c) as [cl |] eqn:Hc; [| reflexivity].
  destruct (outcome cl); try reflexivity. simpl.
  rewrite list_lookup_insert_ne by assumption. reflexivity.
Qed.

(** Settling never turns an outcome into anything but [o], and leaves
    settled promises alone. *)
Lemma settle_inv c o s c' x :
  call_outcome c' (settle c o s) = Some x ->
  call_outcome c' s = Some x \/ (c' = c /\ x = o /\ call_outcome c s = Some Pending).
Proof.
  intros H. destruct (decide (c = c')) as [<- | Hne].
  - unfold call_outcome, settle in *.
    destruct (calls s !! c) as [cl |] eqn:Hc; [| left; rewrite Hc in H; exact H].
    destruct (outcome cl) eqn:Ho.
    + right. simpl in H.
      rewrite list_lookup_insert_eq in H by (eapply lookup_lt_Some; eauto).
      simpl in H. injection H as <-. simpl. rewrite Ho. auto.
    + left. rewrite Hc in H. exact H.
    + left. rewrite Hc in H. exact H.
  - left. rewrite settle_miss in H by assumption. exact H.
Qed.

Lemma settle_kept c o s c' x :
  call_outcome c' s = Some x -> x <> Pending ->
  call_outcome c' (settle c o s) = Some x.
Proof.
  intros H Hx. destruct (decide (c = c')) as [<- | Hne].
  - unfold call_outcome, settle in *.
    destruct (calls s !! c) as [cl |] eqn:Hc; [| rewrite Hc; exact H].
    simpl in H. injection H as H.
    destruct (outcome cl) eqn:Ho; try congruence; rewrite Hc; simpl; congruence.
  - rewrite settle_miss by assumption. exact H.
Qed.

(** *** Appending a call *)

Lemma lookup_snoc_inv {A} (l : list A) (x y : A) (i : nat) :
  (l ++ [x]) !! i = Some y -> l !! i = Some y \/ (i = length l /\ y = x).
Proof.
  intros H. apply lookup_app_Some in H as [H | [Hge H]]; [auto |].
  right. destruct (i - length l) as [| k] eqn:E; simpl in H; [| discriminate].
  injection H as <-. split; [lia | reflexivity].
Qed.

Lemma lookup_snoc_old {A} (l : list A) (x y : A) (i : nat) :
  l !! i = Some y -> (l ++ [x]) !! i = Some y.
Proof. intros H. apply lookup_app_l_Some. exact H. Qed.

Lemma lookup_snoc_new {A} (l : list A) (x : A) :
  (l ++ [x]) !! length l = Some x.
Proof. rewrite lookup_app_r by lia. rewrite Nat.sub_diag. reflexivity. Qed.

End Primitives.

(** ** The invariant of the event machine *)

Section Invariant.

Lemma wf_init h files clock port : wf (init h files clock port).
Proof.
  constructor; unfold exitedOf, waitingOf, callerOf, isStopCall, contOf; simpl.
  - discriminate.
  - intros p c H. destruct p; discriminate.
  - discriminate.
  - intros c [H | H]; destruct c; discriminate.
Qed.

(** [wf] only looks at the tracked reference, the closures and the
    calls. *)
Lemma wf_same (s s' : State) :
  pc2Process s' = pc2Process s ->
  (forall q, exitedOf s' q = exitedOf s q) ->
  (forall q, waitingOf s' q = waitingOf s q) ->
  (forall q, callerOf s' q = callerOf s q) ->
  calls s' = calls s ->
  wf s -> wf s'.
Proof.
  intros HP HE HW HC HCa [Wt Wc Wp Ws].
  constructor; unfold isStopCall, contOf, call_outcome in *.
  - intros p. rewrite HP, HE. apply Wt.
  - intros p c. rewrite HC, HCa. apply Wc.
  - intros p c. rewrite HP, HW, HC, HCa. apply Wp.
  - intros c. rewrite HCa. apply Ws.
Qed.

Lemma wf_frame (s s' : State) :
  pc2Process s' = pc2Process s -> children s' = children s ->
  calls s' = calls s -> wf s -> wf s'.
Proof.
  intros HP HCh HCa. apply wf_same; auto;
    intros q; unfold exitedOf, waitingOf, callerOf; rewrite HCh; reflexivity.
Qed.

Lemma wf_untracked (s s' : State) :
  pc2Process s' = None ->
  (forall q, callerOf s' q = callerOf s q) ->
  calls s' = calls s ->
  wf s -> wf s'.
Proof.
  intros HP HC HCa [Wt Wc Wp Ws].
  constructor; unfold isStopCall, contOf, call_outcome in *.
  - intros p. rewrite HP. discriminate.
  - intros p c. rewrite HC, HCa. apply Wc.
  - intros p c. rewrite HP. discriminate.
  - intros c. rewrite HCa. apply Ws.
Qed.

Lemma wf_killTracked sig s : wf s -> wf (killTracked sig s).
Proof.
  apply wf_same.
  - apply killTracked_pc2Process.
  - apply killTracked_exitedOf.
  - apply killTracked_waitingOf.
  - apply killTracked_callerOf.
  - apply killTracked_calls.
Qed.

Lemma wf_settle_start c o p s :
  wf s -> contOf s c = Some (AwaitReady p) ->
  (pc2Process s = Some p -> waitingOf s p = Some true -> False) ->
  wf (settle c o s).
Proof.
  intros [Wt Wc Wp Ws] Hc Hfree.
  constructor; unfold isStopCall, exitedOf, waitingOf, callerOf in *;
    try setoid_rewrite settle_contOf;
    rewrite ?settle_pc2Process, ?settle_children.
  - apply Wt.
  - apply Wc.
  - intros q c0 HP HW HC.
    destruct (decide (c = c0)) as [<- | Hne].
    + pose proof (Wc _ _ HC) as Hc'. rewrite Hc in Hc'.
      injection Hc' as ->. exfalso. apply Hfree; assumption.
    + rewrite settle_miss by assumption. eapply Wp; eauto.
  - intros c' Hstop.
    destruct (decide (c = c')) as [<- | Hne].
    + rewrite Hc in Hstop. destruct Hstop; discriminate.
    + rewrite settle_miss by assumption. apply Ws, Hstop.
Qed.

Lemma wf_settle_stop c s :
  wf s -> isStopCall s c -> wf (settle c Resolved s).
Proof.
  intros [Wt Wc Wp Ws] Hc.
  constructor; unfold isStopCall, exitedOf, waitingOf, callerOf in *;
    try setoid_rewrite settle_contOf;
    rewrite ?settle_pc2Process, ?settle_children.
  - apply Wt.
  - apply Wc.
  - intros q c0 HP HW HC.
    destruct (decide (c = c0)) as [<- | Hne].
    + pose proof (Wc _ _ HC) as Hc'. rewrite Hc' in Hc.
      destruct Hc; discriminate.
    + rewrite settle_miss by assumption. eapply Wp; eauto.
  - intros c' Hstop.
    destruct (decide (c = c')) as [<- | Hne].
    + right. destruct (Ws _ Hstop) as [H | H].
      * apply settle_hit, H.
      * apply settle_kept; [exact H | discriminate].
    + rewrite settle_miss by assumption. apply Ws, Hstop.
Qed.

(** A promise that is not a start promise joins the calls. *)
Lemma wf_append (cl : Call) (s s' : State) :
  pc2Process s' = pc2Process s -> children s' = children s ->
  calls s' = calls s ++ [cl] ->
  (forall p, cont cl <> AwaitReady p) ->
  outcome cl = Pending \/ outcome cl = Resolved ->
  wf s -> wf s'.
Proof.
  intros HP HCh HCa Hk Ho [Wt Wc Wp Ws].
  constructor; unfold isStopCall, contOf, call_outcome, exitedOf, waitingOf,
    callerOf in *; rewrite ?HP, ?HCh, ?HCa.
  - apply Wt.
  - intros p c HC. specialize (Wc _ _ HC).
    destruct (calls s !! c) as [cl0 |] eqn:E; [| discriminate].
    rewrite (lookup_snoc_old _ _ _ _ E). exact Wc.
  - intros p c HPp HW HC. specialize (Wp _ _ HPp HW HC).
    destruct (calls s !! c) as [cl0 |] eqn:E; [| discriminate].
    rewrite (lookup_snoc_old _ _ _ _ E). exact Wp.
  - intros c Hstop.
    destruct ((calls s ++ [cl]) !! c) as [cl0 |] eqn:E;
      [| destruct Hstop; discriminate].
    destruct (lookup_snoc_inv _ _ _ _ E) as [Hold | [-> ->]].
    + specialize (Ws c). rewrite Hold in Ws. apply Ws, Hstop.
    + simpl. destruct Ho as [-> | ->]; auto.
Qed.

Lemma wf_spawn s : wf s -> wf (spawn s).
Proof.
  intros [Wt Wc Wp Ws].
  constructor; unfold isStopCall, contOf, call_outcome, exitedOf, waitingOf,
    callerOf, spawn in *; simpl.
  - intros p [= <-]. rewrite lookup_snoc_new. reflexivity.
  - intros p c HC.
    destruct ((children s ++ [_]) !! p) as [ch |] eqn:E; [| discriminate].
    simpl in HC. injection HC as <-.
    destruct (lookup_snoc_inv _ _ _ _ E) as [Hold | [-> ->]].
    + specialize (Wc p (caller ch)). rewrite Hold in Wc. specialize (Wc eq_refl).
      destruct (calls s !! caller ch) as [cl0 |] eqn:E'; [| discriminate].
      rewrite (lookup_snoc_old _ _ _ _ E'). exact Wc.
    + simpl. rewrite lookup_snoc_new. reflexivity.
  - intros p c [= <-] _. rewrite lookup_snoc_new. simpl. intros [= <-].
    rewrite lookup_snoc_new. reflexivity.
  - intros c Hstop.
    destruct ((calls s ++ [_]) !! c) as [cl0 |] eqn:E;
      [| destruct Hstop; discriminate].
    destruct (lookup_snoc_inv _ _ _ _ E) as [Hold | [-> ->]].
    + specialize (Ws c). rewrite Hold in Ws. apply Ws, Hstop.
    + simpl in Hstop. destruct Hstop; discriminate.
Qed.

(** [waitForServer] of spawn [p] is over. *)
Lemma wf_stop_waiting p ch s :
  children s !! p = Some ch -> wf s ->
  wf (set_children
        (<[p := mkChild (killed ch) (exited ch) false (caller ch)]> (children s)) s).
Proof.
  intros Hp [Wt Wc Wp Ws].
  constructor; unfold isStopCall, contOf, call_outcome, exitedOf, waitingOf,
    callerOf in *; simpl.
  - intros q HP. rewrite (insert_same_field exited _ _ _ ch) by auto. apply Wt, HP.
  - intros q c. rewrite (insert_same_field caller _ _ _ ch) by auto. apply Wc.
  - intros q c HP HW.
    rewrite (insert_same_field caller _ _ _ ch) by auto.
    destruct (decide (p = q)) as [<- | Hne].
    + rewrite (insert_new_field waiting _ _ ch) in HW by auto. discriminate.
    + rewrite list_lookup_insert_ne in HW by assumption. apply Wp; assumption.
  - apply Ws.
Qed.

Lemma waiting_cleared p ch s :
  children s !! p = Some ch ->
  waitingOf (set_children
               (<[p := mkChild (killed ch) (exited ch) false (caller ch)]>
                  (children s)) s) p = Some false.
Proof.
  intros Hp. unfold waitingOf. simpl.
  rewrite (insert_new_field waiting _ _ ch) by auto. reflexivity.
Qed.

End Invariant.

Section Reachable.

Lemma setEnvironment_core env d s :
  pc2Process (setEnvironment env d s) = pc2Process s /\
  children (setEnvironment env d s) = children s /\
  calls (setEnvironment env d s) = calls s /\
  statusLog (setEnvironment env d s) = statusLog s /\
  signals (setEnvironment env d s) = signals s /\
  execLog (setEnvironment env d s) = execLog s /\
  fs (setEnvironment env d s) = fs s.
Proof.
  unfold setEnvironment. destruct env, d as [d |]; try (repeat split; reflexivity).
  destruct (JS.truthy d); repeat split; reflexivity.
Qed.

Lemma fold_emitLog_core (f : string -> string) (lines : list string) (s : State) :
  let s' := fold_left (fun s line => emitLog (f line) s) lines s in
  pc2Process s' = pc2Process s /\ children s' = children s /\
  calls s' = calls s /\ statusLog s' = statusLog s /\ signals s' = signals s.
Proof.
  revert s. induction lines as [| l lines IH]; intros s; simpl.
  - repeat split; reflexivity.
  - destruct (IH (emitLog (f l) s)) as (H1 & H2 & H3 & H4 & H5).
    repeat split; assumption.
Qed.

Lemma onExit_core code signal s :
  pc2Process (onExit code signal s) = None /\
  children (onExit code signal s) = children s /\
  calls (onExit code signal s) = calls s /\
  statusLog (onExit code signal s) = statusLog s ++ [stopped] /\
  signals (onExit code signal s) = signals s.
Proof.
  unfold onExit.
  destruct code as [n |]; [| destruct signal as [sg |]; [destruct (JS.truthy sg) |]];
    repeat split; reflexivity.
Qed.

Lemma wf_handle (e : Event) (s : State) : wf s -> wf (handle e s).
Proof.
  intros W. destruct e; simpl.
  - (* startPC2 *)
    unfold startPC2. destruct (negb (fst (isInstalled s))).
    + apply (wf_append (mkCall NoCont Resolved) s); auto; discriminate.
    + destruct (trackedAlive s).
      * apply (wf_append (mkCall NoCont Resolved) s); auto; discriminate.
      * apply (wf_frame (spawn s)); [reflexivity .. |]. apply wf_spawn, W.
  - (* stopPC2 *)
    unfold stopPC2.
    destruct (trackedAlive _).
    + match goal with |- wf (set_calls _ ?k) =>
        apply (wf_append (mkCall AwaitTimer Pending) k); auto; try discriminate
      end.
      apply wf_killTracked. apply (wf_frame s); auto.
    + apply (wf_append (mkCall AwaitExec Pending) s); auto; discriminate.
  - (* setEnvironment *)
    destruct (setEnvironment_core env customDir s) as (H1 & H2 & H3 & _).
    apply (wf_frame s); assumption.
  - (* the grace timer *)
    destruct (calls s !! c) as [[[] []] |] eqn:E; try exact W.
    unfold onStopTimer.
    set (x := if trackedAlive s
              then killTracked SIGKILL (emitLog "Force killing PC2..." s) else s).
    assert (calls x = calls s) as Hcalls.
    { subst x. destruct (trackedAlive s); [| reflexivity].
      rewrite killTracked_calls. reflexivity. }
    assert (forall q, callerOf x q = callerOf s q) as Hcaller.
    { intros q. subst x. destruct (trackedAlive s); [| reflexivity].
      rewrite killTracked_callerOf. reflexivity. }
    apply wf_settle_stop.
    + apply (wf_untracked s); auto.
    + left. unfold contOf. simpl. rewrite Hcalls, E. reflexivity.
  - (* the port-kill callback *)
    destruct (calls s !! c) as [[[] []] |] eqn:E; try exact W.
    unfold onStopExec. apply wf_settle_stop.
    + apply (wf_frame s); auto.
    + right. unfold contOf. simpl. rewrite E. reflexivity.
  - (* waitForServer settles *)
    destruct (children s !! p) as [ch |] eqn:E; [| exact W].
    destruct (waiting ch) eqn:Ew; [| exact W].
    pose proof (wf_stop_waiting p ch s E W) as W1.
    pose proof (waiting_cleared p ch s E) as Hw.
    assert (contOf s (caller ch) = Some (AwaitReady p)) as Hc.
    { apply (wf_caller s W). unfold callerOf. rewrite E. reflexivity. }
    set (s1 := set_children _ s) in *.
    destruct (waitForServer health) as [| message].
    + unfold onReady. apply (wf_settle_start _ _ p).
      * apply (wf_frame s1); auto.
      * exact Hc.
      * intros _ Hw'. change (waitingOf s1 p = Some true) in Hw'. congruence.
    + unfold onWaitFailed.
      set (s2 := emitLog _ (emitStatus error s1)).
      assert (wf s2) as W2 by (apply (wf_frame s1); auto).
      apply (wf_settle_start _ _ p).
      * destruct (trackedAlive s2); [| exact W2].
        apply (wf_untracked (killTracked SIGTERM s2)); auto.
        apply wf_killTracked, W2.
      * unfold contOf in *.
        destruct (trackedAlive s2); simpl; rewrite ?killTracked_calls; exact Hc.
      * intros _ Hw'.
        destruct (trackedAlive s2).
        -- change (waitingOf (killTracked SIGTERM s2) p = Some true) in Hw'.
           rewrite killTracked_waitingOf in Hw'.
           change (waitingOf s1 p = Some true) in Hw'. congruence.
        -- change (waitingOf s1 p = Some true) in Hw'. congruence.
  - (* stdout *)
    destruct (children s !! p); [| exact W].
    destruct (fold_emitLog_core (fun l => l) (List.filter JS.trim_truthy (JS.split JS.LF data)) s)
      as (H1 & H2 & H3 & _).
    apply (wf_frame s); assumption.
  - (* stderr *)
    destruct (children s !! p); [| exact W].
    destruct (fold_emitLog_core (fun l => "[stderr] " +:+ l)
                (List.filter JS.trim_truthy (JS.split JS.LF data)) s)
      as (H1 & H2 & H3 & _).
    apply (wf_frame s); assumption.
  - (* error event *)
    unfold onError. destruct (children s !! p) as [ch |] eqn:E; [| exact W].
    apply (wf_settle_start _ _ p).
    + apply (wf_untracked s); auto.
    + apply (wf_caller s W). unfold callerOf. rewrite E. reflexivity.
    + simpl. discriminate.
  - (* exit event *)
    destruct (children s !! p) as [ch |] eqn:E; [| exact W].
    destruct (exited ch); [exact W |].
    match goal with |- wf (onExit _ _ ?x) =>
      destruct (onExit_core code signal x) as (H1 & H2 & H3 & _)
    end.
    apply (wf_untracked s); [exact H1 | | exact H3 | exact W].
    intros q. unfold callerOf. rewrite H2. simpl.
    apply insert_same_field with (ch := ch); auto.
  - apply (wf_frame s); auto.
  - apply (wf_frame s); auto.
  - apply (wf_frame s); auto.
  - apply (wf_frame s); auto.
  - apply (wf_frame s); auto.
  - apply (wf_frame s); auto.
Qed.

Lemma wf_run (schedule : list Event) (s : State) : wf s -> wf (run schedule s).
Proof.
  revert s. induction schedule as [| e schedule IH]; intros s W; simpl.
  - exact W.
  - apply IH, wf_handle, W.
Qed.

Lemma wf_reachable schedule h files clock port :
  wf (run schedule (init h files clock port)).
Proof. apply wf_run, wf_init. Qed.

End Reachable.

(** ** The operations with awaits are schedules of the machine *)

Section Schedules.

Lemma run_app (a b : list Event) (s : State) : run (a ++ b) s = run b (run a s).
Proof. apply fold_left_app. Qed.

Lemma run_snoc (a : list Event) (e : Event) (s : State) :
  run (a ++ [e]) s = handle e (run a s).
Proof. rewrite run_app. reflexivity. Qed.

Lemma await_stopPC2_schedule (during : list Event) (s : State) :
  await_stopPC2 during s
  = run (CallStopPC2 :: during
           ++ [completion (length (calls s)) (handle CallStopPC2 s)]) s.
Proof.
  unfold await_stopPC2. cbn [run fold_left].
  fold (run (during ++ [completion (length (calls s)) (handle CallStopPC2 s)])
          (handle CallStopPC2 s)).
  rewrite run_snoc. reflexivity.
Qed.

Lemma uninstallPC2_schedule (probe : ProbeOutcome) (during : list Event) (s : State) :
  exists schedule, fst (uninstallPC2 probe during s) = run schedule s.
Proof.
  unfold uninstallPC2. cbv zeta.
  destruct (negb (JS.includes (getPC2Dir s) ".pc2")
            && negb (JS.includes (getPC2Dir s) "pc2.net")).
  - exists []. reflexivity.
  - set (x := match fst (getStatus probe s) with
              | running => await_stopPC2 during s
              | _ => s
              end).
    assert (exists sch, x = run sch s) as [sch Hx].
    { subst x. destruct (fst (getStatus probe s)); try (exists []; reflexivity).
      eexists. apply await_stopPC2_schedule. }
    set (m := "Uninstalling PC2 from " +:+ getPC2Dir s +:+ "...").
    destruct (Fs.existsSync (getPC2Dir s) (fs (emitLog m x))) eqn:E; cbn [fst].
    + exists (sch ++ [Logged m; FsChanged (Fs.rmSync (getPC2Dir s) (fs x));
                      Logged "PC2 uninstalled successfully";
                      StatusEmitted not_installed]).
      rewrite run_app, <- Hx. reflexivity.
    + exists (sch ++ [Logged m; StatusEmitted not_installed]).
      rewrite run_app, <- Hx. reflexivity.
Qed.

Lemma reports_schedule (g : Z -> string) (percents : list Z) (s : State) :
  fold_left (fun s percent => onProgress (g percent) s) percents s
  = run (map (fun percent => ProgressReported (g percent)) percents) s.
Proof.
  revert s. induction percents as [| z rest IH]; intros s; [reflexivity |].
  cbn [fold_left map run]. rewrite IH. reflexivity.
Qed.

Lemma downloadFile_schedule (x : Exchange) (dest : string) (g : Z -> string)
    (s : State) :
  exists schedule,
    fst (downloadFile x dest (fun percent => onProgress (g percent)) s)
    = run schedule s.
Proof.
  revert s. induction x as [next IH | percents | message]; intros s;
    cbn [downloadFile].
  - set (a := set_fs (Fs.createWriteStream dest (fs s)) s).
    destruct (IH (set_fs (Fs.unlinkSync dest (fs a)) a)) as [sch ->].
    exists ([FsChanged (Fs.createWriteStream dest (fs s));
             FsChanged (Fs.unlinkSync dest (fs a))] ++ sch).
    rewrite run_app. reflexivity.
  - cbn [fst]. rewrite reports_schedule.
    exists ([FsChanged (Fs.createWriteStream dest (fs s))]
            ++ map (fun percent => ProgressReported (g percent)) percents).
    rewrite run_app. reflexivity.
  - set (a := set_fs (Fs.createWriteStream dest (fs s)) s).
    exists [FsChanged (Fs.createWriteStream dest (fs s));
            FsChanged (Fs.unlinkSync dest (fs a))].
    reflexivity.
Qed.

Lemma downloadBundledNode_schedule (t : Tools) (s : State) :
  exists schedule, fst (downloadBundledNode t s) = run schedule s.
Proof.
  unfold downloadBundledNode. cbv zeta.
  destruct (NODE_URLS _) as [url |]; [| exists []; reflexivity].
  set (a := onProgress _ _).
  assert (exists sch, a = run sch s) as [scha Ha].
  { subst a. destruct (Fs.existsSync (BUNDLED_NODE_DIR (host s)) (fs s)).
    - eexists [ProgressReported _]. reflexivity.
    - eexists [FsChanged _; ProgressReported _]. reflexivity. }
  match goal with
  | |- context [downloadFile ?x ?d (fun percent => onProgress (@?g percent)) a] =>
      destruct (downloadFile_schedule x d g a) as [schd Hd];
      destruct (downloadFile x d (fun percent => onProgress (g percent)) a)
        as [b [message |]]
  end; cbn [fst] in Hd.
  - exists (scha ++ schd). rewrite run_app, <- Ha, <- Hd. reflexivity.
  - set (c := set_fs _ _).
    assert (exists sch, c = run sch b) as [schc Hc].
    { subst c. eexists [ProgressReported _; Executed _; FsChanged _].
      reflexivity. }
    destruct (failure _) as [message |]; cbn [fst].
    + exists (scha ++ schd ++ schc).
      rewrite !run_app, <- Ha, <- Hd, <- Hc. reflexivity.
    + exists (scha ++ schd ++ schc ++ [FsChanged (Fs.unlinkSync
                (archivePath (host s)
                   (if JS.endsWith ".zip" url then ".zip" else ".tar.gz")) (fs c))]).
      rewrite !run_app, <- Ha, <- Hd, <- Hc. reflexivity.
Qed.

Lemma ensureBundledNode_schedule (t : Tools) (s : State) :
  exists schedule, ensureBundledNode t s = run schedule s.
Proof.
  unfold ensureBundledNode. destruct (hasBundledNode s); [exists []; reflexivity |].
  cbv zeta.
  set (a := emitLog _ _).
  assert (a = run [ProgressReported ("Downloading Node.js " +:+ NODE_VERSION +:+ " LTS...");
                   Logged ("Downloading bundled Node.js " +:+ NODE_VERSION
                             +:+ " LTS for compatibility...")] s) as Ha
    by reflexivity.
  destruct (downloadBundledNode_schedule t a) as [sch Hd].
  destruct (downloadBundledNode t a) as [b [message |]]; cbn [fst] in Hd.
  - exists ([ProgressReported ("Downloading Node.js " +:+ NODE_VERSION +:+ " LTS...");
             Logged ("Downloading bundled Node.js " +:+ NODE_VERSION
                       +:+ " LTS for compatibility...")]
            ++ sch
            ++ [Logged ("Warning: Could not download bundled Node.js: " +:+ message);
                Logged "Will try to use system Node.js..."]).
    rewrite !run_app, <- Ha, <- Hd. reflexivity.
  - exists ([ProgressReported ("Downloading Node.js " +:+ NODE_VERSION +:+ " LTS...");
             Logged ("Downloading bundled Node.js " +:+ NODE_VERSION
                       +:+ " LTS for compatibility...")]
            ++ sch ++ [Logged ("Node.js " +:+ NODE_VERSION +:+ " ready")]).
    rewrite !run_app, <- Ha, <- Hd. reflexivity.
Qed.

Lemma backupForeignDir_schedule (t : Tools) (d : string) (s : State) :
  exists schedule, backupForeignDir t d s = run schedule s.
Proof.
  unfold backupForeignDir.
  destruct (Fs.existsSync d (fs s) && negb _); [| exists []; reflexivity].
  exists [Logged ("Backing up existing " +:+ d +:+ " to "
                    +:+ (d +:+ "_backup_" +:+ pretty (dateNow t)));
          FsChanged (Fs.renameSync d (d +:+ "_backup_" +:+ pretty (dateNow t)) (fs s))].
  reflexivity.
Qed.

Lemma runSteps_schedule (t : Tools) (todo : list Step) (s : State) :
  exists schedule, fst (runSteps t todo s) = run schedule s.
Proof.
  revert s. induction todo as [| step rest IH]; intros s.
  - exists []. reflexivity.
  - cbn [runSteps].
    set (x := set_fs _ _).
    assert (x = run [ProgressReported (msg step); Logged (msg step);
                     Executed (cmd step);
                     FsChanged (after (sh t (cmd step)) (fs s))] s) as Hx
      by reflexivity.
    destruct (failure (sh t (cmd step))) as [message |]; cbn [fst].
    + exists ([ProgressReported (msg step); Logged (msg step); Executed (cmd step);
               FsChanged (after (sh t (cmd step)) (fs s))]
              ++ [Logged ("Error: " +:+ message)]).
      rewrite run_snoc, <- Hx. reflexivity.
    + destruct (IH x) as [sch Hsch].
      exists ([ProgressReported (msg step); Logged (msg step); Executed (cmd step);
               FsChanged (after (sh t (cmd step)) (fs s))] ++ sch).
      rewrite run_app, <- Hx. exact Hsch.
Qed.

Lemma installFromSource_schedule (t : Tools) (pc2Dir nodeDir : string) (s : State) :
  exists schedule, fst (installFromSource t pc2Dir nodeDir s) = run schedule s.
Proof.
  unfold installFromSource. destruct (negb (isGitAvailable t)).
  - exists [Logged (gitMessage (host s))]. reflexivity.
  - cbv zeta.
    destruct (ensureBundledNode_schedule t s) as [sch1 H1].
    set (n := ensureBundledNode t s) in *.
    set (a := onProgress "Preparing installation..." _).
    set (scha := sch1 ++ [Logged ("Using Node.js: " +:+ findNodePath n);
                          Logged ("Using npm: " +:+ findNpmPath n);
                          ProgressReported "Preparing installation..."]).
    assert (a = run scha s) as Ha.
    { subst scha. rewrite run_app, <- H1. reflexivity. }
    destruct (backupForeignDir_schedule t pc2Dir a) as [sch2 H2].
    set (b := onProgress "Cloning repository..." _).
    set (schb := sch2 ++ [ProgressReported "Cloning repository..."]).
    assert (b = run schb a) as Hb.
    { subst schb. rewrite run_snoc, <- H2. reflexivity. }
    destruct (runSteps_schedule t
                (steps pc2Dir nodeDir
                   (findNpmPath (emitLog ("Using Node.js: " +:+ findNodePath n) n))) b)
      as [sch3 H3].
    destruct (runSteps t _ b) as [s' [| | e]]; cbn [fst] in *.
    + exists (scha ++ schb ++ sch3).
      rewrite !run_app, <- Ha, <- Hb, <- H3. reflexivity.
    + exists (scha ++ schb ++ sch3
              ++ [Logged "Installation complete!";
                  ProgressReported "Installation complete!"]).
      rewrite !run_app, <- Ha, <- Hb, <- H3. reflexivity.
    + exists (scha ++ schb ++ sch3).
      rewrite !run_app, <- Ha, <- Hb, <- H3. reflexivity.
Qed.

(** The selector of the renderer is a schedule as well. *)
Lemma envSelect_change_schedule currentStatus env during probe1 probe2 (s : State) :
  exists schedule,
    fst (Renderer.envSelect_change currentStatus env during probe1 probe2 s)
    = run schedule s.
Proof.
  unfold Renderer.envSelect_change, Main.setEnvironmentHandler.
  destruct currentStatus;
    try (exists [CallSetEnvironment env None]; reflexivity).
  exists ((CallStopPC2 :: during
             ++ [completion (length (calls s)) (handle CallStopPC2 s)])
          ++ [CallSetEnvironment env None]).
  rewrite run_snoc, <- await_stopPC2_schedule. reflexivity.
Qed.

(** Hence these operations keep the invariant and the bound of the log
    buffer. *)
Lemma operations_keep_invariants (s : State) :
  wf s -> bounded s ->
  (forall probe during,
      wf (fst (uninstallPC2 probe during s))
      /\ bounded (fst (uninstallPC2 probe during s))) /\
  (forall t pc2Dir nodeDir,
      wf (fst (installFromSource t pc2Dir nodeDir s))
      /\ bounded (fst (installFromSource t pc2Dir nodeDir s))).
Proof.
  intros W B. split.
  - intros probe during.
    destruct (uninstallPC2_schedule probe during s) as [sch ->].
    split; [apply wf_run, W | apply bounded_run, B].
  - intros t pc2Dir nodeDir.
    destruct (installFromSource_schedule t pc2Dir nodeDir s) as [sch ->].
    split; [apply wf_run, W | apply bounded_run, B].
Qed.

End Schedules.

(** ** The log sink *)

Section LogSinkClaims.



(** C10, as the code has it.  [getLogs(0)] returns the whole buffer joined
    with line feeds, and so does [getLogs(n)] for every [n] at least the
    length of the buffer.  For [n <= -length] and a buffer that is not
    empty the result is the empty string: [slice(-n)] then starts at or
    past the end. *)
Theorem C10_getLogs_edge_cases (s : State) :
  getLogs 0 s = JS.join JS.newline (logBuffer s) /\
  (forall n, (Z.of_nat (length (logBuffer s)) <= n)%Z ->
             getLogs n s = JS.join JS.newline (logBuffer s)) /\
  (forall n, (n <= - Z.of_nat (length (logBuffer s)))%Z -> logBuffer s <> [] ->
             getLogs n s = "").
Proof.
  unfold getLogs. split; [| split].
  - rewrite slice_zero. reflexivity.
  - intros n Hn. rewrite slice_all by exact Hn. reflexivity.
  - intros n Hn Hne. rewrite slice_none by assumption. reflexivity.
Qed.

Lemma C10_witness :
  let s := run [CallStopPC2] Sample.fresh in
  ((Z.of_nat (length (logBuffer s)) <= 7)%Z /\
   (-1 <= - Z.of_nat (length (logBuffer s)))%Z /\ logBuffer s <> []) /\
  (getLogs 0 s = "[10:00:00] Stopping PC2..." /\
   getLogs 7 s = "[10:00:00] Stopping PC2..." /\
   getLogs (-1) s = "").
Proof.
  intros s.
  assert (Z.of_nat (length (logBuffer s)) <= 7)%Z as H1 by (vm_compute; discriminate).
  assert (-1 <= - Z.of_nat (length (logBuffer s)))%Z as H2 by (vm_compute; discriminate).
  assert (logBuffer s <> []) as H3 by (vm_compute; discriminate).
  split; [auto |].
  destruct (C10_getLogs_edge_cases s) as (A & B & C).
  split; [| split].
  - rewrite A. reflexivity.
  - rewrite (B 7%Z H1). reflexivity.
  - exact (C (-1)%Z H2 H3).
Defined.

(** C10 as stated fails: with one line in the buffer, [getLogs(-1)] has
    [n <= -length] and returns the empty string, not the buffer. *)
Lemma C10_counterexample :
  let s := run [CallStopPC2] Sample.fresh in
  (-1 <= - Z.of_nat (length (logBuffer s)))%Z /\
  getLogs (-1) s <> JS.join JS.newline (logBuffer s).
Proof.
  intros s. split.
  - vm_compute. discriminate.
  - vm_compute. discriminate.
Qed.

End LogSinkClaims.

(** ** Status query and uninstall guard *)

Section StatusClaims.

Lemma isInstalled_marker (s : State) :
  (Fs.existsSync (markerPath s) (fs s) = true ->
   Fs.existsSync (getPC2NodeDir s) (fs s) = true) ->
  fst (isInstalled s) = Fs.existsSync (markerPath s) (fs s).
Proof.
  intros Hdir. unfold isInstalled.
  destruct (Fs.existsSync (getPC2NodeDir s) (fs s)) eqn:Hnode; simpl.
  - reflexivity.
  - destruct (Fs.existsSync (markerPath s) (fs s)); [| reflexivity].
    specialize (Hdir eq_refl). discriminate.
Qed.

Lemma isInstalled_only_stats (s : State) (a : Access) :
  In a (snd (isInstalled s)) -> exists path, a = Stat path.
Proof.
  unfold isInstalled.
  destruct (Fs.existsSync (getPC2NodeDir s) (fs s)); simpl;
    intros H; repeat (destruct H as [<- | H]; [eexists; reflexivity |]);
    contradiction.
Qed.

(** The probe succeeds exactly when a response arrives before the 2 s
    abort and its status is 2xx. *)
Lemma healthProbe_ok (probe : ProbeOutcome) :
  fst (healthProbe probe) = true <->
  (Z.of_N (latency probe) < 2000)%Z /\
  exists st, result probe = Response st /\ (200 <= st <= 299)%Z.
Proof.
  unfold healthProbe, response_ok.
  destruct (Z.ltb_spec (Z.of_N (latency probe)) 2000) as [Hlt | Hge]; simpl.
  - destruct (result probe) as [st |]; split.
    + intros H. apply andb_true_iff in H as [H1%Z.leb_le H2%Z.leb_le]. eauto.
    + intros [_ (st' & [= <-] & H1 & H2)].
      apply andb_true_iff. split; apply Z.leb_le; assumption.
    + discriminate.
    + intros [_ (st' & ? & _)]. discriminate.
  - split; [discriminate | lia].
Qed.

(** C3.  On a file system where the marker file cannot exist without its
    directory, [getStatus()] is this decision procedure.  The marker is the
    file [dist/index.js] below the service directory of the current
    environment.  Marker absent gives 'not-installed' after existence
    checks only (of the service directory, and of the marker when the
    directory exists).  Otherwise there is one GET of
    [http://localhost:4200/health] bounded by 2000 ms, and a 2xx answer in
    time gives 'running'; otherwise the tracked process is read, and a
    tracked child whose [killed] flag is not set gives 'starting';
    otherwise 'stopped'.  Being a total function it returns one of these
    four values whatever the probe does. *)
Theorem C3_getStatus_decision (probe : ProbeOutcome) (s : State) :
  (Fs.existsSync (markerPath s) (fs s) = true ->
   Fs.existsSync (getPC2NodeDir s) (fs s) = true) ->
  let serviceRoot := getPC2NodeDir s in
  let markerFile := markerPath s in
  let marker := Fs.existsSync markerFile (fs s) in
  let ok := fst (healthProbe probe) in
  fst (getStatus probe s) =
    (if negb marker then not_installed
     else if ok then running
     else if trackedAlive s then starting
     else stopped) /\
  snd (getStatus probe s) =
    (if Fs.existsSync serviceRoot (fs s)
     then [Stat serviceRoot; Stat markerFile] else [Stat serviceRoot])
    ++ (if negb marker then []
        else HttpGet "http://localhost:4200/health" 2000
             :: (if ok then [] else [ReadProcess])) /\
  (IS_WINDOWS (host s) = false -> Path.canonical serviceRoot = true ->
   markerFile = serviceRoot +:+ "/dist/index.js") /\
  (marker = true <-> In markerFile (fs s)) /\
  (ok = true <->
   (Z.of_N (latency probe) < 2000)%Z /\
   exists st, result probe = Response st /\ (200 <= st <= 299)%Z) /\
  (trackedAlive s = true <->
   exists p ch,
     pc2Process s = Some p /\ children s !! p = Some ch /\ killed ch = false).
Proof.
  intros Hdir serviceRoot markerFile marker ok.
  pose proof (isInstalled_marker s Hdir) as Hinst.
  fold markerFile in Hinst. fold marker in Hinst.
  split; [| split; [| split; [| split; [| split]]]].
  - unfold getStatus. destruct (isInstalled s) as [installed checks].
    simpl in Hinst. subst installed.
    destruct (negb marker); [reflexivity |]. fold ok.
    destruct ok; [reflexivity |].
    destruct (trackedAlive s); reflexivity.
  - subst ok marker markerFile serviceRoot.
    unfold getStatus, isInstalled in *.
    destruct (Fs.existsSync (getPC2NodeDir s) (fs s)); cbn [fst snd] in *.
    + destruct (Fs.existsSync (markerPath s) (fs s)); cbn [negb]; [| reflexivity].
      destruct (fst (healthProbe probe)); [reflexivity |].
      destruct (trackedAlive s); reflexivity.
    + rewrite <- Hinst. reflexivity.
  - intros _ Hc. subst markerFile. unfold markerPath. fold serviceRoot.
    destruct serviceRoot as [| a d]; [discriminate Hc |].
    assert (Path.join [String a d; "dist"; "index.js"]
            = String a (d +:+ "/" +:+ "dist" +:+ "/" +:+ "index.js")) as ->
      by reflexivity.
    reflexivity.
  - subst marker. unfold Fs.existsSync. rewrite existsb_exists. split.
    + intros (x & Hx & He). apply String.eqb_eq in He. subst x. exact Hx.
    + intros H. exists markerFile. split; [exact H | apply String.eqb_refl].
  - apply healthProbe_ok.
  - unfold trackedAlive. destruct (pc2Process s) as [p |].
    + destruct (children s !! p) as [ch |] eqn:E.
      * split.
        -- intros H. apply negb_true_iff in H. eauto.
        -- intros (p' & ch' & [= <-] & Hch & Hk).
           rewrite E in Hch. injection Hch as <-. rewrite Hk. reflexivity.
      * split; [discriminate |].
        intros (p' & ch' & [= <-] & Hch & _). rewrite E in Hch. discriminate.
    + split; [discriminate |]. intros (p' & ch' & H & _). discriminate.
Qed.

(** The service is installed and starting, and does not answer yet. *)
Lemma C3_witness :
  let s := run [CallStartPC2] Sample.fresh in
  (Fs.existsSync (markerPath s) (fs s) = true ->
   Fs.existsSync (getPC2NodeDir s) (fs s) = true) /\
  fst (getStatus (Sample.down 0%Z) s) = starting /\
  snd (getStatus (Sample.down 0%Z) s)
  = [Stat "/home/ada/.pc2/pc2-node";
     Stat "/home/ada/.pc2/pc2-node/dist/index.js";
     HttpGet "http://localhost:4200/health" 2000; ReadProcess] /\
  markerPath s = "/home/ada/.pc2/pc2-node/dist/index.js".
Proof.
  intros s.
  assert (Fs.existsSync (markerPath s) (fs s) = true ->
          Fs.existsSync (getPC2NodeDir s) (fs s) = true) as H
    by (intros _; reflexivity).
  split; [exact H |].
  destruct (C3_getStatus_decision (Sample.down 0%Z) s H)
    as (E & A & M & _).
  split; [rewrite E; reflexivity |].
  split; [rewrite A; reflexivity |].
  exact (M eq_refl eq_refl).
Defined.

(** C5.  When the path of the install root contains neither [.pc2] nor
    [pc2.net], [uninstallPC2()] rejects with the safety-check error and
    the state it returns is the state it was given: no status or log event,
    no signal, no stop call, no change to the tracked process or to the
    file system. *)
Theorem C5_uninstall_refuses_foreign_root
    (probe : ProbeOutcome) (during : list Event) (s : State) :
  JS.includes (getPC2Dir s) ".pc2" = false ->
  JS.includes (getPC2Dir s) "pc2.net" = false ->
  uninstallPC2 probe during s = (s, Rejected SAFETY_MESSAGE).
Proof.
  intros H1 H2. unfold uninstallPC2. rewrite H1, H2. reflexivity.
Qed.

(** A running service under a custom root named [/tmp/unrelated]. *)
Lemma C5_witness :
  let s := handle (CallSetEnvironment env_custom (Some "/tmp/unrelated")) Sample.up in
  (JS.includes (getPC2Dir s) ".pc2" = false /\
   JS.includes (getPC2Dir s) "pc2.net" = false) /\
  uninstallPC2 (Sample.healthy 0%Z) [] s = (s, Rejected SAFETY_MESSAGE).
Proof.
  intros s.
  assert (JS.includes (getPC2Dir s) ".pc2" = false) as H1 by reflexivity.
  assert (JS.includes (getPC2Dir s) "pc2.net" = false) as H2 by reflexivity.
  split; [auto |].
  exact (C5_uninstall_refuses_foreign_root (Sample.healthy 0%Z) [] s H1 H2).
Defined.

End StatusClaims.

(** ** What no event undoes *)

Section Persistence.

Lemma contOf_snoc (s s' : State) (cl : Call) c k :
  calls s' = calls s ++ [cl] -> contOf s c = Some k -> contOf s' c = Some k.
Proof.
  unfold contOf. intros -> H.
  destruct (calls s !! c) as [cl0 |] eqn:E; [| discriminate].
  rewrite (lookup_snoc_old _ _ _ _ E). exact H.
Qed.

Lemma contOf_same (s s' : State) c :
  calls s' = calls s -> contOf s' c = contOf s c.
Proof. unfold contOf. intros ->. reflexivity. Qed.

(** The promise of a call keeps waiting for the same thing. *)
Lemma contOf_handle e s c k :
  contOf s c = Some k -> contOf (handle e s) c = Some k.
Proof.
  intros H. destruct e; simpl.
  - unfold startPC2. destruct (negb (fst (isInstalled s))).
    + eapply contOf_snoc; [reflexivity | exact H].
    + destruct (trackedAlive s); eapply contOf_snoc; try exact H; reflexivity.
  - unfold stopPC2. destruct (trackedAlive _).
    + eapply contOf_snoc; [reflexivity |].
      rewrite (contOf_same s); [exact H |]. rewrite killTracked_calls. reflexivity.
    + eapply contOf_snoc; [reflexivity | exact H].
  - rewrite (contOf_same s); [exact H |]. apply setEnvironment_core.
  - destruct (calls s !! c0) as [[[] []] |]; try exact H.
    unfold onStopTimer. rewrite settle_contOf.
    rewrite (contOf_same s); [exact H |]. simpl.
    destruct (trackedAlive s); [| reflexivity].
    rewrite killTracked_calls. reflexivity.
  - destruct (calls s !! c0) as [[[] []] |]; try exact H.
    unfold onStopExec. rewrite settle_contOf. exact H.
  - destruct (children s !! p) as [ch |]; [| exact H].
    destruct (waiting ch); [| exact H].
    destruct (waitForServer health).
    + unfold onReady. rewrite settle_contOf. exact H.
    + unfold onWaitFailed. rewrite settle_contOf.
      rewrite (contOf_same s); [exact H |].
      match goal with |- context [trackedAlive ?x] => destruct (trackedAlive x) end;
        [| reflexivity].
      simpl. rewrite killTracked_calls. reflexivity.
  - destruct (children s !! p); [| exact H].
    rewrite (contOf_same s); [exact H |]. apply fold_emitLog_core.
  - destruct (children s !! p); [| exact H].
    rewrite (contOf_same s); [exact H |].
    apply (fold_emitLog_core (fun l => "[stderr] " +:+ l)).
  - unfold onError. destruct (children s !! p); [| exact H].
    rewrite settle_contOf. exact H.
  - destruct (children s !! p) as [ch |]; [| exact H].
    destruct (exited ch); [exact H |].
    rewrite (contOf_same s); [exact H |].
    match goal with |- calls (onExit _ _ ?x) = _ =>
      destruct (onExit_core code signal x) as (_ & _ & H3 & _); exact H3
    end.
  - exact H.
  - exact H.
  - exact H.
  - exact H.
  - exact H.
  - exact H.
Qed.

Lemma contOf_run schedule s c k :
  contOf s c = Some k -> contOf (run schedule s) c = Some k.
Proof.
  revert s. induction schedule as [| e schedule IH]; intros s H; simpl.
  - exact H.
  - apply IH, contOf_handle, H.
Qed.

Lemma callerOf_same (s s' : State) p :
  children s' = children s -> callerOf s' p = callerOf s p.
Proof. unfold callerOf. intros ->. reflexivity. Qed.

Lemma callerOf_insert (s : State) q ch ch' p :
  children s !! q = Some ch -> caller ch' = caller ch ->
  callerOf (set_children (<[q := ch']> (children s)) s) p = callerOf s p.
Proof. intros Hq Hc. unfold callerOf. simpl. eapply insert_same_field; eauto. Qed.

(** The closure of a spawn keeps its promise. *)
Lemma callerOf_handle e s p c :
  callerOf s p = Some c -> callerOf (handle e s) p = Some c.
Proof.
  intros H. destruct e; simpl.
  - unfold startPC2. destruct (negb (fst (isInstalled s))); [exact H |].
    destruct (trackedAlive s); [exact H |].
    unfold callerOf in *. simpl.
    destruct (children s !! p) as [ch |] eqn:E; [| discriminate].
    rewrite (lookup_snoc_old _ _ _ _ E). exact H.
  - unfold stopPC2. destruct (trackedAlive _); [| exact H].
    change (callerOf (killTracked SIGTERM (emitLog "Stopping PC2..." (emitStatus stopping s))) p = Some c).
    rewrite killTracked_callerOf. exact H.
  - rewrite (callerOf_same s); [exact H |]. apply setEnvironment_core.
  - destruct (calls s !! c0) as [[[] []] |]; try exact H.
    unfold onStopTimer, callerOf. rewrite settle_children. simpl.
    destruct (trackedAlive s); [| exact H].
    fold (callerOf (killTracked SIGKILL (emitLog "Force killing PC2..." s)) p).
    rewrite killTracked_callerOf. exact H.
  - destruct (calls s !! c0) as [[[] []] |]; try exact H.
    unfold onStopExec, callerOf. rewrite settle_children. exact H.
  - destruct (children s !! p0) as [ch |] eqn:E; [| exact H].
    destruct (waiting ch); [| exact H].
    pose proof (callerOf_insert s p0 ch
                  (mkChild (killed ch) (exited ch) false (caller ch)) p E eq_refl) as Hi.
    set (s1 := set_children _ s) in *.
    destruct (waitForServer health).
    + unfold onReady, callerOf. rewrite settle_children.
      change (callerOf s1 p = Some c). congruence.
    + unfold onWaitFailed, callerOf. rewrite settle_children.
      set (s2 := emitLog _ (emitStatus error s1)).
      destruct (trackedAlive s2).
      * change (callerOf (killTracked SIGTERM s2) p = Some c).
        rewrite killTracked_callerOf. change (callerOf s1 p = Some c). congruence.
      * change (callerOf s1 p = Some c). congruence.
  - destruct (children s !! p0); [| exact H].
    rewrite (callerOf_same s); [exact H |]. apply fold_emitLog_core.
  - destruct (children s !! p0); [| exact H].
    rewrite (callerOf_same s); [exact H |].
    apply (fold_emitLog_core (fun l => "[stderr] " +:+ l)).
  - unfold onError. destruct (children s !! p0); [| exact H].
    unfold callerOf. rewrite settle_children. exact H.
  - destruct (children s !! p0) as [ch |] eqn:E; [| exact H].
    destruct (exited ch); [exact H |].
    pose proof (callerOf_insert s p0 ch
                  (mkChild (killed ch) true (waiting ch) (caller ch)) p E eq_refl) as Hi.
    set (s1 := set_children _ s) in *.
    rewrite (callerOf_same s1); [congruence |]. apply onExit_core.
  - exact H.
  - exact H.
  - exact H.
  - exact H.
  - exact H.
  - exact H.
Qed.

Lemma callerOf_run schedule s p c :
  callerOf s p = Some c -> callerOf (run schedule s) p = Some c.
Proof.
  revert s. induction schedule as [| e schedule IH]; intros s H; simpl.
  - exact H.
  - apply IH, callerOf_handle, H.
Qed.

(** Only [startPC2] allocates child objects. *)
Lemma children_length_handle e s :
  e <> CallStartPC2 -> length (children (handle e s)) = length (children s).
Proof.
  intros He. destruct e; simpl; try congruence.
  - unfold stopPC2. destruct (trackedAlive _); [| reflexivity].
    simpl. rewrite killTracked_length. reflexivity.
  - destruct (setEnvironment_core env customDir s) as (_ & -> & _). reflexivity.
  - destruct (calls s !! c) as [[[] []] |]; try reflexivity.
    unfold onStopTimer. rewrite settle_children. simpl.
    destruct (trackedAlive s); [| reflexivity].
    rewrite killTracked_length. reflexivity.
  - destruct (calls s !! c) as [[[] []] |]; try reflexivity.
    unfold onStopExec. rewrite settle_children. reflexivity.
  - destruct (children s !! p) as [ch |]; [| reflexivity].
    destruct (waiting ch); [| reflexivity].
    destruct (waitForServer health).
    + unfold onReady. rewrite settle_children. simpl. apply length_insert.
    + unfold onWaitFailed. rewrite settle_children.
      match goal with |- context [trackedAlive ?x] => destruct (trackedAlive x) end.
      * simpl. rewrite killTracked_length. simpl. apply length_insert.
      * simpl. apply length_insert.
  - destruct (children s !! p); [| reflexivity].
    f_equal. apply (fold_emitLog_core (fun l => l)).
  - destruct (children s !! p); [| reflexivity].
    f_equal. apply (fold_emitLog_core (fun l => "[stderr] " +:+ l)).
  - unfold onError. destruct (children s !! p); [| reflexivity].
    rewrite settle_children. reflexivity.
  - destruct (children s !! p) as [ch |]; [| reflexivity].
    destruct (exited ch); [reflexivity |].
    match goal with |- length (children (onExit _ _ ?x)) = _ =>
      destruct (onExit_core code signal x) as (_ & -> & _)
    end.
    simpl. apply length_insert.
Qed.

End Persistence.

(** ** Tracking of the child process *)

Section TrackingClaims.

Lemma trackedAlive_untracked (s : State) :
  pc2Process s = None -> trackedAlive s = false.
Proof. unfold trackedAlive. intros ->. reflexivity. Qed.

(** The exit handler of any spawned child that has not exited yet. *)
Lemma exit_event (s : State) p code signal :
  exitedOf s p = Some false ->
  let s' := handle (ChildExit p code signal) s in
  pc2Process s' = None /\ lastStatus s' = Some stopped /\
  trackedAlive s' = false /\ exitedOf s' p = Some true /\
  statusLog s' = statusLog s ++ [stopped].
Proof.
  unfold exitedOf. intros He. simpl.
  destruct (children s !! p) as [ch |] eqn:E; [| discriminate].
  simpl in He. injection He as He. rewrite He.
  match goal with |- context [onExit _ _ ?x] =>
    destruct (onExit_core code signal x) as (H1 & H2 & _ & H4 & _)
  end.
  split; [exact H1 | split; [| split; [| split]]].
  - unfold lastStatus. rewrite H4. simpl. apply last_snoc.
  - apply trackedAlive_untracked, H1.
  - rewrite H2. simpl. rewrite (insert_new_field exited _ _ ch) by exact E.
    reflexivity.
  - rewrite H4. reflexivity.
Qed.

(** C7.  In every state the launcher can reach, whatever calls are in
    flight, the exit event of the tracked child runs the exit handler, which
    sets [pc2Process] to null and emits 'stopped' as the latest status. *)
Theorem C7_exit_clears_tracking
    (schedule : list Event) (h : Host) (files : Fs.t) (clock : string)
    (port : bool) (p : nat) (code : option Z) (signal : option string) :
  let s := run schedule (init h files clock port) in
  pc2Process s = Some p ->
  let s' := handle (ChildExit p code signal) s in
  pc2Process s' = None /\ lastStatus s' = Some stopped /\
  trackedAlive s' = false /\ statusLog s' = statusLog s ++ [stopped].
Proof.
  intros s HP s'.
  pose proof (wf_reachable schedule h files clock port) as W.
  pose proof (wf_tracked _ W p HP) as He.
  destruct (exit_event _ p code signal He) as (H1 & H2 & H3 & _ & H5).
  auto.
Qed.

(** The service was running when its process died with exit code 1. *)
Lemma C7_witness :
  let s := run [CallStartPC2; WaitSettled 0 Sample.healthy]
               (init Sample.linux Sample.installed "10:00:00" false) in
  (pc2Process s = Some 0 /\ lastStatus s = Some running) /\
  pc2Process (handle (ChildExit 0 (Some 1%Z) None) s) = None /\
  lastStatus (handle (ChildExit 0 (Some 1%Z) None) s) = Some stopped.
Proof.
  intros s.
  assert (pc2Process s = Some 0) as HP by reflexivity.
  split; [split; [exact HP | reflexivity] |].
  destruct (C7_exit_clears_tracking
              [CallStartPC2; WaitSettled 0 Sample.healthy]
              Sample.linux Sample.installed "10:00:00" false 0 (Some 1%Z) None HP)
    as (H1 & H2 & _).
  split; [exact H1 | exact H2].
Defined.

Lemma startPC2_already_running (s : State) :
  fst (isInstalled s) = true -> trackedAlive s = true ->
  startPC2 s = returned (emitLog "PC2 is already running" s).
Proof. intros Hi Ht. unfold startPC2. rewrite Hi, Ht. reflexivity. Qed.

Lemma startPC2_not_installed (s : State) :
  fst (isInstalled s) = false ->
  startPC2 s =
  returned (emitLog "PC2 is not installed. Please install first."
              (emitStatus not_installed s)).
Proof. intros Hi. unfold startPC2. rewrite Hi. reflexivity. Qed.

Lemma startPC2_spawns (s : State) :
  fst (isInstalled s) = true -> trackedAlive s = false ->
  let s' := startPC2 s in
  pc2Process s' = Some (length (children s)) /\
  children s' = children s ++ [mkChild false false true (length (calls s))] /\
  calls s' = calls s ++ [mkCall (AwaitReady (length (children s))) Pending] /\
  statusLog s' = statusLog s ++ [starting] /\
  signals s' = signals s.
Proof.
  intros Hi Ht. unfold startPC2. rewrite Hi, Ht. simpl.
  repeat split; reflexivity.
Qed.

(** C1, as the code has it.  The tracked handle is one nullable reference.
    A step of the machine allocates a child object only when it is
    [startPC2] on an installed service with no tracked process that is not
    killed; it then allocates exactly one and tracks it.  A call of
    [startPC2] while a process is tracked and not killed returns at once
    with its promise fulfilled, spawns nothing, sends no signal and leaves
    the tracked handle alone.  When the service is installed it emits no
    status and logs "PC2 is already running"; when the marker is missing it
    emits 'not-installed' and logs that the service is not installed. *)
Theorem C1_single_tracked_child (s : State) :
  (forall e,
      length (children (handle e s)) <> length (children s) ->
      e = CallStartPC2 /\ trackedAlive s = false /\ fst (isInstalled s) = true /\
      children (handle e s)
        = children s ++ [mkChild false false true (length (calls s))] /\
      pc2Process (handle e s) = Some (length (children s))) /\
  (trackedAlive s = true ->
   let s' := handle CallStartPC2 s in
   children s' = children s /\ pc2Process s' = pc2Process s /\
   signals s' = signals s /\
   calls s' = calls s ++ [mkCall NoCont Resolved] /\
   (fst (isInstalled s) = true ->
    statusLog s' = statusLog s /\
    logBuffer s' =
      pushLog (stamp (wallClock s) "PC2 is already running") (logBuffer s)) /\
   (fst (isInstalled s) = false ->
    statusLog s' = statusLog s ++ [not_installed] /\
    logBuffer s' =
      pushLog (stamp (wallClock s) "PC2 is not installed. Please install first.")
        (logBuffer s))).
Proof.
  split.
  - intros e Hlen.
    assert (e = CallStartPC2 \/ e <> CallStartPC2) as [-> | Hne]
      by (destruct e; auto; right; discriminate).
    + simpl in *.
      destruct (fst (isInstalled s)) eqn:Hi.
      * destruct (trackedAlive s) eqn:Ht.
        -- rewrite startPC2_already_running in Hlen by assumption.
           simpl in Hlen. congruence.
        -- destruct (startPC2_spawns s Hi Ht) as (H1 & H2 & _). auto.
      * rewrite startPC2_not_installed in Hlen by assumption.
        simpl in Hlen. congruence.
    + exfalso. apply Hlen, children_length_handle, Hne.
  - intros Ht s'. subst s'. simpl.
    destruct (fst (isInstalled s)) eqn:Hi.
    + rewrite startPC2_already_running by assumption. simpl.
      repeat split; intros; try reflexivity; discriminate.
    + rewrite startPC2_not_installed by assumption. simpl.
      repeat split; intros; try reflexivity; discriminate.
Qed.

(** The service is up and [startPC2] is called again. *)
Lemma C1_witness :
  trackedAlive Sample.up = true /\
  children (handle CallStartPC2 Sample.up) = children Sample.up /\
  pc2Process (handle CallStartPC2 Sample.up) = Some 0 /\
  statusLog (handle CallStartPC2 Sample.up) = [starting; running].
Proof.
  assert (trackedAlive Sample.up = true) as Ht by reflexivity.
  split; [exact Ht |].
  destruct (C1_single_tracked_child Sample.up) as [_ H].
  destruct (H Ht) as (H1 & H2 & _ & _ & H5 & _).
  split; [exact H1 | split].
  - rewrite H2. reflexivity.
  - destruct (H5 eq_refl) as [H6 _]. rewrite H6. reflexivity.
Defined.

(** C1 as stated fails: a child is tracked and not killed, the environment
    is switched to one that is not installed, and [startPC2()] emits
    'not-installed'. *)
Lemma C1_counterexample :
  let s := run [CallStartPC2; CallSetEnvironment env_dev None] Sample.fresh in
  trackedAlive s = true /\
  statusLog s = [starting] /\
  statusLog (handle CallStartPC2 s) = [starting; not_installed].
Proof. vm_compute. auto. Qed.

End TrackingClaims.

(** ** Readiness *)

Section ReadinessClaims.

Lemma healthProbe_duration (o : ProbeOutcome) :
  (0 <= snd (healthProbe o) <= 2000)%Z.
Proof.
  unfold healthProbe.
  destruct (Z.ltb_spec (Z.of_N (latency o)) 2000); simpl; lia.
Qed.

(** When no attempt started inside the window succeeds, the loop ends by
    throwing the timeout error. *)
Lemma waitForServer_from_timeout timeout health elapsed :
  (forall t, (elapsed <= t < timeout)%Z -> fst (healthProbe (health t)) = false) ->
  waitForServer_from timeout health elapsed
  = TimedOut "Timeout waiting for server to start".
Proof.
  funelim (waitForServer_from timeout health elapsed); intros Hfail.
  - rewrite Hfail by lia.
    match goal with IH : _ -> waitForServer_from _ _ _ = _ |- _ => apply IH end.
    intros t Ht. apply Hfail.
    pose proof (healthProbe_duration (health elapsed)). lia.
  - reflexivity.
Qed.

(** When the loop returns normally, some attempt started inside the window
    reached a 2xx response. *)
Lemma waitForServer_from_ready timeout health elapsed :
  waitForServer_from timeout health elapsed = Ready ->
  exists t, (elapsed <= t < timeout)%Z /\ fst (healthProbe (health t)) = true.
Proof.
  funelim (waitForServer_from timeout health elapsed); intros Hr.
  - destruct (fst (healthProbe (health elapsed))) eqn:Hp.
    + exists elapsed. split; [lia | exact Hp].
    + match goal with IH : _ -> exists _, _ |- _ => destruct (IH Hr) as (t & Ht & Hok) end.
      exists t. split; [| exact Hok].
      pose proof (healthProbe_duration (health elapsed)). lia.
  - discriminate.
Qed.

(** The loop on the sample services: ready at the first attempt, ready at
    the fifth, and timed out because of refused connections or of aborted
    requests. *)
Example waitForServer_samples :
  waitForServer Sample.healthy = Ready /\
  waitForServer Sample.slowStart = Ready /\
  waitForServer Sample.down = TimedOut "Timeout waiting for server to start" /\
  waitForServer Sample.hung = TimedOut "Timeout waiting for server to start".
Proof. repeat split; reflexivity. Qed.

Lemma onWaitFailed_tracked (c p : nat) (ch : Child) (message : string) (x : State) :
  pc2Process x = Some p -> children x !! p = Some ch ->
  killed ch = false -> exited ch = false ->
  call_outcome c x = Some Pending ->
  let x' := onWaitFailed c message x in
  pc2Process x' = None /\ killedOf x' p = Some true /\
  signals x' = signals x ++ [(p, SIGTERM)] /\
  statusLog x' = statusLog x ++ [error] /\
  call_outcome c x' = Some (Rejected message).
Proof.
  intros HP Hch Hk He Hc. unfold onWaitFailed.
  set (x1 := emitLog _ (emitStatus error x)).
  assert (trackedAlive x1 = true) as Ht.
  { unfold trackedAlive. simpl. rewrite HP, Hch, Hk. reflexivity. }
  rewrite Ht.
  assert (killTracked SIGTERM x1 = kill p SIGTERM x1) as Hkt.
  { unfold killTracked. simpl. rewrite HP. reflexivity. }
  rewrite Hkt.
  destruct (kill_delivered p SIGTERM x1) as [Hkd Hsig].
  { unfold exitedOf. simpl. rewrite Hch. simpl. rewrite He. reflexivity. }
  rewrite settle_pc2Process, settle_signals, settle_statusLog.
  unfold killedOf. rewrite settle_children. simpl.
  split; [reflexivity | split; [exact Hkd | split; [exact Hsig | split]]].
  - rewrite kill_statusLog. reflexivity.
  - apply settle_hit. unfold call_outcome. simpl. rewrite kill_calls. exact Hc.
Qed.

(** C6.  [startPC2()] spawned child [p] for call [c]; no health attempt
    started within the 30 s window reaches a 2xx answer; whatever happened
    during the wait, child [p] is still tracked and not killed when
    [waitForServer] gives up.  Then [waitForServer] throws its timeout
    error, the catch handler emits 'error', sends SIGTERM to [p] (its
    [killed] flag becomes true), clears the tracked handle, and the promise
    returned by that [startPC2()] is rejected with the timeout error. *)
Theorem C6_readiness_timeout
    (schedule during : list Event) (h : Host) (files : Fs.t) (clock : string)
    (port : bool) (health : Z -> ProbeOutcome) :
  let s := run schedule (init h files clock port) in
  let p := length (children s) in
  let c := length (calls s) in
  let s1 := handle CallStartPC2 s in
  let s2 := run during s1 in
  let s3 := handle (WaitSettled p health) s2 in
  fst (isInstalled s) = true -> trackedAlive s = false ->
  (forall t, (0 <= t < 30000)%Z -> fst (healthProbe (health t)) = false) ->
  pc2Process s2 = Some p -> killedOf s2 p = Some false ->
  waitingOf s2 p = Some true ->
  waitForServer health = TimedOut "Timeout waiting for server to start" /\
  statusLog s3 = statusLog s2 ++ [error] /\
  killedOf s3 p = Some true /\
  signals s3 = signals s2 ++ [(p, SIGTERM)] /\
  pc2Process s3 = None /\
  call_outcome c s3 = Some (Rejected "Timeout waiting for server to start").
Proof.
  intros s p c s1 s2 s3 Hi Ht Hfail HP Hk Hw.
  pose proof (wf_reachable schedule h files clock port) as W. fold s in W.
  assert (wf s2) as W2 by (apply wf_run, wf_handle, W).
  destruct (startPC2_spawns s Hi Ht) as (_ & Hch1 & _).
  assert (callerOf s2 p = Some c) as Hcaller.
  { apply callerOf_run. unfold callerOf. subst s1. simpl.
    rewrite Hch1. subst p. rewrite lookup_snoc_new. reflexivity. }
  pose proof (wf_pending _ W2 p c HP Hw Hcaller) as Hpend.
  pose proof (wf_tracked _ W2 p HP) as Hex.
  pose proof (waitForServer_from_timeout 30000 health 0 Hfail) as Hto.
  fold (waitForServer health) in Hto.
  split; [exact Hto |].
  unfold killedOf, waitingOf, exitedOf, callerOf in Hk, Hw, Hex, Hcaller.
  destruct (children s2 !! p) as [ch |] eqn:E; [| discriminate].
  simpl in Hk, Hw, Hex, Hcaller.
  injection Hk as Hk. injection Hw as Hw. injection Hex as Hex.
  injection Hcaller as Hcaller.
  subst s3. simpl. rewrite E, Hw, Hto.
  set (x := set_children _ s2).
  assert (children x !! p
          = Some (mkChild (killed ch) (exited ch) false (caller ch))) as Hx.
  { subst x. simpl. apply list_lookup_insert_eq. eapply lookup_lt_Some, E. }
  destruct (onWaitFailed_tracked (caller ch) p _
              "Timeout waiting for server to start" x HP Hx Hk Hex)
    as (H1 & H2 & H3 & H4 & H5).
  { rewrite Hcaller. exact Hpend. }
  rewrite Hcaller in *.
  split; [exact H4 | split; [exact H2 | split; [exact H3 | split; [exact H1 | exact H5]]]].
Qed.

(** The service is installed, starts, logs a line, and never opens its
    port. *)
Lemma C6_witness :
  let during := [ChildStdout 0 "booting"; ClockTick "10:00:30"] in
  let s2 := run during (handle CallStartPC2 Sample.fresh) in
  let s3 := handle (WaitSettled 0 Sample.down) s2 in
  (fst (isInstalled Sample.fresh) = true /\ trackedAlive Sample.fresh = false /\
   (forall t, (0 <= t < 30000)%Z -> fst (healthProbe (Sample.down t)) = false) /\
   pc2Process s2 = Some 0 /\ killedOf s2 0 = Some false /\
   waitingOf s2 0 = Some true) /\
  statusLog s3 = [starting; error] /\
  signals s3 = [(0, SIGTERM)] /\
  pc2Process s3 = None /\
  call_outcome 0 s3 = Some (Rejected "Timeout waiting for server to start").
Proof.
  intros during s2 s3.
  assert (fst (isInstalled Sample.fresh) = true) as H1 by reflexivity.
  assert (trackedAlive Sample.fresh = false) as H2 by reflexivity.
  assert (forall t, (0 <= t < 30000)%Z -> fst (healthProbe (Sample.down t)) = false)
    as H3 by (intros t _; reflexivity).
  assert (pc2Process s2 = Some 0) as H4 by reflexivity.
  assert (killedOf s2 0 = Some false) as H5 by reflexivity.
  assert (waitingOf s2 0 = Some true) as H6 by reflexivity.
  split; [auto 10 |].
  destruct (C6_readiness_timeout [] during Sample.linux Sample.installed
              "10:00:00" false Sample.down H1 H2 H3 H4 H5 H6)
    as (_ & A & _ & B & C & D).
  split; [| split; [| split]].
  - etransitivity; [exact A | reflexivity].
  - etransitivity; [exact B | reflexivity].
  - exact C.
  - exact D.
Defined.

End ReadinessClaims.

(** ** Stop *)

Section StopClaims.

Lemma trackedAlive_same (s s' : State) :
  pc2Process s' = pc2Process s -> children s' = children s ->
  trackedAlive s' = trackedAlive s.
Proof. unfold trackedAlive. intros -> ->. reflexivity. Qed.

(** The promise allocated by a call of [stopPC2]. *)
Lemma stopPC2_call (s : State) :
  calls (stopPC2 s) !! length (calls s)
  = Some (mkCall (if trackedAlive s then AwaitTimer else AwaitExec) Pending).
Proof.
  unfold stopPC2.
  change (trackedAlive (emitLog "Stopping PC2..." (emitStatus stopping s)))
    with (trackedAlive s).
  destruct (trackedAlive s); simpl.
  - rewrite killTracked_calls. simpl. apply lookup_snoc_new.
  - apply lookup_snoc_new.
Qed.

Lemma stopPC2_untracked (s : State) :
  trackedAlive s = false ->
  pc2Process (stopPC2 s) = pc2Process s /\ children (stopPC2 s) = children s /\
  signals (stopPC2 s) = signals s.
Proof.
  intros Ht. unfold stopPC2.
  change (trackedAlive (emitLog "Stopping PC2..." (emitStatus stopping s)))
    with (trackedAlive s).
  rewrite Ht. repeat split; reflexivity.
Qed.

Lemma onStopTimer_effect (c : nat) (x : State) :
  call_outcome c x = Some Pending ->
  pc2Process (onStopTimer c x) = None /\
  lastStatus (onStopTimer c x) = Some stopped /\
  call_outcome c (onStopTimer c x) = Some Resolved.
Proof.
  intros Hc. unfold onStopTimer, lastStatus.
  rewrite settle_pc2Process, settle_statusLog. simpl.
  split; [reflexivity | split; [apply last_snoc |]].
  apply settle_hit. unfold call_outcome in *. simpl.
  destruct (trackedAlive x); [| exact Hc].
  rewrite killTracked_calls. exact Hc.
Qed.

Lemma onStopExec_effect (c : nat) (x : State) :
  call_outcome c x = Some Pending ->
  pc2Process (onStopExec c x) = pc2Process x /\
  children (onStopExec c x) = children x /\
  signals (onStopExec c x) = signals x /\
  lastStatus (onStopExec c x) = Some stopped /\
  call_outcome c (onStopExec c x) = Some Resolved.
Proof.
  intros Hc. unfold onStopExec, lastStatus.
  rewrite settle_pc2Process, settle_statusLog, settle_children, settle_signals.
  simpl. repeat split; try reflexivity.
  - apply last_snoc.
  - apply settle_hit. exact Hc.
Qed.

(** A pending call whose continuation is known, as the record stored. *)
Lemma pending_call (x : State) c k :
  contOf x c = Some k -> call_outcome c x = Some Pending ->
  calls x !! c = Some (mkCall k Pending).
Proof.
  unfold contOf, call_outcome.
  destruct (calls x !! c) as [[k0 o] |]; simpl; [| discriminate].
  intros [= ->] [= ->]. reflexivity.
Qed.

(** C2, as the code has it.  The promise of a [stopPC2()] call is never
    rejected: at any later time it is pending or fulfilled.  When its
    callback (the 3000 ms timer if a process was tracked and not killed at
    the call, the callback of the port-kill command otherwise) arrives, the
    promise is fulfilled and 'stopped' is the latest status.  On the timer
    path the tracked handle is null afterwards.  On the other path the
    callback leaves [pc2Process] as it is, null or not.  With nothing
    happening in between, no process is tracked and not killed when the
    call is over. *)
Theorem C2_stop_always_resolves
    (schedule during : list Event) (h : Host) (files : Fs.t) (clock : string)
    (port : bool) :
  let s := run schedule (init h files clock port) in
  let c := length (calls s) in
  let s1 := handle CallStopPC2 s in
  let s2 := run during s1 in
  let s3 := handle (completion c s1) s2 in
  (call_outcome c s2 = Some Pending \/ call_outcome c s2 = Some Resolved) /\
  (call_outcome c s2 = Some Pending ->
   call_outcome c s3 = Some Resolved /\ lastStatus s3 = Some stopped /\
   (trackedAlive s = true -> pc2Process s3 = None) /\
   (trackedAlive s = false ->
    pc2Process s3 = pc2Process s2 /\ children s3 = children s2)) /\
  (during = [] -> call_outcome c s2 = Some Pending /\ trackedAlive s3 = false).
Proof.
  intros s c s1 s2 s3.
  pose proof (wf_reachable schedule h files clock port) as W. fold s in W.
  assert (wf s2) as W2 by (apply wf_run, wf_handle, W).
  pose proof (stopPC2_call s) as Hcall. fold c in Hcall.
  change (stopPC2 s) with s1 in Hcall.
  assert (contOf s2 c = Some (if trackedAlive s then AwaitTimer else AwaitExec))
    as Hcont.
  { apply contOf_run. unfold contOf. rewrite Hcall. reflexivity. }
  assert (completion c s1 = if trackedAlive s then StopTimer c else StopExecDone c)
    as Hcompl.
  { unfold completion. rewrite Hcall. destruct (trackedAlive s); reflexivity. }
  assert (call_outcome c s2 = Some Pending ->
          call_outcome c s3 = Some Resolved /\ lastStatus s3 = Some stopped /\
          (trackedAlive s = true -> pc2Process s3 = None) /\
          (trackedAlive s = false ->
           pc2Process s3 = pc2Process s2 /\ children s3 = children s2)) as Hdone.
  { intros Hpend. pose proof (pending_call s2 c _ Hcont Hpend) as Hrec.
    subst s3. rewrite Hcompl.
    destruct (trackedAlive s); simpl; rewrite Hrec.
    - destruct (onStopTimer_effect c s2 Hpend) as (H1 & H2 & H3).
      split; [exact H3 | split; [exact H2 | split; [auto | discriminate]]].
    - destruct (onStopExec_effect c s2 Hpend) as (H1 & H2 & _ & H4 & H5).
      split; [exact H5 | split; [exact H4 | split; [discriminate | auto]]]. }
  split; [| split; [exact Hdone |]].
  - apply (wf_stop _ W2). unfold isStopCall. rewrite Hcont.
    destruct (trackedAlive s); auto.
  - intros ->. simpl in s2.
    assert (call_outcome c s2 = Some Pending) as Hpend.
    { unfold call_outcome. subst s2. rewrite Hcall. reflexivity. }
    split; [exact Hpend |].
    destruct (Hdone Hpend) as (_ & _ & Ha & Hb).
    destruct (trackedAlive s) eqn:Ht.
    + apply trackedAlive_untracked, Ha. reflexivity.
    + destruct (Hb eq_refl) as [Hp Hc]. rewrite <- Ht.
      destruct (stopPC2_untracked s Ht) as (Hp1 & Hc1 & _).
      apply trackedAlive_same.
      * rewrite Hp. exact Hp1.
      * rewrite Hc. exact Hc1.
Qed.

(** The service is up, is stopped, and its process dies of the SIGTERM
    before the grace timer fires. *)
Lemma C2_witness :
let s := Sample.up in
let s1 := handle CallStopPC2 s in
let s2 := run [ChildExit 0 None (Some "SIGTERM")] s1 in
let s3 := handle (completion 1 s1) s2 in
call_outcome 1 s2 = Some Pending /\
call_outcome 1 s3 = Some Resolved /\ lastStatus s3 = Some stopped /\
pc2Process s3 = None.
Proof.
pose proof (C2_stop_always_resolves
              [CallStartPC2; WaitSettled 0 Sample.healthy]
              [ChildExit 0 None (Some "SIGTERM")]
              Sample.linux Sample.installed "10:00:00" false) as T.
vm_compute in T. vm_compute.
destruct T as (_ & T & _).
destruct (T eq_refl) as (H1 & H2 & H3 & _).
split; [reflexivity | split; [exact H1 | split; [exact H2 | exact (H3 eq_refl)]]].
Defined.

(** C2 as stated fails: [stopPC2()] is called while the tracked process has
    already been signalled by an earlier stop ([killed] is true); the call
    takes the port-kill path, its promise is fulfilled, and [pc2Process]
    still holds the handle. *)
Lemma C2_counterexample :
  let s := run [CallStopPC2] Sample.up in
  let s' := await_stopPC2 [] s in
  pc2Process s = Some 0 /\ killedOf s 0 = Some true /\
  call_outcome 2 s' = Some Resolved /\ lastStatus s' = Some stopped /\
  pc2Process s' = Some 0.
Proof. vm_compute. auto 6. Qed.

End StopClaims.

(** ** Environment switch *)

Section EnvironmentClaims.

Lemma setEnvironment_env env d s : currentEnv (setEnvironment env d s) = env.
Proof.
  unfold setEnvironment. destruct env, d as [d |]; try reflexivity.
  destruct (JS.truthy d); reflexivity.
Qed.

(** [await stopPC2()] with nothing else happening meanwhile. *)
Lemma await_stop_sequential (s : State) :
  let r := await_stopPC2 [] s in
  call_outcome (length (calls s)) r = Some Resolved /\
  lastStatus r = Some stopped /\ trackedAlive r = false.
Proof.
  unfold await_stopPC2. simpl.
  pose proof (stopPC2_call s) as Hcall.
  assert (call_outcome (length (calls s)) (stopPC2 s) = Some Pending) as Hpend.
  { unfold call_outcome. rewrite Hcall. reflexivity. }
  unfold completion. rewrite Hcall.
  destruct (trackedAlive s) eqn:Ht; simpl; rewrite Hcall.
  - destruct (onStopTimer_effect _ _ Hpend) as (H1 & H2 & H3).
    split; [exact H3 | split; [exact H2 |]]. apply trackedAlive_untracked, H1.
  - destruct (onStopExec_effect _ _ Hpend) as (H1 & H2 & _ & H4 & H5).
    split; [exact H5 | split; [exact H4 |]].
    destruct (stopPC2_untracked s Ht) as (Hp & Hc & _).
    rewrite <- Ht. apply trackedAlive_same; congruence.
Qed.

(** C8, as the code has it.  [setEnvironment] and its IPC handler change
    the selected environment and nothing about the process: the tracked
    handle, the child objects, the signals sent, the calls and the emitted
    statuses are what they were, so a process tracked before the switch is
    still tracked after it.  The stop comes from the caller: the
    environment selector of the renderer, when its cached status is
    'running', awaits [stop()] before it asks for the switch, and then no
    process is tracked and not killed under the new environment. *)
Theorem C8_environment_switch
    (env : PC2Environment) (probe1 probe2 : ProbeOutcome) (s : State) :
  (forall customDir,
      let '(s', _, _) := Main.setEnvironmentHandler env customDir probe1 s in
      s' = setEnvironment env customDir s /\
      currentEnv s' = env /\ pc2Process s' = pc2Process s /\
      children s' = children s /\ calls s' = calls s /\
      signals s' = signals s /\ statusLog s' = statusLog s /\
      trackedAlive s' = trackedAlive s) /\
  (let '(r, _) := Renderer.envSelect_change running env [] probe1 probe2 s in
   r = setEnvironment env None (await_stopPC2 [] s) /\
   currentEnv r = env /\
   call_outcome (length (calls s)) r = Some Resolved /\
   lastStatus r = Some stopped /\
   trackedAlive r = false).
Proof.
  split.
  - intros customDir. unfold Main.setEnvironmentHandler.
    destruct (setEnvironment_core env customDir s) as (H1 & H2 & H3 & H4 & H5 & _).
    split; [reflexivity |].
    split; [apply setEnvironment_env |].
    repeat (split; [assumption |]).
    apply trackedAlive_same; assumption.
  - unfold Renderer.envSelect_change, Main.setEnvironmentHandler.
    destruct (await_stop_sequential s) as (A & B & C).
    set (x := await_stopPC2 [] s) in *.
    destruct (setEnvironment_core env None x) as (H1 & H2 & H3 & H4 & _).
    split; [reflexivity |].
    split; [apply setEnvironment_env |].
    split; [unfold call_outcome in *; rewrite H3; exact A |].
    split; [unfold lastStatus in *; rewrite H4; exact B |].
    rewrite <- C. apply trackedAlive_same; assumption.
Qed.

(** C8 as stated fails: the service is running with child 0 tracked, the
    [pc2:setEnvironment] handler switches to the development environment,
    and child 0 is still tracked and not killed; no stop was performed. *)
Lemma C8_counterexample :
  let '(s', status, _) :=
    Main.setEnvironmentHandler env_dev None (Sample.healthy 0%Z) Sample.up in
  lastStatus Sample.up = Some running /\
  currentEnv s' = env_dev /\
  pc2Process s' = Some 0 /\ trackedAlive s' = true /\
  signals s' = [] /\ statusLog s' = [starting; running] /\
  status = not_installed.
Proof. vm_compute. auto 8. Qed.

End EnvironmentClaims.

(** ** Install from source *)

Section InstallClaims.

Lemma append_assoc (a b c : string) : (a +:+ b) +:+ c = a +:+ (b +:+ c).
Proof.
induction a as [| x a IH]; [reflexivity |].
change (String x ((a +:+ b) +:+ c) = String x (a +:+ (b +:+ c))).
f_equal. exact IH.
Qed.

















End InstallClaims.

(** * Further properties of the supervisor *)

(** ** Signals *)

Section Signals.

Lemma trackedAlive_inv (s : State) :
  trackedAlive s = true ->
  exists p, pc2Process s = Some p /\ killedOf s p = Some false.
Proof.
  unfold trackedAlive, killedOf. destruct (pc2Process s) as [p |]; [| discriminate].
  destruct (children s !! p) as [ch |] eqn:E; [| discriminate].
  destruct (killed ch) eqn:K; simpl; [discriminate |]. intros _. exists p.
  rewrite E. simpl. rewrite K. auto.
Qed.



Lemma kill_killedOf_kept p sig s q :
  killedOf s q = Some true -> killedOf (kill p sig s) q = Some true.
Proof.
  unfold killedOf, kill. intros H.
  destruct (children s !! p) as [ch |] eqn:Hp; [| exact H].
  destruct (exited ch); [exact H |]. simpl.
  destruct (decide (p = q)) as [-> | Hne].
  - rewrite list_lookup_insert_eq by (eapply lookup_lt_Some; eauto). reflexivity.
  - rewrite list_lookup_insert_ne by assumption. exact H.
Qed.



Lemma insert_killedOf_kept (s : State) p ch ch' q :
  children s !! p = Some ch -> killed ch' = killed ch ->
  killedOf s q = Some true ->
  killedOf (set_children (<[p := ch']> (children s)) s) q = Some true.
Proof.
  intros Hp Hk H. unfold killedOf in *. simpl.
  rewrite (insert_same_field killed _ _ _ ch) by assumption. exact H.
Qed.




End Signals.

(** ** What a turn of the event loop can change *)

Section Turns.

Lemma killedOf_same (s s' : State) q :
  children s' = children s -> killedOf s' q = killedOf s q.
Proof. unfold killedOf. intros ->. reflexivity. Qed.

Lemma killTracked_killedOf_kept sig s q :
  killedOf s q = Some true -> killedOf (killTracked sig s) q = Some true.
Proof.
  unfold killTracked. destruct (pc2Process s); [| auto].
  apply kill_killedOf_kept.
Qed.

(** The [killed] flag of a child is never reset. *)
Lemma killedOf_handle e s q :
  killedOf s q = Some true -> killedOf (handle e s) q = Some true.
Proof.
  intros H. destruct e; simpl.
  - unfold startPC2. destruct (negb (fst (isInstalled s))); [exact H |].
    destruct (trackedAlive s); [exact H |].
    unfold killedOf in *. simpl.
    destruct (children s !! q) as [ch |] eqn:E; [| discriminate].
    rewrite (lookup_snoc_old _ _ _ _ E). exact H.
  - unfold stopPC2. destruct (trackedAlive _); [| exact H].
    change (killedOf (killTracked SIGTERM (emitLog "Stopping PC2..." (emitStatus stopping s))) q = Some true).
    apply killTracked_killedOf_kept. exact H.
  - rewrite (killedOf_same s); [exact H |]. apply setEnvironment_core.
  - destruct (calls s !! c) as [[[] []] |]; try exact H.
    unfold onStopTimer, killedOf. rewrite settle_children. simpl.
    destruct (trackedAlive s); [| exact H].
    apply killTracked_killedOf_kept. exact H.
  - destruct (calls s !! c) as [[[] []] |]; try exact H.
    unfold onStopExec, killedOf. rewrite settle_children. exact H.
  - destruct (children s !! p) as [ch |] eqn:E; [| exact H].
    destruct (waiting ch); [| exact H].
    pose proof (insert_killedOf_kept s p ch
                  (mkChild (killed ch) (exited ch) false (caller ch)) q E eq_refl H)
      as Hi.
    set (s1 := set_children _ s) in *.
    destruct (waitForServer health).
    + unfold onReady, killedOf. rewrite settle_children. exact Hi.
    + unfold onWaitFailed, killedOf. rewrite settle_children.
      set (s2 := emitLog _ (emitStatus error s1)).
      destruct (trackedAlive s2); [| exact Hi].
      change (killedOf (killTracked SIGTERM s2) q = Some true).
      apply killTracked_killedOf_kept. exact Hi.
  - destruct (children s !! p); [| exact H].
    rewrite (killedOf_same s); [exact H |]. apply fold_emitLog_core.
  - destruct (children s !! p); [| exact H].
    rewrite (killedOf_same s); [exact H |].
    apply (fold_emitLog_core (fun l => "[stderr] " +:+ l)).
  - unfold onError. destruct (children s !! p); [| exact H].
    unfold killedOf. rewrite settle_children. exact H.
  - destruct (children s !! p) as [ch |] eqn:E; [| exact H].
    destruct (exited ch); [exact H |].
    pose proof (insert_killedOf_kept s p ch
                  (mkChild (killed ch) true (waiting ch) (caller ch)) q E eq_refl H)
      as Hi.
    set (s1 := set_children _ s) in *.
    rewrite (killedOf_same s1); [exact Hi |]. apply onExit_core.
  - exact H.
  - exact H.
  - exact H.
  - exact H.
  - exact H.
  - exact H.
Qed.

Lemma killedOf_run schedule s q :
  killedOf s q = Some true -> killedOf (run schedule s) q = Some true.
Proof.
  revert s. induction schedule as [| e schedule IH]; intros s H; simpl.
  - exact H.
  - apply IH, killedOf_handle, H.
Qed.

(** A turn leaves the tracked handle alone, clears it, or (in [startPC2])
    sets it to the child it has just allocated. *)
Lemma pc2Process_handle e s :
  pc2Process (handle e s) = pc2Process s \/
  pc2Process (handle e s) = None \/
  pc2Process (handle e s) = Some (length (children s)).
Proof.
  destruct e; simpl; auto.
  - unfold startPC2. destruct (negb (fst (isInstalled s))); [auto |].
    destruct (trackedAlive s); [auto |]. right. right. reflexivity.
  - left. unfold stopPC2. destruct (trackedAlive _); [| reflexivity].
    simpl. rewrite killTracked_pc2Process. reflexivity.
  - left. apply setEnvironment_core.
  - destruct (calls s !! c) as [[[] []] |]; auto.
    right. left. unfold onStopTimer. rewrite settle_pc2Process. reflexivity.
  - destruct (calls s !! c) as [[[] []] |]; auto.
    left. unfold onStopExec. rewrite settle_pc2Process. reflexivity.
  - destruct (children s !! p) as [ch |]; [| auto].
    destruct (waiting ch); [| auto].
    destruct (waitForServer health).
    + left. unfold onReady. rewrite settle_pc2Process. reflexivity.
    + unfold onWaitFailed. rewrite settle_pc2Process.
      match goal with |- context [trackedAlive ?x] => destruct (trackedAlive x) end;
        [right; left | left]; reflexivity.
  - destruct (children s !! p); [| auto]. left. apply fold_emitLog_core.
  - destruct (children s !! p); [| auto]. left.
    apply (fold_emitLog_core (fun l => "[stderr] " +:+ l)).
  - unfold onError. destruct (children s !! p); [| auto].
    right. left. rewrite settle_pc2Process. reflexivity.
  - destruct (children s !! p) as [ch |]; [| auto].
    destruct (exited ch); [auto |]. right. left. apply onExit_core.
Qed.

Lemma children_length_mono e s :
  length (children s) <= length (children (handle e s)).
Proof.
  assert (e = CallStartPC2 \/ e <> CallStartPC2) as [-> | Hne]
    by (destruct e; auto; right; discriminate).
  - simpl. unfold startPC2. destruct (negb (fst (isInstalled s))); [simpl; lia |].
    destruct (trackedAlive s); simpl; [lia |]. rewrite length_app. simpl. lia.
  - rewrite children_length_handle by exact Hne. lia.
Qed.

(** After a child [p] was tracked, whatever is tracked later is [p] or a
    child allocated since. *)
Lemma tracked_later (schedule : list Event) (s : State) (p : nat) :
  pc2Process s = Some p ->
  let s' := run schedule s in
  length (children s) <= length (children s') /\
  forall q, pc2Process s' = Some q -> q = p \/ length (children s) <= q.
Proof.
  intros HP. simpl.
  induction schedule as [| e schedule IH] using rev_ind.
  - simpl. split; [lia |]. intros q Hq. left. congruence.
  - rewrite run_snoc. destruct IH as [Hlen Hq].
    pose proof (children_length_mono e (run schedule s)) as Hm.
    split; [lia |]. intros q Hq'.
    destruct (pc2Process_handle e (run schedule s)) as [Hs | [Hn | Hnew]].
    + apply Hq. congruence.
    + congruence.
    + right. rewrite Hnew in Hq'. injection Hq' as <-. exact Hlen.
Qed.

(** A settled promise stays as it is. *)
Lemma outcome_settled_handle e s c x :
  call_outcome c s = Some x -> x <> Pending ->
  call_outcome c (handle e s) = Some x.
Proof.
  intros H Hx.
  assert (forall s' cl, calls s' = calls s ++ [cl] -> call_outcome c s' = Some x)
    as Hsnoc.
  { intros s' cl E. unfold call_outcome in *. rewrite E.
    destruct (calls s !! c) as [cl0 |] eqn:E0; [| discriminate].
    rewrite (lookup_snoc_old _ _ _ _ E0). exact H. }
  assert (forall s', calls s' = calls s -> call_outcome c s' = Some x) as Hsame.
  { intros s' E. unfold call_outcome in *. rewrite E. exact H. }
  destruct e; simpl.
  - unfold startPC2. destruct (negb (fst (isInstalled s))).
    + eapply Hsnoc. reflexivity.
    + destruct (trackedAlive s); eapply Hsnoc; reflexivity.
  - unfold stopPC2. destruct (trackedAlive _).
    + unfold call_outcome. simpl. rewrite killTracked_calls. simpl.
      eapply Hsnoc with (s' := set_calls (calls s ++ [_]) s). reflexivity.
    + eapply Hsnoc. reflexivity.
  - apply Hsame. apply setEnvironment_core.
  - destruct (calls s !! c0) as [[[] []] |]; try exact H.
    unfold onStopTimer. apply settle_kept; [| exact Hx]. apply Hsame. simpl.
    destruct (trackedAlive s); [| reflexivity].
    rewrite killTracked_calls. reflexivity.
  - destruct (calls s !! c0) as [[[] []] |]; try exact H.
    unfold onStopExec. apply settle_kept; [| exact Hx]. apply Hsame. reflexivity.
  - destruct (children s !! p) as [ch |]; [| exact H].
    destruct (waiting ch); [| exact H].
    destruct (waitForServer health).
    + unfold onReady. apply settle_kept; [| exact Hx]. apply Hsame. reflexivity.
    + unfold onWaitFailed. apply settle_kept; [| exact Hx]. apply Hsame.
      match goal with |- context [trackedAlive ?y] => destruct (trackedAlive y) end;
        [| reflexivity].
      simpl. rewrite killTracked_calls. reflexivity.
  - destruct (children s !! p); [| exact H].
    apply Hsame. apply fold_emitLog_core.
  - destruct (children s !! p); [| exact H].
    apply Hsame. apply (fold_emitLog_core (fun l => "[stderr] " +:+ l)).
  - unfold onError. destruct (children s !! p); [| exact H].
    apply settle_kept; [| exact Hx]. apply Hsame. reflexivity.
  - destruct (children s !! p) as [ch |]; [| exact H].
    destruct (exited ch); [exact H |]. apply Hsame.
    match goal with |- calls (onExit _ _ ?y) = _ =>
      destruct (onExit_core code signal y) as (_ & _ & H3 & _); exact H3
    end.
  - exact H.
  - exact H.
  - exact H.
  - exact H.
  - exact H.
  - exact H.
Qed.

Lemma outcome_settled_run schedule s c x :
  call_outcome c s = Some x -> x <> Pending ->
  call_outcome c (run schedule s) = Some x.
Proof.
  revert s. induction schedule as [| e schedule IH]; intros s H Hx; simpl.
  - exact H.
  - apply IH; [apply outcome_settled_handle |]; assumption.
Qed.

End Turns.

(** ** Stop, start and the grace timer *)

Section GraceTimer.

Lemma kill_settings p sig s : settings (kill p sig s) = settings s.
Proof.
  unfold kill. destruct (children s !! p) as [ch |]; [| reflexivity].
  destruct (exited ch); reflexivity.
Qed.

Lemma killTracked_settings sig s : settings (killTracked sig s) = settings s.
Proof.
  unfold killTracked. destruct (pc2Process s); [apply kill_settings | reflexivity].
Qed.

Lemma settle_settings c o s : settings (settle c o s) = settings s.
Proof.
  unfold settle. destruct (calls s !! c) as [cl |]; [| reflexivity].
  destruct (outcome cl); reflexivity.
Qed.

Lemma isInstalled_settings (s s' : State) :
  settings s' = settings s -> isInstalled s' = isInstalled s.
Proof.
  unfold settings. intros H. injection H as H1 H2 H3 H4 H5.
  unfold isInstalled, markerPath, getPC2NodeDir.
  rewrite H1, H2, H3, H5. reflexivity.
Qed.

Lemma killedOf_tracked (s : State) p :
  pc2Process s = Some p -> trackedAlive s = true -> killedOf s p = Some false.
Proof.
  intros HP Ht. destruct (trackedAlive_inv s Ht) as (q & Hq & Hk). congruence.
Qed.

(** [stopPC2()] when a process is tracked, not killed and still there. *)
Lemma stopPC2_tracked (s : State) p :
  pc2Process s = Some p -> trackedAlive s = true -> exitedOf s p = Some false ->
  let s' := stopPC2 s in
  pc2Process s' = Some p /\ killedOf s' p = Some true /\
  exitedOf s' p = Some false /\
  signals s' = signals s ++ [(p, SIGTERM)] /\
  statusLog s' = statusLog s ++ [stopping] /\
  calls s' = calls s ++ [mkCall AwaitTimer Pending] /\
  length (children s') = length (children s) /\
  settings s' = settings s.
Proof.
  intros HP Ht He. unfold stopPC2.
  set (x := emitLog "Stopping PC2..." (emitStatus stopping s)).
  assert (trackedAlive x = true) as Hx
    by (rewrite (trackedAlive_same s); [exact Ht | reflexivity | reflexivity]).
  rewrite Hx.
  assert (killTracked SIGTERM x = kill p SIGTERM x) as Hk.
  { unfold killTracked. change (pc2Process x) with (pc2Process s). rewrite HP.
    reflexivity. }
  rewrite Hk.
  destruct (kill_delivered p SIGTERM x He) as [Hd Hs].
  split; [simpl; rewrite kill_pc2Process; exact HP |].
  split; [exact Hd |].
  split; [change (exitedOf (kill p SIGTERM x) p = Some false);
          rewrite kill_exitedOf; exact He |].
  split; [exact Hs |].
  split; [simpl; rewrite kill_statusLog; reflexivity |].
  split; [simpl; rewrite kill_calls; reflexivity |].
  split; [simpl; rewrite kill_length; reflexivity |].
  change (settings (kill p SIGTERM x) = settings s). rewrite kill_settings.
  reflexivity.
Qed.

(** X2.  The SIGKILL of the grace timer of [stopPC2] never goes to the child
    that the stop terminated.  [stopPC2()] on a tracked, not killed child
    [p] sends it SIGTERM; when the 3000 ms timer fires, whatever happened
    meanwhile, it sends either nothing or SIGKILL to a child [q] spawned
    after the stop call (a [startPC2()] issued during the grace period),
    which is then untracked as well.  When nothing happens during the
    grace period (the child ignores SIGTERM), the timer sends nothing: the
    handle is cleared, 'stopped' is emitted and the promise fulfilled while
    the child has not exited. *)
Theorem X2_grace_timer_signal
    (schedule during : list Event) (h : Host) (files : Fs.t) (clock : string)
    (port : bool) (p : nat) :
  let s := run schedule (init h files clock port) in
  let c := length (calls s) in
  let s1 := handle CallStopPC2 s in
  let s2 := run during s1 in
  let s3 := handle (StopTimer c) s2 in
  pc2Process s = Some p -> trackedAlive s = true ->
  signals s1 = signals s ++ [(p, SIGTERM)] /\
  (signals s3 = signals s2 \/
   exists q, p < q /\ pc2Process s2 = Some q /\
             signals s3 = signals s2 ++ [(q, SIGKILL)]) /\
  (during = [] ->
   signals s3 = signals s ++ [(p, SIGTERM)] /\ exitedOf s3 p = Some false /\
   pc2Process s3 = None /\ lastStatus s3 = Some stopped /\
   call_outcome c s3 = Some Resolved).
Proof.
  intros s c s1 s2 s3 HP Ht.
  pose proof (wf_reachable schedule h files clock port) as W. fold s in W.
  pose proof (wf_tracked _ W p HP) as He.
  destruct (stopPC2_tracked s p HP Ht He)
    as (P1 & K1 & E1 & S1 & _ & C1 & L1 & _).
  change (stopPC2 s) with s1 in *.
  assert (wf s2) as W2 by (apply wf_run, wf_handle, W).
  assert (p < length (children s)) as Hlt.
  { unfold exitedOf in He. destruct (children s !! p) as [ch |] eqn:E;
      [| discriminate]. eapply lookup_lt_Some, E. }
  split; [exact S1 | split].
  - destruct (tracked_later during s1 p P1) as [_ Hq]. fold s2 in Hq.
    pose proof (killedOf_run during s1 p K1) as K2. fold s2 in K2.
    subst s3. simpl.
    destruct (calls s2 !! c) as [[[] []] |]; auto.
    unfold onStopTimer. rewrite settle_signals. simpl.
    destruct (trackedAlive s2) eqn:Ht2; [| auto].
    destruct (trackedAlive_inv s2 Ht2) as (q & Hq2 & Hk2).
    right. exists q.
    assert (q <> p) as Hne by (intros ->; congruence).
    destruct (Hq q Hq2) as [-> | Hge]; [congruence |].
    split; [lia | split; [exact Hq2 |]].
    set (x := emitLog "Force killing PC2..." s2).
    assert (killTracked SIGKILL x = kill q SIGKILL x) as ->.
    { unfold killTracked. change (pc2Process x) with (pc2Process s2).
      rewrite Hq2. reflexivity. }
    apply (kill_delivered q SIGKILL x).
    exact (wf_tracked _ W2 q Hq2).
  - intros ->. simpl in s2. subst s2.
    assert (calls s1 !! c = Some (mkCall AwaitTimer Pending)) as Hc.
    { rewrite C1. apply lookup_snoc_new. }
    assert (trackedAlive s1 = false) as Ht1.
    { unfold trackedAlive. rewrite P1. unfold killedOf in K1.
      destruct (children s1 !! p) as [ch |]; [| reflexivity].
      simpl in K1. injection K1 as ->. reflexivity. }
    assert (call_outcome c s1 = Some Pending) as Hp
      by (unfold call_outcome; rewrite Hc; reflexivity).
    destruct (onStopTimer_effect c s1 Hp) as (A & B & D).
    subst s3. simpl. rewrite Hc.
    split; [| split; [| split; [exact A | split; [exact B | exact D]]]].
    + unfold onStopTimer. rewrite settle_signals, Ht1. exact S1.
    + unfold onStopTimer, exitedOf. rewrite settle_children, Ht1. exact E1.
Qed.

(** The service is up; it is stopped, exits at once, is started again
    inside the grace period of the stop, and the timer of the stop then
    force-kills the new child. *)
Lemma X2_witness :
  let during := [ChildExit 0 (Some 0%Z) None; CallStartPC2] in
  let s1 := handle CallStopPC2 Sample.up in
  let s3 := handle (StopTimer 1) (run during s1) in
  (pc2Process Sample.up = Some 0 /\ trackedAlive Sample.up = true) /\
  signals s3 = [(0, SIGTERM); (1, SIGKILL)] /\
  pc2Process s3 = None /\
  statusLog s3 = [starting; running; stopping; stopped; starting; stopped].
Proof.
  intros during s1 s3.
  pose proof (X2_grace_timer_signal
                [CallStartPC2; WaitSettled 0 Sample.healthy] during
                Sample.linux Sample.installed "10:00:00" false 0) as T.
  vm_compute in T. vm_compute.
  destruct (T eq_refl eq_refl) as (_ & [A | (q & _ & Hq & A)] & _).
  - discriminate A.
  - injection Hq as <-. repeat split.
Defined.

End GraceTimer.

(** ** How a start ends *)

Section StartOutcome.

(** The closure of the child spawned by [startPC2()] in state [s]. *)
Lemma spawned_child (s : State) (during : list Event) :
  fst (isInstalled s) = true -> trackedAlive s = false ->
  let s2 := run during (handle CallStartPC2 s) in
  exists ch, children s2 !! length (children s) = Some ch /\
             caller ch = length (calls s) /\
             contOf s2 (length (calls s)) = Some (AwaitReady (length (children s))).
Proof.
  intros Hi Ht s2.
  destruct (startPC2_spawns s Hi Ht) as (_ & Hch & Hca & _).
  assert (callerOf s2 (length (children s)) = Some (length (calls s))) as Hc.
  { apply callerOf_run. unfold callerOf. simpl. rewrite Hch, lookup_snoc_new.
    reflexivity. }
  assert (contOf s2 (length (calls s)) = Some (AwaitReady (length (children s))))
    as Hk.
  { apply contOf_run. unfold contOf. simpl. rewrite Hca, lookup_snoc_new.
    reflexivity. }
  unfold callerOf in Hc.
  destruct (children s2 !! length (children s)) as [ch |]; [| discriminate].
  exists ch. simpl in Hc. injection Hc as Hc. auto.
Qed.

(** X3.  When the child spawned by [startPC2()] emits [error] (the binary
    cannot be executed) while the promise of that call is pending, the
    promise is rejected with that error at once, 'error' is emitted, the
    handle is cleared and no signal is sent; whatever happens later, the
    end of [waitForServer] included, the promise stays rejected with the
    error of the child. *)
Theorem X3_spawn_error
    (schedule during later : list Event) (h : Host) (files : Fs.t)
    (clock : string) (port : bool) (message : string) :
  let s := run schedule (init h files clock port) in
  let p := length (children s) in
  let c := length (calls s) in
  let s2 := run during (handle CallStartPC2 s) in
  let s3 := handle (ChildError p message) s2 in
  fst (isInstalled s) = true -> trackedAlive s = false ->
  call_outcome c s2 = Some Pending ->
  call_outcome c s3 = Some (Rejected message) /\
  pc2Process s3 = None /\
  statusLog s3 = statusLog s2 ++ [error] /\
  signals s3 = signals s2 /\
  call_outcome c (run later s3) = Some (Rejected message).
Proof.
  intros s p c s2 s3 Hi Ht Hp.
  destruct (spawned_child s during Hi Ht) as (ch & Hch & Hc & _).
  fold s2 p c in Hch, Hc.
  assert (call_outcome c s3 = Some (Rejected message)) as Hr.
  { subst s3. simpl. unfold onError. rewrite Hch, Hc.
    apply settle_hit. exact Hp. }
  split; [exact Hr |].
  subst s3. simpl. unfold onError. rewrite Hch.
  rewrite settle_pc2Process, settle_statusLog, settle_signals.
  split; [reflexivity | split; [reflexivity | split; [reflexivity |]]].
  apply outcome_settled_run; [| discriminate].
  simpl in Hr. unfold onError in Hr. rewrite Hch in Hr. exact Hr.
Qed.

(** The node binary is missing: the child reports ENOENT, and thirty
    seconds later [waitForServer] gives up. *)
Lemma X3_witness :
  let s2 := handle CallStartPC2 Sample.fresh in
  let s3 := handle (ChildError 0 "spawn node ENOENT") s2 in
  (fst (isInstalled Sample.fresh) = true /\ trackedAlive Sample.fresh = false /\
   call_outcome 0 s2 = Some Pending) /\
  call_outcome 0 s3 = Some (Rejected "spawn node ENOENT") /\
  call_outcome 0 (handle (WaitSettled 0 Sample.down) s3)
  = Some (Rejected "spawn node ENOENT").
Proof.
  intros s2 s3.
  pose proof (X3_spawn_error [] [] [WaitSettled 0 Sample.down] Sample.linux
                Sample.installed "10:00:00" false "spawn node ENOENT") as T.
  vm_compute in T. vm_compute.
  destruct (T eq_refl eq_refl eq_refl) as (A & _ & _ & _ & B).
  repeat split; assumption.
Defined.

(** X6.  The end of a successful [waitForServer]: 'running' is emitted, the
    tracked handle and the signals are left alone, and the promise of the
    start is fulfilled unless the child's [error] event rejected it before.
    Readiness is judged by the answer on port 4200 alone: this holds
    whether or not the spawned child is still tracked or has exited. *)
Theorem X6_ready_reports_running
    (schedule during : list Event) (h : Host) (files : Fs.t) (clock : string)
    (port : bool) (health : Z -> ProbeOutcome) :
  let s := run schedule (init h files clock port) in
  let p := length (children s) in
  let c := length (calls s) in
  let s2 := run during (handle CallStartPC2 s) in
  let s3 := handle (WaitSettled p health) s2 in
  fst (isInstalled s) = true -> trackedAlive s = false ->
  waitForServer health = Ready -> waitingOf s2 p = Some true ->
  statusLog s3 = statusLog s2 ++ [running] /\
  pc2Process s3 = pc2Process s2 /\
  signals s3 = signals s2 /\
  exitedOf s3 p = exitedOf s2 p /\
  call_outcome c s3
  = Some (match call_outcome c s2 with
          | Some (Rejected m) => Rejected m
          | _ => Resolved
          end).
Proof.
  intros s p c s2 s3 Hi Ht Hr Hw.
  destruct (spawned_child s during Hi Ht) as (ch & Hch & Hc & Hk).
  fold s2 p c in Hch, Hc, Hk.
  unfold waitingOf in Hw. rewrite Hch in Hw. simpl in Hw. injection Hw as Hw.
  subst s3. simpl. rewrite Hch, Hw, Hr. unfold onReady.
  rewrite settle_statusLog, settle_pc2Process, settle_signals.
  unfold exitedOf. rewrite settle_children. simpl.
  split; [reflexivity | split; [reflexivity | split; [reflexivity | split]]].
  - rewrite (insert_new_field exited _ _ ch) by exact Hch. rewrite Hch.
    reflexivity.
  - rewrite Hc.
    set (x := emitLog _ _).
    assert (call_outcome c x = call_outcome c s2) as Hx by reflexivity.
    unfold contOf in Hk.
    destruct (call_outcome c s2) as [[| | m] |] eqn:E.
    + apply settle_hit. congruence.
    + apply settle_kept; [congruence | discriminate].
    + apply settle_kept; [congruence | discriminate].
    + unfold call_outcome in E. destruct (calls s2 !! c); discriminate.
Qed.

(** The child crashes right after the spawn while another process answers
    on port 4200: the launcher reports 'running' with nothing tracked. *)
Lemma X6_witness :
  let during := [ChildExit 0 (Some 1%Z) None] in
  let s2 := run during (handle CallStartPC2 Sample.fresh) in
  let s3 := handle (WaitSettled 0 Sample.healthy) s2 in
  (fst (isInstalled Sample.fresh) = true /\ trackedAlive Sample.fresh = false /\
   waitForServer Sample.healthy = Ready /\ waitingOf s2 0 = Some true) /\
  statusLog s3 = [starting; stopped; running] /\
  pc2Process s3 = None /\ exitedOf s3 0 = Some true /\
  call_outcome 0 s3 = Some Resolved.
Proof.
  intros during s2 s3.
  pose proof (X6_ready_reports_running [] during Sample.linux Sample.installed
                "10:00:00" false Sample.healthy) as T.
  vm_compute in T. vm_compute.
  destruct (T eq_refl eq_refl eq_refl eq_refl) as (A & B & _ & C & D).
  repeat split; assumption.
Defined.

End StartOutcome.

(** ** Readiness *)

Section Readiness.

Ltac no_running :=
  let Hin := fresh "Hin" in
  intros Hin;
  repeat (apply elem_of_cons in Hin as [Hin | Hin]; [discriminate Hin |]);
  apply elem_of_nil in Hin; contradiction.

(** What a turn adds to the emitted statuses, and where a 'running' can
    come from. *)
Lemma statusLog_handle e s :
  exists l, statusLog (handle e s) = statusLog s ++ l /\
    (running ∈ l ->
     e = StatusEmitted running \/
     exists p health, e = WaitSettled p health /\ waitForServer health = Ready).
Proof.
  destruct e; simpl;
    try (exists []; split; [symmetry; apply app_nil_r | no_running]).
  - unfold startPC2. destruct (negb (fst (isInstalled s))).
    + exists [not_installed]. split; [reflexivity | no_running].
    + destruct (trackedAlive s).
      * exists []. split; [symmetry; apply app_nil_r | no_running].
      * exists [starting]. split; [reflexivity | no_running].
  - exists [stopping]. split; [| no_running].
    unfold stopPC2. destruct (trackedAlive _); [| reflexivity].
    simpl. rewrite killTracked_statusLog. reflexivity.
  - exists []. split; [| no_running]. rewrite app_nil_r.
    apply setEnvironment_core.
  - destruct (calls s !! c) as [[[] []] |];
      try (exists []; split; [symmetry; apply app_nil_r | no_running]).
    exists [stopped]. split; [| no_running].
    unfold onStopTimer. rewrite settle_statusLog. simpl.
    destruct (trackedAlive s); [| reflexivity].
    rewrite killTracked_statusLog. reflexivity.
  - destruct (calls s !! c) as [[[] []] |];
      try (exists []; split; [symmetry; apply app_nil_r | no_running]).
    exists [stopped]. split; [| no_running].
    unfold onStopExec. rewrite settle_statusLog. reflexivity.
  - destruct (children s !! p) as [ch |];
      [| exists []; split; [symmetry; apply app_nil_r | no_running]].
    destruct (waiting ch);
      [| exists []; split; [symmetry; apply app_nil_r | no_running]].
    destruct (waitForServer health) eqn:Hw.
    + exists [running]. split.
      * unfold onReady. rewrite settle_statusLog. reflexivity.
      * intros _. right. exists p, health. auto.
    + exists [error]. split; [| no_running].
      unfold onWaitFailed. rewrite settle_statusLog.
      match goal with |- context [trackedAlive ?x] => destruct (trackedAlive x) end;
        [| reflexivity].
      simpl. rewrite killTracked_statusLog. reflexivity.
  - exists []. split; [| no_running]. rewrite app_nil_r.
    destruct (children s !! p); [| reflexivity]. apply fold_emitLog_core.
  - exists []. split; [| no_running]. rewrite app_nil_r.
    destruct (children s !! p); [| reflexivity].
    apply (fold_emitLog_core (fun l => "[stderr] " +:+ l)).
  - unfold onError. destruct (children s !! p).
    + exists [error]. split; [| no_running]. rewrite settle_statusLog.
      reflexivity.
    + exists []. split; [symmetry; apply app_nil_r | no_running].
  - destruct (children s !! p) as [ch |];
      [| exists []; split; [symmetry; apply app_nil_r | no_running]].
    destruct (exited ch);
      [exists []; split; [symmetry; apply app_nil_r | no_running] |].
    exists [stopped]. split; [| no_running].
    match goal with |- statusLog (onExit _ _ ?y) = _ =>
      destruct (onExit_core code signal y) as (_ & _ & _ & H4 & _); exact H4
    end.
  - exists [status]. split; [reflexivity |].
    intros Hin. apply list_elem_of_singleton in Hin. left. congruence.
Qed.

(** X4.  The launcher reports 'running' only on evidence: if 'running' was
    ever emitted by the supervisor (the statuses that [uninstallPC2] and
    [restartPC2] emit themselves are never 'running'), then some
    [waitForServer] ended normally, and in it a health request begun less
    than 30 s after its start was answered within 2 s by a 2xx response. *)
Theorem X4_running_means_answered
    (schedule : list Event) (h : Host) (files : Fs.t) (clock : string)
    (port : bool) :
  let s := run schedule (init h files clock port) in
  StatusEmitted running ∉ schedule ->
  running ∈ statusLog s ->
  exists p health t st,
    WaitSettled p health ∈ schedule /\
    (0 <= t < 30000)%Z /\
    result (health t) = Response st /\ (200 <= st <= 299)%Z /\
    (Z.of_N (latency (health t)) < 2000)%Z.
Proof.
  simpl. induction schedule as [| e schedule IH] using rev_ind.
  - simpl. intros _ Hin. apply elem_of_nil in Hin. contradiction.
  - rewrite run_snoc. intros Hno Hin.
    assert (StatusEmitted running ∉ schedule) as Hno'.
    { intros Hx. apply Hno. apply elem_of_app. left. exact Hx. }
    destruct (statusLog_handle e (run schedule (init h files clock port)))
      as (l & Hl & Hsrc).
    rewrite Hl in Hin. apply elem_of_app in Hin as [Hold | Hnew].
    + destruct (IH Hno' Hold) as (p & health & t & st & Hp & Hrest).
      exists p, health, t, st. split; [| exact Hrest].
      apply elem_of_app. left. exact Hp.
    + destruct (Hsrc Hnew) as [-> | (p & health & -> & Hr)].
      * exfalso. apply Hno. apply elem_of_app. right. apply list_elem_of_here.
      * destruct (waitForServer_from_ready 30000 health 0 Hr) as (t & Ht & Hok).
        apply healthProbe_ok in Hok as (Hlat & st & Hres & Hst).
        exists p, health, t, st.
        split; [apply elem_of_app; right; apply list_elem_of_here |].
        auto.
Qed.

(** A start of the installed service that answers after five seconds. *)
Lemma X4_witness :
  let schedule := [CallStartPC2; WaitSettled 0 Sample.slowStart] in
  ((StatusEmitted running ∉ schedule) /\
   (running ∈ statusLog (run schedule Sample.fresh))) /\
  exists p health t st,
    WaitSettled p health ∈ schedule /\
    (0 <= t < 30000)%Z /\
    result (health t) = Response st /\ (200 <= st <= 299)%Z /\
    (Z.of_N (latency (health t)) < 2000)%Z.
Proof.
  intros schedule.
  assert (StatusEmitted running ∉ schedule) as H1.
  { intros Hin.
    repeat (apply elem_of_cons in Hin as [Hin | Hin]; [discriminate Hin |]).
    apply elem_of_nil in Hin. contradiction. }
  assert (running ∈ statusLog (run schedule Sample.fresh)) as H2.
  { apply list_elem_of_further, list_elem_of_here. }
  split; [auto |].
  exact (X4_running_means_answered schedule Sample.linux Sample.installed
           "10:00:00" false H1 H2).
Defined.

Lemma healthProbe_late_duration (late : Z) (o : ProbeOutcome) :
  (0 <= snd (healthProbe_late late o) <= 2000 + Z.max 0 late)%Z.
Proof.
  unfold healthProbe_late. cbv zeta.
  destruct (Z.ltb_spec (Z.of_N (latency o)) (2000 + Z.max 0 late)); simpl; lia.
Qed.

(** An answer taken by the timer that fires on time is taken by one that
    fires late. *)
Lemma healthProbe_late_mono (late : Z) (o : ProbeOutcome) :
  fst (healthProbe o) = true -> fst (healthProbe_late late o) = true.
Proof.
  unfold healthProbe, healthProbe_late. cbv zeta.
  destruct (Z.ltb_spec (Z.of_N (latency o)) 2000); [| discriminate].
  destruct (Z.ltb_spec (Z.of_N (latency o)) (2000 + Z.max 0 late)); [auto | lia].
Qed.

(** With timers that fire on time the loop is [waitForServer_from]. *)
Lemma waitForServer_late_exact (timeout : Z) (health : Z -> ProbeOutcome)
    (timers : Z -> Timers) (elapsed : Z) :
  (forall t, (abortLate (timers t) <= 0)%Z /\ (sleepLate (timers t) <= 0)%Z) ->
  waitForServer_late timeout health timers elapsed
  = waitForServer_from timeout health elapsed.
Proof.
  intros Hz. funelim (waitForServer_from timeout health elapsed).
  - rewrite waitForServer_late_equation_1, Heq. cbn.
    destruct (Hz elapsed) as [Ha Hs].
    assert (healthProbe_late (abortLate (timers elapsed)) (health elapsed)
            = healthProbe (health elapsed)) as ->.
    { unfold healthProbe_late, healthProbe.
      replace (Z.max 0 (abortLate (timers elapsed))) with 0%Z by lia.
      reflexivity. }
    destruct (fst (healthProbe (health elapsed))); [reflexivity |].
    replace (Z.max 0 (sleepLate (timers elapsed))) with 0%Z by lia.
    rewrite Z.add_0_r. apply H, Hz.
  - rewrite waitForServer_late_equation_1, Heq. reflexivity.
Qed.

(** X5.  [waitForServer] does not miss a service that comes up in time,
    with timers that fire up to [slack] ms late in each round of the loop:
    if from some moment [T], at least 3 s + [slack] before the 30 s
    deadline, every health request begun in the next 3 s + [slack] is
    answered with a 2xx response within 2 s, the wait ends normally (a
    failed attempt and the pause after it then last at most 3 s + [slack]
    together). *)
Theorem X5_waitForServer_sees_healthy
    (health : Z -> ProbeOutcome) (timers : Z -> Timers) (T slack : Z) :
  (0 <= T)%Z -> (0 <= slack)%Z -> (T + 3000 + slack <= 30000)%Z ->
  (forall t, (Z.max 0 (abortLate (timers t)) + Z.max 0 (sleepLate (timers t))
              <= slack)%Z) ->
  (forall t, (T <= t < T + 3000 + slack)%Z ->
             fst (healthProbe (health t)) = true) ->
  waitForServer_late 30000 health timers 0 = Ready.
Proof.
  intros H0 Hs HT Hlate Hok.
  assert (forall timeout elapsed,
            (T + 3000 + slack <= timeout)%Z -> (elapsed < T + 3000 + slack)%Z ->
            (0 <= elapsed)%Z ->
            waitForServer_late timeout health timers elapsed = Ready) as Hgen.
  { intros timeout elapsed.
    funelim (waitForServer_late timeout health timers elapsed);
      intros Hto He Hpos.
    - destruct (fst (healthProbe_late (abortLate (timers elapsed))
                       (health elapsed))) eqn:Hp; [reflexivity |].
      pose proof (healthProbe_late_duration (abortLate (timers elapsed))
                    (health elapsed)) as Hd.
      pose proof (Hlate elapsed) as Hl.
      assert (elapsed < T)%Z as Hlt.
      { destruct (Z_lt_dec elapsed T) as [Hlt | Hg]; [exact Hlt |].
        rewrite healthProbe_late_mono in Hp by (apply Hok; lia).
        discriminate. }
      match goal with IH : forall T : Z, _ |- _ =>
        apply (IH T slack); solve [assumption | lia] end.
    - lia. }
  apply Hgen; lia.
Qed.

(** The service that refuses connections for five seconds, watched with
    timers that fire late. *)
Lemma X5_witness :
  ((0 <= 5000)%Z /\ (0 <= 55)%Z /\ (5000 + 3000 + 55 <= 30000)%Z /\
   (forall t, (Z.max 0 (abortLate (Sample.sluggish t))
               + Z.max 0 (sleepLate (Sample.sluggish t)) <= 55)%Z) /\
   (forall t, (5000 <= t < 5000 + 3000 + 55)%Z ->
              fst (healthProbe (Sample.slowStart t)) = true)) /\
  waitForServer_late 30000 Sample.slowStart Sample.sluggish 0 = Ready.
Proof.
  assert (forall t, (Z.max 0 (abortLate (Sample.sluggish t))
                     + Z.max 0 (sleepLate (Sample.sluggish t)) <= 55)%Z) as L.
  { intros t. simpl. lia. }
  assert (forall t, (5000 <= t < 5000 + 3000 + 55)%Z ->
                    fst (healthProbe (Sample.slowStart t)) = true) as H.
  { intros t Ht. unfold Sample.slowStart.
    destruct (Z.ltb_spec t 5000); [lia | reflexivity]. }
  split; [split; [lia | split; [lia | split; [lia | split; [exact L | exact H]]]] |].
  apply (X5_waitForServer_sees_healthy Sample.slowStart Sample.sluggish 5000 55);
    [lia | lia | lia | exact L | exact H].
Defined.

End Readiness.

(** ** Restart *)

Section Restart.

Lemma settle_calls_length c o s : length (calls (settle c o s)) = length (calls s).
Proof.
  unfold settle. destruct (calls s !! c) as [cl |]; [| reflexivity].
  destruct (outcome cl); try reflexivity. simpl. apply length_insert.
Qed.

(** [await stopPC2()] with nothing else going on. *)
Lemma await_stop_effect (s : State) :
  wf s ->
  let r := await_stopPC2 [] s in
  trackedAlive r = false /\
  statusLog r = statusLog s ++ [stopping; stopped] /\
  length (children r) = length (children s) /\
  length (calls r) = S (length (calls s)) /\
  settings r = settings s /\
  signals r = signals s ++ stopSignal s.
Proof.
  intros W r.
  destruct (await_stop_sequential s) as (_ & _ & Hu). fold r in Hu.
  split; [exact Hu |].
  subst r. unfold await_stopPC2. simpl.
  pose proof (stopPC2_call s) as Hcall.
  unfold completion. rewrite Hcall. unfold stopSignal.
  destruct (trackedAlive s) eqn:Ht; simpl; rewrite Hcall.
  - destruct (trackedAlive_inv s Ht) as (p & HP & _). rewrite HP.
    destruct (stopPC2_tracked s p HP Ht (wf_tracked _ W p HP))
      as (P1 & K1 & _ & S1 & L1 & C1 & N1 & G1).
    assert (trackedAlive (stopPC2 s) = false) as Ht1.
    { unfold trackedAlive. rewrite P1. unfold killedOf in K1.
      destruct (children (stopPC2 s) !! p) as [ch |]; [| reflexivity].
      simpl in K1. injection K1 as ->. reflexivity. }
    unfold onStopTimer. rewrite Ht1.
    rewrite settle_statusLog, settle_children, settle_calls_length,
      settle_settings, settle_signals. simpl.
    rewrite L1, N1, C1, S1, length_app, <- app_assoc. simpl.
    repeat split; [lia | exact G1].
  - unfold onStopExec.
    rewrite settle_statusLog, settle_children, settle_calls_length,
      settle_settings, settle_signals.
    unfold stopPC2. rewrite (trackedAlive_same s) by reflexivity. rewrite Ht.
    simpl. rewrite length_app, <- app_assoc. simpl.
    destruct (pc2Process s); rewrite app_nil_r; repeat split; lia.
Qed.

Lemma await_startPC2_spawned during health (s : State) :
  fst (isInstalled s) = true -> trackedAlive s = false ->
  await_startPC2 during health s
  = let s2 := handle (WaitSettled (length (children s)) health)
                (run during (handle CallStartPC2 s)) in
    (s2, match call_outcome (length (calls s)) s2 with
         | Some o => o
         | None => Pending
         end).
Proof.
  intros Hi Ht. unfold await_startPC2.
  destruct (startPC2_spawns s Hi Ht) as (_ & _ & Hc & _).
  change (handle CallStartPC2 s) with (startPC2 s).
  rewrite Hc, lookup_snoc_new. reflexivity.
Qed.

Lemma await_startPC2_not_installed during health (s : State) :
  fst (isInstalled s) = false ->
  await_startPC2 during health s = (startPC2 s, Resolved) /\
  statusLog (startPC2 s) = statusLog s ++ [not_installed] /\
  children (startPC2 s) = children s /\ signals (startPC2 s) = signals s /\
  pc2Process (startPC2 s) = pc2Process s.
Proof.
  intros Hi. unfold await_startPC2.
  change (handle CallStartPC2 s) with (startPC2 s).
  rewrite (startPC2_not_installed s Hi).
  unfold returned at 1. cbn [calls set_calls].
  change (calls (emitLog "PC2 is not installed. Please install first."
                   (emitStatus not_installed s))) with (calls s).
  rewrite lookup_snoc_new. repeat split.
Qed.

Lemma waitSettled_step (s : State) p ch health :
  children s !! p = Some ch -> waiting ch = true ->
  handle (WaitSettled p health) s
  = let x := set_children
               (<[p := mkChild (killed ch) (exited ch) false (caller ch)]>
                  (children s)) s in
    match waitForServer health with
    | Ready => onReady (caller ch) x
    | TimedOut message => onWaitFailed (caller ch) message x
    end.
Proof. intros H1 H2. simpl. rewrite H1, H2. reflexivity. Qed.

Lemma onReady_effect (c : nat) (x : State) :
  call_outcome c x = Some Pending ->
  statusLog (onReady c x) = statusLog x ++ [running] /\
  signals (onReady c x) = signals x /\
  pc2Process (onReady c x) = pc2Process x /\
  children (onReady c x) = children x /\
  call_outcome c (onReady c x) = Some Resolved.
Proof.
  intros Hp. unfold onReady.
  rewrite settle_statusLog, settle_signals, settle_pc2Process, settle_children.
  repeat split. apply settle_hit. exact Hp.
Qed.

(** [await startPC2()] with nothing else going on, from a state where the
    service is installed and nothing is tracked and not killed. *)
Lemma await_start_effect (b : State) health :
  fst (isInstalled b) = true -> trackedAlive b = false ->
  let r := fst (await_startPC2 [] health b) in
  let o := snd (await_startPC2 [] health b) in
  let q := length (children b) in
  length (children r) = S q /\
  match waitForServer health with
  | Ready =>
      statusLog r = statusLog b ++ [starting; running] /\
      signals r = signals b /\ pc2Process r = Some q /\ o = Resolved
  | TimedOut message =>
      statusLog r = statusLog b ++ [starting; error] /\
      signals r = signals b ++ [(q, SIGTERM)] /\
      pc2Process r = None /\ o = Rejected message
  end.
Proof.
  intros Hi Hu r o q. subst r o q.
  rewrite (await_startPC2_spawned [] health b Hi Hu). cbn [fst snd run fold_left].
  destruct (startPC2_spawns b Hi Hu) as (P2 & K2 & C2 & L2 & S2).
  change (handle CallStartPC2 b) with (startPC2 b).
  remember (startPC2 b) as s1 eqn:E1. clear E1.
  assert (children s1 !! (length (children b))
          = Some (mkChild false false true (length (calls b)))) as Hch
    by (rewrite K2; apply lookup_snoc_new).
  assert (call_outcome (length (calls b)) s1 = Some Pending) as Hp
    by (unfold call_outcome; rewrite C2, lookup_snoc_new; reflexivity).
  split.
  { rewrite children_length_handle by discriminate.
    rewrite K2, length_app. simpl. lia. }
  rewrite (waitSettled_step s1 (length (children b)) _ health Hch eq_refl).
  cbn [killed exited caller].
  remember (set_children _ s1) as x eqn:Ex.
  assert (children x !! (length (children b))
          = Some (mkChild false false false (length (calls b)))) as Hx.
  { subst x. cbn [children set_children]. apply list_lookup_insert_eq.
    eapply lookup_lt_Some, Hch. }
  assert (statusLog x = statusLog b ++ [starting]) as Lx by (subst x; exact L2).
  assert (signals x = signals b) as Sx by (subst x; exact S2).
  assert (pc2Process x = Some (length (children b))) as Px by (subst x; exact P2).
  assert (call_outcome (length (calls b)) x = Some Pending) as Hpx
    by (subst x; exact Hp).
  clear Ex.
  destruct (waitForServer health) as [| message].
  - destruct (onReady_effect (length (calls b)) x Hpx) as (A1 & A2 & A3 & _ & A5).
    rewrite A1, A2, A3, A5, Lx, Sx, Px, <- app_assoc.
    repeat split.
  - destruct (onWaitFailed_tracked (length (calls b)) (length (children b)) _ message x Px Hx
                eq_refl eq_refl Hpx) as (A1 & _ & A3 & A4 & A5).
    rewrite A4, A3, A1, A5, Lx, Sx, <- app_assoc.
    repeat split.
Qed.

Lemma restart_sequence (s : State) health :
  wf s ->
  let q := length (children s) in
  let r := fst (restartPC2 [] [] [] health s) in
  let o := snd (restartPC2 [] [] [] health s) in
  if fst (isInstalled s) then
    length (children r) = S q /\
    match waitForServer health with
    | Ready =>
        statusLog r
        = statusLog s ++ [starting; stopping; stopped; starting; running] /\
        signals r = signals s ++ stopSignal s /\
        pc2Process r = Some q /\ o = Resolved
    | TimedOut message =>
        statusLog r
        = statusLog s ++ [starting; stopping; stopped; starting; error] /\
        signals r = signals s ++ stopSignal s ++ [(q, SIGTERM)] /\
        pc2Process r = None /\ o = Rejected message
    end
  else
    statusLog r = statusLog s ++ [starting; stopping; stopped; not_installed] /\
    signals r = signals s ++ stopSignal s /\
    length (children r) = q /\ o = Resolved.
Proof.
  intros W q r o.
  assert (restartPC2 [] [] [] health s
          = await_startPC2 [] health
              (await_stopPC2 []
                 (emitLog "Restarting PC2..." (emitStatus starting s)))) as Hre
    by reflexivity.
  subst r o. rewrite Hre. clear Hre.
  remember (emitLog "Restarting PC2..." (emitStatus starting s)) as a eqn:Ea.
  assert (wf a) as Wa.
  { subst a.
    change (wf (run [StatusEmitted starting; Logged "Restarting PC2..."] s)).
    apply wf_run, W. }
  destruct (await_stop_effect a Wa) as (Hu & L1 & N1 & _ & G1 & S1).
  assert (statusLog a = statusLog s ++ [starting]) as La by (subst a; reflexivity).
  assert (length (children a) = q) as Na by (subst a; reflexivity).
  assert (signals a = signals s) as Sa by (subst a; reflexivity).
  assert (stopSignal a = stopSignal s) as Ta by (subst a; reflexivity).
  assert (settings a = settings s) as Ga by (subst a; reflexivity).
  clear Ea.
  remember (await_stopPC2 [] a) as b eqn:Eb. clear Eb.
  assert (isInstalled b = isInstalled s) as Hib
    by (apply isInstalled_settings; congruence).
  rewrite La, <- app_assoc in L1. cbn [app] in L1.
  rewrite Sa, Ta in S1. rewrite Na in N1.
  destruct (fst (isInstalled s)) eqn:Hi.
  - rewrite <- Hib in Hi.
    pose proof (await_start_effect b health Hi Hu) as [A B].
    cbv zeta in A, B. rewrite N1 in A, B.
    split; [exact A |].
    destruct (waitForServer health) as [| message];
      destruct B as (B1 & B2 & B3 & B4);
      rewrite B1, B2, L1, S1, <- !app_assoc; repeat split; assumption.
  - rewrite <- Hib in Hi.
    destruct (await_startPC2_not_installed [] health b Hi)
      as (-> & A1 & A2 & A3 & _).
    cbn [fst snd]. rewrite A1, A2, A3, L1, S1, N1, <- app_assoc.
    repeat split.
Qed.

(** X7.  [restartPC2()] with nothing else going on is a stop followed by a
    start.  On an installed service it emits 'starting', 'stopping',
    'stopped', 'starting' and then 'running' or 'error'; a tracked, not
    killed process gets SIGTERM, exactly one new child is spawned, and the
    promise is fulfilled with the new child tracked when the service
    answers in time, rejected with the timeout error (the new child gets
    SIGTERM and is untracked) otherwise: a failed start fails the restart.
    On a service that is not installed it still runs the stop, then emits
    'not-installed', spawns nothing, and its promise is fulfilled. *)
Theorem X7_restart_sequence
    (schedule : list Event) (h : Host) (files : Fs.t) (clock : string)
    (port : bool) (health : Z -> ProbeOutcome) :
  let s := run schedule (init h files clock port) in
  let q := length (children s) in
  let r := fst (restartPC2 [] [] [] health s) in
  let o := snd (restartPC2 [] [] [] health s) in
  if fst (isInstalled s) then
    length (children r) = S q /\
    match waitForServer health with
    | Ready =>
        statusLog r
        = statusLog s ++ [starting; stopping; stopped; starting; running] /\
        signals r = signals s ++ stopSignal s /\
        pc2Process r = Some q /\ o = Resolved
    | TimedOut message =>
        statusLog r
        = statusLog s ++ [starting; stopping; stopped; starting; error] /\
        signals r = signals s ++ stopSignal s ++ [(q, SIGTERM)] /\
        pc2Process r = None /\ o = Rejected message
    end
  else
    statusLog r = statusLog s ++ [starting; stopping; stopped; not_installed] /\
    signals r = signals s ++ stopSignal s /\
    length (children r) = q /\ o = Resolved.
Proof.
  intros s. apply restart_sequence, wf_reachable.
Qed.

End Restart.

(** ** Environments and paths *)

Section Environments.

Lemma append_cons (a : ascii) (x y : string) :
  String a x +:+ y = String a (x +:+ y).
Proof. reflexivity. Qed.


Lemma prefix_append (a b c : string) :
  String.prefix (a +:+ b) (a +:+ c) = String.prefix b c.
Proof.
  induction a as [| x a IH]; [reflexivity |].
  rewrite !append_cons. cbn [String.prefix].
  destruct (ascii_dec x x) as [_ | Hne]; [exact IH | congruence].
Qed.

Lemma join_root (home x : string) :
  x <> "" ->
  Path.join [home; x] = if JS.truthy home then home +:+ "/" +:+ x else x.
Proof.
  intros Hx. destruct x as [| b x]; [congruence |].
  destruct home as [| a home]; reflexivity.
Qed.

Lemma join_root_child (home x y : string) :
  x <> "" -> y <> "" ->
  Path.join [home; x; y] = Path.join [home; x] +:+ "/" +:+ y.
Proof.
  intros Hx Hy. destruct x as [| b x]; [congruence |].
  destruct y as [| c y]; [congruence |].
  destruct home as [| a home]; [reflexivity |].
  assert (Path.join [String a home; String b x; String c y]
          = String a home +:+ "/" +:+ (String b x +:+ "/" +:+ String c y)) as ->
    by reflexivity.
  assert (Path.join [String a home; String b x]
          = String a home +:+ "/" +:+ String b x) as -> by reflexivity.
  rewrite !append_assoc. reflexivity.
Qed.

(** The service directory is the [pc2-node] child of the install root. *)
Lemma nodeDir_child (s : State) :
  customPaths s -> getPC2Dir s <> "" ->
  getPC2NodeDir s = getPC2Dir s +:+ "/pc2-node".
Proof.
  intros Hc Hd. unfold getPC2Dir, getPC2NodeDir in *.
  destruct (currentEnv s).
  - rewrite join_root_child by discriminate. reflexivity.
  - rewrite join_root_child by discriminate. reflexivity.
  - destruct Hc as [[H1 _] | [_ H2]]; [congruence | exact H2].
Qed.

Lemma within_child (d x : string) : Fs.within d (d +:+ "/" +:+ x) = true.
Proof.
  unfold Fs.within. apply orb_true_iff. right.
  rewrite prefix_append. destruct x; reflexivity.
Qed.

Lemma customPaths_setEnvironment env d s :
  customPaths s -> customPaths (setEnvironment env d s).
Proof.
  intros H. unfold setEnvironment.
  destruct env, d as [d |]; try exact H.
  destruct (JS.truthy d) eqn:Hd; [| exact H].
  right. cbn [custom_dir custom_nodeDir set_custom set_env].
  split; [intros ->; discriminate |].
  rewrite join_root by discriminate. rewrite Hd. reflexivity.
Qed.

Lemma settings_fold_emitLog (f : string -> string) (lines : list string) s :
  settings (fold_left (fun s line => emitLog (f line) s) lines s) = settings s.
Proof.
  revert s. induction lines as [| l lines IH]; intros s; simpl; [reflexivity |].
  rewrite IH. reflexivity.
Qed.

Lemma settings_onExit code signal s : settings (onExit code signal s) = settings s.
Proof.
  unfold onExit.
  destruct code as [n |]; [| destruct signal as [sg |]; [destruct (JS.truthy sg) |]];
    reflexivity.
Qed.

(** Only [setEnvironment] and the file system itself change what the path
    getters and [isInstalled] read. *)
Lemma settings_handle e s :
  match e with
  | CallSetEnvironment _ _ | FsChanged _ => True
  | _ => settings (handle e s) = settings s
  end.
Proof.
  destruct e; simpl; try exact I; try reflexivity.
  - unfold startPC2. destruct (negb (fst (isInstalled s))); [reflexivity |].
    destruct (trackedAlive s); reflexivity.
  - unfold stopPC2. destruct (trackedAlive _); [| reflexivity].
    change (settings (killTracked SIGTERM
                        (emitLog "Stopping PC2..." (emitStatus stopping s)))
            = settings s).
    rewrite killTracked_settings. reflexivity.
  - destruct (calls s !! c) as [[[] []] |]; try reflexivity.
    unfold onStopTimer. rewrite settle_settings.
    destruct (trackedAlive s); [| reflexivity].
    change (settings (killTracked SIGKILL (emitLog "Force killing PC2..." s))
            = settings s).
    rewrite killTracked_settings. reflexivity.
  - destruct (calls s !! c) as [[[] []] |]; try reflexivity.
    unfold onStopExec. rewrite settle_settings. reflexivity.
  - destruct (children s !! p) as [ch |]; [| reflexivity].
    destruct (waiting ch); [| reflexivity].
    destruct (waitForServer health).
    + unfold onReady. rewrite settle_settings. reflexivity.
    + unfold onWaitFailed. rewrite settle_settings.
      match goal with |- context [trackedAlive ?x] => destruct (trackedAlive x) end;
        [| reflexivity].
      match goal with |- settings (set_pc2Process None (killTracked ?g ?x)) = _ =>
        change (settings (killTracked g x) = settings s)
      end.
      rewrite killTracked_settings. reflexivity.
  - destruct (children s !! p); [| reflexivity].
    apply (settings_fold_emitLog (fun l => l)).
  - destruct (children s !! p); [| reflexivity].
    apply (settings_fold_emitLog (fun l => "[stderr] " +:+ l)).
  - unfold onError. destruct (children s !! p); [| reflexivity].
    rewrite settle_settings. reflexivity.
  - destruct (children s !! p) as [ch |]; [| reflexivity].
    destruct (exited ch); [reflexivity |].
    rewrite settings_onExit. reflexivity.
Qed.

Lemma customPaths_settings (s s' : State) :
  settings s' = settings s -> customPaths s -> customPaths s'.
Proof.
  unfold settings, customPaths. intros H. injection H as H1 H2 H3 H4 H5.
  rewrite H4, H5. auto.
Qed.

Lemma customPaths_handle e s : customPaths s -> customPaths (handle e s).
Proof.
  intros H. pose proof (settings_handle e s) as Hs.
  destruct e; try (apply (customPaths_settings s); [exact Hs | exact H]).
  - apply customPaths_setEnvironment, H.
  - exact H.
Qed.

Lemma customPaths_reachable schedule h files clock port :
  customPaths (run schedule (init h files clock port)).
Proof.
  induction schedule as [| e schedule IH] using rev_ind.
  - left. split; reflexivity.
  - rewrite run_snoc. apply customPaths_handle, IH.
Qed.

End Environments.

(** ** Uninstall *)

Section Uninstall.

Lemma existsSync_elem (p : string) (files : Fs.t) :
  Fs.existsSync p files = true <-> p ∈ files.
Proof.
  unfold Fs.existsSync. rewrite existsb_exists, list_elem_of_In. split.
  - intros (x & Hx & He). apply String.eqb_eq in He. subst x. exact Hx.
  - intros H. exists p. split; [exact H | apply String.eqb_refl].
Qed.

Lemma rmSync_elem (d p : string) (files : Fs.t) :
  p ∈ Fs.rmSync d files <-> p ∈ files /\ Fs.within d p = false.
Proof.
  unfold Fs.rmSync. rewrite list_elem_of_filter. tauto.
Qed.

Lemma includes_empty (needle : string) :
  needle <> "" -> JS.includes "" needle = false.
Proof. destruct needle; [congruence | reflexivity]. Qed.

Lemma await_stop_settings (s : State) :
  settings (await_stopPC2 [] s) = settings s.
Proof.
  unfold await_stopPC2. cbn [run fold_left].
  pose proof (settings_handle CallStopPC2 s) as H1. cbv beta iota in H1.
  remember (handle CallStopPC2 s) as s1 eqn:E. clear E.
  unfold completion.
  destruct (calls s1 !! length (calls s)) as [[[] ?] |].
  - rewrite (settings_handle (StopExecDone _) s1). exact H1.
  - rewrite (settings_handle (StopExecDone _) s1). exact H1.
  - rewrite (settings_handle (StopTimer _) s1). exact H1.
  - rewrite (settings_handle (StopExecDone _) s1). exact H1.
  - rewrite (settings_handle (StopExecDone _) s1). exact H1.
Qed.

(** The shape of a call of [uninstallPC2] that passes the safety check:
    [s1] is the state after the optional stop. *)
Lemma uninstall_shape (probe : ProbeOutcome) (s : State) :
  JS.includes (getPC2Dir s) ".pc2" = true \/
  JS.includes (getPC2Dir s) "pc2.net" = true ->
  let d := getPC2Dir s in
  let s1 := if fst (isInstalled s) && fst (healthProbe probe)
            then await_stopPC2 [] s else s in
  let s2 := emitLog ("Uninstalling PC2 from " +:+ d +:+ "...") s1 in
  uninstallPC2 probe [] s
  = (emitStatus not_installed
       (if Fs.existsSync d (fs s)
        then emitLog "PC2 uninstalled successfully"
               (set_fs (Fs.rmSync d (fs s)) s2)
        else s2), Resolved) /\
  settings s1 = settings s.
Proof.
  intros Hg d s1 s2.
  assert (settings s1 = settings s) as Hs.
  { subst s1. destruct (fst (isInstalled s) && fst (healthProbe probe));
      [apply await_stop_settings | reflexivity]. }
  split; [| exact Hs].
  unfold uninstallPC2. fold d.
  assert (negb (JS.includes d ".pc2") && negb (JS.includes d "pc2.net") = false)
    as ->.
  { unfold d. destruct Hg as [-> | ->]; [reflexivity | apply andb_false_r]. }
  assert (match fst (getStatus probe s) with
          | running => await_stopPC2 [] s
          | _ => s
          end = s1) as ->.
  { subst s1. unfold getStatus. destruct (isInstalled s) as [i checks].
    cbn [fst]. destruct i; [| reflexivity]. cbn [negb andb].
    destruct (fst (healthProbe probe)); [reflexivity |].
    destruct (trackedAlive s); reflexivity. }
  fold s2.
  assert (fs s2 = fs s) as ->.
  { unfold settings in Hs. injection Hs as _ Hf _ _ _. exact Hf. }
  reflexivity.
Qed.

(** X8.  On a macOS or Linux host where the install root and the existing
    paths are normalised absolute paths (so that the text of a path says
    where it is), and where the removal does not throw: a call of
    [uninstallPC2()] that passes the safety check, with nothing else going
    on, fulfils its promise and emits 'not-installed' last.  Nothing
    outside the install root is touched; when the root existed, the root
    and everything below it is gone.  Afterwards (no service directory
    exists without the root) [isInstalled()] is false and [getStatus()]
    answers 'not-installed' whatever the health probe says. *)
Theorem X8_uninstall_effect
    (schedule : list Event) (h : Host) (files : Fs.t) (clock : string)
    (port : bool) (probe : ProbeOutcome) :
  let s := run schedule (init h files clock port) in
  let d := getPC2Dir s in
  let r := fst (uninstallPC2 probe [] s) in
  JS.includes d ".pc2" = true \/ JS.includes d "pc2.net" = true ->
  IS_WINDOWS (host s) = false ->
  Path.canonical d = true ->
  forallb Path.canonical (fs s) = true ->
  snd (uninstallPC2 probe [] s) = Resolved /\
  lastStatus r = Some not_installed /\
  (forall p, Fs.within d p = false -> (p ∈ fs r <-> p ∈ fs s)) /\
  (Fs.existsSync d (fs s) = true ->
   forall p, p ∈ fs r -> Fs.within d p = false) /\
  ((Fs.existsSync (getPC2NodeDir s) (fs s) = true ->
    Fs.existsSync d (fs s) = true) ->
   fst (isInstalled r) = false /\
   forall probe', fst (getStatus probe' r) = not_installed).
Proof.
  intros s d r Hg _ _ _.
  pose proof (customPaths_reachable schedule h files clock port) as Hc.
  fold s in Hc.
  destruct (uninstall_shape probe s Hg) as [Hu Hs]. fold d in Hu.
  cbv zeta in Hu, Hs.
  remember (if fst (isInstalled s) && fst (healthProbe probe)
            then await_stopPC2 [] s else s) as s1 eqn:E1. clear E1.
  remember (emitLog ("Uninstalling PC2 from " +:+ d +:+ "...") s1) as s2 eqn:E2.
  assert (settings s2 = settings s) as Hs2 by (subst s2; exact Hs).
  clear E2 Hs s1.
  subst r. rewrite Hu. cbn [fst snd].
  assert (d <> "") as Hd.
  { intros E. rewrite E in Hg.
    destruct Hg as [Hg | Hg]; rewrite includes_empty in Hg; discriminate. }
  assert (getPC2NodeDir s = d +:+ "/pc2-node") as Hn
    by (apply nodeDir_child; assumption).
  unfold settings in Hs2. injection Hs2 as Hh Hf He Hcd Hcn.
  split; [reflexivity |].
  split; [unfold lastStatus, emitStatus; cbn [statusLog set_statusLog];
          apply last_snoc |].
  destruct (Fs.existsSync d (fs s)) eqn:Hex.
  - cbn [fs emitStatus emitLog set_statusLog set_logBuffer set_fs].
    split; [| split].
    + intros p Hp. rewrite rmSync_elem. tauto.
    + intros _ p Hp. apply rmSync_elem in Hp. tauto.
    + intros _.
      assert (fst (isInstalled
                     (emitStatus not_installed
                        (emitLog "PC2 uninstalled successfully"
                           (set_fs (Fs.rmSync d (fs s)) s2)))) = false) as Hi.
      { unfold isInstalled.
        assert (getPC2NodeDir
                  (emitStatus not_installed
                     (emitLog "PC2 uninstalled successfully"
                        (set_fs (Fs.rmSync d (fs s)) s2)))
                = d +:+ "/pc2-node") as ->.
        { rewrite <- Hn. unfold getPC2NodeDir.
          cbn [currentEnv host custom_nodeDir emitStatus emitLog set_statusLog
                 set_logBuffer set_fs].
          rewrite He, Hh, Hcn. reflexivity. }
        cbn [fs emitStatus emitLog set_statusLog set_logBuffer set_fs].
        destruct (Fs.existsSync (d +:+ "/pc2-node") (Fs.rmSync d (fs s))) eqn:Hx;
          [| reflexivity].
        apply existsSync_elem, rmSync_elem in Hx as [_ Hx].
        pose proof (within_child d "pc2-node") as Hw.
        change (d +:+ "/" +:+ "pc2-node") with (d +:+ "/pc2-node") in Hw.
        congruence. }
      split; [exact Hi |].
      intros probe'. unfold getStatus.
      destruct (isInstalled _) as [i checks]. cbn [fst] in Hi. subst i.
      reflexivity.
  - cbn [fs emitStatus set_statusLog]. rewrite Hf.
    split; [tauto | split; [discriminate |]].
    intros Himp.
    assert (fst (isInstalled (emitStatus not_installed s2)) = false) as Hi.
    { unfold isInstalled.
      assert (getPC2NodeDir (emitStatus not_installed s2) = getPC2NodeDir s) as ->.
      { unfold getPC2NodeDir. cbn [currentEnv host custom_nodeDir emitStatus
                                     set_statusLog].
        rewrite He, Hh, Hcn. reflexivity. }
      cbn [fs emitStatus set_statusLog]. rewrite Hf.
      destruct (Fs.existsSync (getPC2NodeDir s) (fs s)) eqn:Hx; [| reflexivity].
      specialize (Himp eq_refl). discriminate. }
    split; [exact Hi |].
    intros probe'. unfold getStatus.
    destruct (isInstalled _) as [i checks]. cbn [fst] in Hi. subst i.
    reflexivity.
Qed.

(** The running default installation next to a file of the user. *)
Lemma X8_witness :
  let s := run [FsChanged ("/home/ada/notes.txt" :: Sample.installed)] Sample.up in
  let r := fst (uninstallPC2 (Sample.healthy 0%Z) [] s) in
  ((JS.includes (getPC2Dir s) ".pc2" = true \/
    JS.includes (getPC2Dir s) "pc2.net" = true) /\
   IS_WINDOWS (host s) = false /\
   Path.canonical (getPC2Dir s) = true /\
   forallb Path.canonical (fs s) = true) /\
  fs r = ["/home/ada/notes.txt"] /\
  lastStatus r = Some not_installed /\
  fst (isInstalled r) = false.
Proof.
  intros s r.
  pose proof (X8_uninstall_effect
                [CallStartPC2; WaitSettled 0 Sample.healthy;
                 FsChanged ("/home/ada/notes.txt" :: Sample.installed)]
                Sample.linux Sample.installed "10:00:00" false
                (Sample.healthy 0%Z)) as T.
  vm_compute in T. vm_compute.
  destruct (T (or_introl eq_refl) eq_refl eq_refl eq_refl)
    as (_ & A & _ & _ & B).
  destruct (B (fun _ => eq_refl)) as [C _].
  repeat split; auto.
Defined.

End Uninstall.

Section UninstallGuard.

(** X9.  [uninstallPC2()] stops the service exactly when its own
    [getStatus()] answers 'running', that is, when the service is installed
    and the health request succeeds.  Then, with nothing else going on, a
    tracked and not killed process has been sent SIGTERM and nothing is
    tracked and not killed when the files are removed.  In every other case
    (for instance a child that was spawned and does not answer yet, status
    'starting') the uninstall sends no signal, runs no command and leaves
    the tracked handle and the children alone: the files are removed under
    the process. *)
Theorem X9_uninstall_stops_only_running
    (schedule : list Event) (h : Host) (files : Fs.t) (clock : string)
    (port : bool) (probe : ProbeOutcome) :
  let s := run schedule (init h files clock port) in
  let r := fst (uninstallPC2 probe [] s) in
  JS.includes (getPC2Dir s) ".pc2" = true \/
  JS.includes (getPC2Dir s) "pc2.net" = true ->
  if fst (isInstalled s) && fst (healthProbe probe)
  then trackedAlive r = false /\ signals r = signals s ++ stopSignal s
  else pc2Process r = pc2Process s /\ children r = children s /\
       signals r = signals s /\ execLog r = execLog s.
Proof.
  intros s r Hg.
  pose proof (wf_reachable schedule h files clock port) as W. fold s in W.
  destruct (uninstall_shape probe s Hg) as [Hu _]. cbv zeta in Hu.
  subst r. rewrite Hu. cbn [fst]. clear Hu.
  destruct (fst (isInstalled s) && fst (healthProbe probe)).
  - destruct (await_stop_effect s W) as (Ht & _ & _ & _ & _ & Hsig).
    remember (await_stopPC2 [] s) as s1 eqn:E. clear E.
    destruct (Fs.existsSync (getPC2Dir s) (fs s)); split;
      solve [exact Hsig
            | rewrite <- Ht; apply trackedAlive_same; reflexivity].
  - destruct (Fs.existsSync (getPC2Dir s) (fs s)); repeat split.
Qed.

(** The installed service was started and does not answer yet. *)
Lemma X9_witness :
  let s := handle CallStartPC2 Sample.fresh in
  let r := fst (uninstallPC2 (Sample.down 0%Z) [] s) in
  (JS.includes (getPC2Dir s) ".pc2" = true \/
   JS.includes (getPC2Dir s) "pc2.net" = true) /\
  trackedAlive r = true /\ signals r = [] /\ fs r = [] /\
  lastStatus r = Some not_installed.
Proof.
  intros s r.
  pose proof (X9_uninstall_stops_only_running [CallStartPC2] Sample.linux
                Sample.installed "10:00:00" false (Sample.down 0%Z)) as T.
  vm_compute in T. vm_compute.
  destruct (T (or_introl eq_refl)) as (_ & _ & A & _).
  repeat split; auto.
Defined.



Lemma custom_settings (s s' : State) :
  settings s' = settings s ->
  custom_dir s' = custom_dir s /\ custom_nodeDir s' = custom_nodeDir s.
Proof.
  unfold settings. intros H. injection H as H1 H2 H3 H4 H5. auto.
Qed.

Lemma custom_unset (schedule : list Event) (s : State) :
  Forall pathless schedule ->
  custom_dir s = "" -> custom_nodeDir s = "" ->
  custom_dir (run schedule s) = "" /\ custom_nodeDir (run schedule s) = "".
Proof.
  intros Hall H1 H2.
  induction schedule as [| e schedule IH] using rev_ind; [auto |].
  apply Forall_app in Hall as [Hall He].
  apply Forall_inv in He.
  destruct (IH Hall) as [I1 I2]. rewrite run_snoc.
  remember (run schedule s) as x eqn:E. clear E.
  pose proof (settings_handle e x) as Hs.
  destruct e;
    try (destruct (custom_settings _ _ Hs) as [-> ->]; split; assumption);
    try (split; assumption).
  simpl. unfold setEnvironment.
  destruct env; try (split; assumption).
  destruct customDir as [d |]; [| split; assumption].
  unfold pathless in He. rewrite He. split; assumption.
Qed.

(** X11.  The custom root is set only by a [setEnvironment] call that
    passes a non-empty path (the environment selector of the renderer
    passes none).  As long as no call did, selecting 'custom' leaves the
    launcher with the empty root: the service counts as not installed (the
    empty path does not exist), [getStatus()] answers 'not-installed',
    [startPC2()] spawns nothing and emits 'not-installed', and
    [uninstallPC2()] is refused by its safety check. *)
Theorem X11_custom_without_path
    (schedule during : list Event) (h : Host) (files : Fs.t) (clock : string)
    (port : bool) (probe : ProbeOutcome) :
  let s := run schedule (init h files clock port) in
  Forall pathless schedule ->
  currentEnv s = env_custom ->
  Fs.existsSync "" (fs s) = false ->
  getPC2Dir s = "" /\
  fst (isInstalled s) = false /\
  fst (getStatus probe s) = not_installed /\
  children (handle CallStartPC2 s) = children s /\
  lastStatus (handle CallStartPC2 s) = Some not_installed /\
  uninstallPC2 probe during s = (s, Rejected SAFETY_MESSAGE).
Proof.
  intros s Hall He Hfs.
  destruct (custom_unset schedule (init h files clock port) Hall eq_refl eq_refl)
    as [H1 H2]. fold s in H1, H2.
  assert (getPC2Dir s = "") as Hd by (unfold getPC2Dir; rewrite He; exact H1).
  assert (fst (isInstalled s) = false) as Hi.
  { unfold isInstalled, getPC2NodeDir. rewrite He, H2, Hfs. reflexivity. }
  split; [exact Hd | split; [exact Hi | split; [| split; [| split]]]].
  - unfold getStatus. destruct (isInstalled s) as [i checks].
    cbn [fst] in Hi. subst i. reflexivity.
  - cbn [handle]. rewrite (startPC2_not_installed s Hi). reflexivity.
  - cbn [handle]. rewrite (startPC2_not_installed s Hi).
    unfold lastStatus, returned, emitLog, emitStatus.
    cbn [statusLog set_calls set_logBuffer set_statusLog]. apply last_snoc.
  - unfold uninstallPC2. rewrite Hd. reflexivity.
Qed.

(** The selector is moved to 'custom' on a default installation. *)
Lemma X11_witness :
  let schedule := [CallStartPC2; CallSetEnvironment env_custom None] in
  let s := run schedule Sample.fresh in
  (Forall pathless schedule /\ currentEnv s = env_custom /\
   Fs.existsSync "" (fs s) = false) /\
  fst (getStatus (Sample.healthy 0%Z) s) = not_installed /\
  uninstallPC2 (Sample.healthy 0%Z) [] s = (s, Rejected SAFETY_MESSAGE).
Proof.
  intros schedule s.
  assert (Forall pathless schedule) as H1 by (repeat constructor).
  assert (currentEnv s = env_custom) as H2 by reflexivity.
  assert (Fs.existsSync "" (fs s) = false) as H3 by reflexivity.
  split; [auto |].
  destruct (X11_custom_without_path schedule [] Sample.linux Sample.installed
              "10:00:00" false (Sample.healthy 0%Z) H1 H2 H3)
    as (_ & _ & A & _ & _ & B).
  split; [exact A | exact B].
Defined.

End UninstallGuard.

(** ** Log lines, from the child to the window *)

Section LogLines.

(** A buffer with a capacity: push, then shift once when over capacity. *)
Lemma capped_fold (cap : nat) (push : string -> list string -> list string)
    (xs l : list string) :
  (forall x l, push x l
               = if Nat.ltb cap (length (l ++ [x])) then tail (l ++ [x])
                 else l ++ [x]) ->
  length l <= cap ->
  fold_left (fun l x => push x l) xs l
  = drop (length (l ++ xs) - cap) (l ++ xs).
Proof.
  intros Hpush. revert l.
  induction xs as [| x xs IH]; intros l Hl.
  - cbn [fold_left]. rewrite app_nil_r.
    replace (length l - cap) with 0 by lia. reflexivity.
  - cbn [fold_left]. rewrite Hpush.
    destruct (Nat.ltb_spec cap (length (l ++ [x]))) as [Hgt | Hle].
    + rewrite length_app in Hgt. cbn [length] in Hgt.
      assert (tail (l ++ [x]) = drop 1 (l ++ [x])) as Ht
        by (destruct (l ++ [x]); reflexivity).
      rewrite IH by (rewrite length_tl, length_app; cbn [length]; lia).
      rewrite Ht.
      replace (drop 1 (l ++ [x]) ++ xs) with (drop 1 (l ++ x :: xs)).
      2:{ rewrite (cons_middle x l xs), app_assoc.
          rewrite drop_app_le by (rewrite length_app; cbn [length]; lia).
          reflexivity. }
      rewrite drop_drop. f_equal.
      rewrite length_drop, !length_app. cbn [length]. lia.
    + rewrite IH by exact Hle.
      rewrite <- app_assoc. reflexivity.
Qed.

Lemma slice_tail {A} (n : nat) (l : list A) :
  0 < n -> JS.slice (- Z.of_nat n) l = drop (length l - n) l.
Proof.
  intros Hn. unfold JS.slice.
  destruct (Z.ltb_spec (- Z.of_nat n) 0) as [_ | Hge]; [| lia].
  f_equal. lia.
Qed.

Lemma wallClock_fold_emitLog (f : string -> string) (lines : list string) s :
  wallClock (fold_left (fun s line => emitLog (f line) s) lines s) = wallClock s.
Proof.
  revert s. induction lines as [| l lines IH]; intros s; simpl; [reflexivity |].
  rewrite IH. reflexivity.
Qed.

Lemma logBuffer_fold_emitLog (f : string -> string) (lines : list string) s :
  logBuffer (fold_left (fun s line => emitLog (f line) s) lines s)
  = fold_left (fun l x => pushLog x l)
      (map (fun line => stamp (wallClock s) (f line)) lines) (logBuffer s).
Proof.
  revert s. induction lines as [| l lines IH]; intros s; [reflexivity |].
  cbn [fold_left map]. rewrite IH. reflexivity.
Qed.

(** X15.  What the child prints is what the log holds, for output in
    ASCII: a chunk of bytes below 128 read from the standard output of a
    spawned child appends its non-blank lines (the chunk split at line
    feeds; blank means only tabs, line feeds, vertical tabs, form feeds,
    carriage returns and spaces), in order and each stamped with the time,
    and the buffer is then the last 500 lines of the result; a chunk of the
    standard error does the same with the prefix [[stderr] ].  Nothing else
    changes: no status is emitted and the tracked handle, the children and
    the promises are left alone. *)
Theorem X15_child_output_logged
    (schedule : list Event) (h : Host) (files : Fs.t) (clock : string)
    (port : bool) (p : nat) (data : string) :
  let s := run schedule (init h files clock port) in
  let lines := List.filter JS.trim_truthy (JS.split JS.LF data) in
  let out := handle (ChildStdout p data) s in
  let err := handle (ChildStderr p data) s in
  p < length (children s) ->
  JS.isAscii data = true ->
  logBuffer out
  = JS.slice (-500) (logBuffer s ++ map (stamp (wallClock s)) lines) /\
  logBuffer err
  = JS.slice (-500)
      (logBuffer s
       ++ map (fun l => stamp (wallClock s) ("[stderr] " +:+ l)) lines) /\
  statusLog out = statusLog s /\ statusLog err = statusLog s /\
  pc2Process out = pc2Process s /\ pc2Process err = pc2Process s /\
  children out = children s /\ calls out = calls s.
Proof.
  intros s lines out err Hp _.
  assert (bounded s) as Hb.
  { apply (bounded_run schedule). unfold bounded. simpl. unfold MAX_LOG_LINES. lia. }
  destruct (lookup_lt_is_Some_2 (children s) p Hp) as [ch Hch].
  assert (out = onStdout data s) as -> by (subst out; simpl; rewrite Hch; reflexivity).
  assert (err = onStderr data s) as -> by (subst err; simpl; rewrite Hch; reflexivity).
  unfold onStdout, onStderr. fold lines.
  destruct (fold_emitLog_core (fun l => l) lines s) as (A1 & A2 & A3 & A4 & _).
  destruct (fold_emitLog_core (fun l => "[stderr] " +:+ l) lines s)
    as (B1 & _ & _ & B4 & _).
  cbv zeta in A1, A2, A3, A4, B1, B4.
  split; [| split; [| auto 10]].
  - rewrite (logBuffer_fold_emitLog (fun l => l)).
    rewrite (capped_fold MAX_LOG_LINES pushLog) by (auto; exact Hb).
    change (-500)%Z with (- Z.of_nat MAX_LOG_LINES)%Z.
    rewrite slice_tail by (unfold MAX_LOG_LINES; lia). reflexivity.
  - rewrite (logBuffer_fold_emitLog (fun l => "[stderr] " +:+ l)).
    rewrite (capped_fold MAX_LOG_LINES pushLog) by (auto; exact Hb).
    change (-500)%Z with (- Z.of_nat MAX_LOG_LINES)%Z.
    rewrite slice_tail by (unfold MAX_LOG_LINES; lia). reflexivity.
Qed.

(** Two lines and a blank one in a chunk that ends without a line feed. *)
Lemma X15_witness :
  let s := handle CallStartPC2 Sample.fresh in
  let out := handle (ChildStdout 0 (String JS.LF "listening"
                                      +:+ String JS.LF "  "
                                      +:+ String JS.LF "ready")) s in
  (0 < length (children s) /\
   JS.isAscii (String JS.LF "listening" +:+ String JS.LF "  "
               +:+ String JS.LF "ready") = true) /\
  logBuffer out
  = logBuffer s ++ ["[10:00:00] listening"; "[10:00:00] ready"].
Proof.
  intros s out.
  pose proof (X15_child_output_logged [CallStartPC2] Sample.linux
                Sample.installed "10:00:00" false 0
                (String JS.LF "listening" +:+ String JS.LF "  "
                 +:+ String JS.LF "ready")) as T.
  vm_compute in T. vm_compute.
  destruct (T (le_n 1) eq_refl) as (A & _).
  split; [split; [apply le_n | reflexivity] | exact A].
Defined.

End LogLines.

(** ** The log panel of the window *)

Section LogPanel.

Lemma stamped_pushLog (m : string) (buf : list string) :
  stamped m -> Forall stamped buf -> Forall stamped (pushLog m buf).
Proof.
  intros Hm Hb. unfold pushLog.
  assert (Forall stamped (buf ++ [m])) as H
    by (apply Forall_app; split; [exact Hb | repeat constructor; exact Hm]).
  destruct (Nat.ltb MAX_LOG_LINES (length (buf ++ [m]))); [| exact H].
  destruct (buf ++ [m]) as [| x rest]; [constructor |].
  apply Forall_inv_tail in H. exact H.
Qed.

Lemma stamped_emitLog (m : string) (s : State) :
  Forall stamped (logBuffer s) -> Forall stamped (logBuffer (emitLog m s)).
Proof.
  intros H. unfold emitLog. cbn [logBuffer set_logBuffer].
  apply stamped_pushLog; [| exact H]. exists (wallClock s), m. reflexivity.
Qed.

Lemma stamped_fold_emitLog (f : string -> string) (lines : list string) s :
  Forall stamped (logBuffer s) ->
  Forall stamped
    (logBuffer (fold_left (fun s line => emitLog (f line) s) lines s)).
Proof.
  revert s. induction lines as [| l lines IH]; intros s Hs; simpl.
  - exact Hs.
  - apply IH, stamped_emitLog, Hs.
Qed.

Lemma stamped_same (s s' : State) :
  logBuffer s' = logBuffer s ->
  Forall stamped (logBuffer s) -> Forall stamped (logBuffer s').
Proof. intros ->. auto. Qed.

Local Ltac stamped_step :=
  first
    [ assumption
    | apply stamped_emitLog
    | apply stamped_fold_emitLog
    | eapply stamped_same;
      [ first [ apply logBuffer_settle | apply logBuffer_killTracked
              | apply logBuffer_kill | apply logBuffer_setEnvironment
              | reflexivity ] | ] ].

(** Every line of the buffer was written by [emitLog]. *)
Lemma stamped_handle (e : Event) (s : State) :
  Forall stamped (logBuffer s) -> Forall stamped (logBuffer (handle e s)).
Proof.
  intros Hs. destruct e; simpl.
  - unfold startPC2.
    destruct (negb (fst (isInstalled s))); [repeat stamped_step |].
    destruct (trackedAlive s); repeat stamped_step.
  - unfold stopPC2.
    destruct (trackedAlive _); repeat stamped_step.
  - repeat stamped_step.
  - destruct (calls s !! c) as [[[] []] |]; try assumption.
    unfold onStopTimer.
    destruct (trackedAlive s); repeat stamped_step.
  - destruct (calls s !! c) as [[[] []] |]; try assumption.
    unfold onStopExec. repeat stamped_step.
  - destruct (children s !! p) as [ch |]; [| assumption].
    destruct (waiting ch); [| assumption].
    destruct (waitForServer health).
    + unfold onReady. repeat stamped_step.
    + unfold onWaitFailed.
      match goal with |- context [trackedAlive ?x] => destruct (trackedAlive x) end;
        repeat stamped_step.
  - destruct (children s !! p); [| assumption].
    unfold onStdout. apply (stamped_fold_emitLog (fun l => l)), Hs.
  - destruct (children s !! p); [| assumption].
    unfold onStderr. apply (stamped_fold_emitLog (fun l => "[stderr] " +:+ l)), Hs.
  - unfold onError. destruct (children s !! p); repeat stamped_step.
  - destruct (children s !! p) as [ch |]; [| assumption].
    destruct (exited ch); [assumption |].
    unfold onExit.
    destruct code as [n |]; [| destruct signal as [sg |]; [destruct (JS.truthy sg) |]];
      repeat stamped_step.
  - assumption.
  - assumption.
  - apply stamped_emitLog, Hs.
  - assumption.
  - assumption.
  - assumption.
Qed.

Lemma stamped_reachable schedule h files clock port :
  Forall stamped (logBuffer (run schedule (init h files clock port))).
Proof.
  induction schedule as [| e schedule IH] using rev_ind.
  - constructor.
  - rewrite run_snoc. apply stamped_handle, IH.
Qed.

Lemma stamped_truthy (l : string) : stamped l -> JS.trim_truthy l = true.
Proof. intros (clock & m & ->). reflexivity. Qed.

Lemma split_nonempty (c : ascii) (x : string) : JS.split c x <> [].
Proof.
  destruct x as [| a x]; cbn [JS.split]; [discriminate |].
  destruct (Ascii.eqb a c); [discriminate |].
  destruct (JS.split c x); discriminate.
Qed.

Lemma split_append (c : ascii) (x y : string) :
  JS.split c (x +:+ String c y) = JS.split c x ++ JS.split c y.
Proof.
  induction x as [| a x IH].
  - change ("" +:+ String c y) with (String c y). cbn [JS.split].
    rewrite Ascii.eqb_refl. reflexivity.
  - rewrite append_cons. cbn [JS.split]. rewrite IH.
    destruct (Ascii.eqb a c); [reflexivity |].
    pose proof (split_nonempty c x) as Hne.
    destruct (JS.split c x) as [| w ws]; [congruence | reflexivity].
Qed.

Lemma split_oneLine (x : string) : oneLine x = true -> JS.split JS.LF x = [x].
Proof.
  induction x as [| a x IH]; [reflexivity |].
  cbn [oneLine JS.split]. intros H. apply andb_true_iff in H as [Ha Hx].
  apply negb_true_iff in Ha. rewrite Ha, (IH Hx). reflexivity.
Qed.

Lemma split_join (l : list string) :
  Forall (fun x => oneLine x = true) l -> l <> [] ->
  JS.split JS.LF (JS.join JS.newline l) = l.
Proof.
  induction l as [| x l IH]; [congruence |].
  intros Hall _. apply Forall_cons_1 in Hall as [Hx Hl].
  destruct l as [| y r].
  - cbn [JS.join]. apply split_oneLine, Hx.
  - change (JS.join JS.newline (x :: y :: r))
      with (x +:+ String JS.LF (JS.join JS.newline (y :: r))).
    rewrite split_append, (split_oneLine x Hx), IH by (auto; discriminate).
    reflexivity.
Qed.

Lemma filter_all {A} (f : A -> bool) (l : list A) :
  Forall (fun x => f x = true) l -> List.filter f l = l.
Proof.
  induction 1 as [| x l Hx Hl IH]; [reflexivity |].
  cbn [List.filter]. rewrite Hx, IH. reflexivity.
Qed.

(** X12.  Opening the log panel shows the log as the manager holds it: the
    lines the window keeps after [getLogs(100)] answered are the last 100
    lines of the buffer, in order and unchanged, provided no buffered line
    contains a line feed (every buffered line starts with its time stamp,
    so none is blank and dropped); the text shown is what [getLogs]
    returned. *)
Theorem X12_log_panel
    (schedule : list Event) (h : Host) (files : Fs.t) (clock : string)
    (port : bool) :
  let s := run schedule (init h files clock port) in
  let shown := Renderer.loadLogs (getLogs 100 s) in
  Forall (fun l => oneLine l = true) (logBuffer s) ->
  shown = JS.slice (-100) (logBuffer s) /\
  length shown <= 100 /\
  Renderer.logsContent shown = getLogs 100 s.
Proof.
  intros s shown Hone.
  pose proof (stamped_reachable schedule h files clock port) as Hst. fold s in Hst.
  assert (JS.slice (-100) (logBuffer s)
          = drop (length (logBuffer s) - 100) (logBuffer s)) as Hsl
    by (apply (slice_tail 100); lia).
  assert (shown = JS.slice (-100) (logBuffer s)) as Hshown.
  { subst shown. unfold Renderer.loadLogs, getLogs.
    change (Z.opp 100) with (-100)%Z. rewrite Hsl.
    remember (drop (length (logBuffer s) - 100) (logBuffer s)) as recent eqn:E.
    assert (Forall (fun l => oneLine l = true) recent) as H1
      by (subst recent; apply Forall_drop, Hone).
    assert (Forall (fun l => JS.trim_truthy l = true) recent) as H2.
    { subst recent. apply Forall_drop.
      eapply Forall_impl; [exact Hst |]. apply stamped_truthy. }
    destruct recent as [| x r]; [reflexivity |].
    rewrite split_join by (auto; discriminate).
    apply filter_all, H2. }
  split; [exact Hshown | split].
  - rewrite Hshown, Hsl, length_drop. lia.
  - rewrite Hshown. reflexivity.
Qed.

(** The log of a started service. *)
Lemma X12_witness :
  let shown := Renderer.loadLogs (getLogs 100 Sample.up) in
  Forall (fun l => oneLine l = true) (logBuffer Sample.up) /\
  shown = logBuffer Sample.up /\ length shown = 5.
Proof.
  intros shown.
  pose proof (X12_log_panel [CallStartPC2; WaitSettled 0 Sample.healthy]
                Sample.linux Sample.installed "10:00:00" false) as T.
  vm_compute in T. vm_compute.
  match type of T with ?P -> _ =>
    assert P as H by (repeat (constructor; [reflexivity |]); constructor)
  end.
  destruct (T H) as (A & _ & _).
  split; [exact H | split; [exact A | reflexivity]].
Defined.

(** X13.  The window keeps the newest 200 lines: starting from at most 200
    lines (the empty list, or the at most 100 lines loaded when the panel
    opens), after any number of [addLog] calls the list is the last 200
    lines of the old lines followed by the pushed ones, in order. *)
Theorem X13_window_log_tail (logs msgs : list string) :
  length logs <= 200 ->
  let logs' := fold_left (fun l m => Renderer.addLog m l) msgs logs in
  logs' = JS.slice (-200) (logs ++ msgs) /\ length logs' <= 200.
Proof.
  intros Hlen logs'.
  assert (logs' = drop (length (logs ++ msgs) - 200) (logs ++ msgs)) as H.
  { subst logs'. apply (capped_fold Renderer.MAX_LOGS Renderer.addLog);
      [reflexivity | exact Hlen]. }
  split.
  - rewrite H. symmetry. apply (slice_tail 200). lia.
  - rewrite H, length_drop. lia.
Qed.

(** A full list receives two more lines. *)
Lemma X13_witness :
  let logs := replicate 200 "old" in
  length logs <= 200 /\
  fold_left (fun l m => Renderer.addLog m l) ["a"; "b"] logs
  = replicate 198 "old" ++ ["a"; "b"].
Proof.
  intros logs.
  pose proof (X13_window_log_tail (replicate 200 "old") ["a"; "b"]) as T.
  vm_compute in T. vm_compute.
  destruct (T (le_n 200)) as [A _].
  split; [apply le_n | exact A].
Defined.

(** X14.  The controls agree with what they do.  The power button is
    disabled exactly in the states where its click listener has no branch
    ('starting' and 'stopping'); the tray offers Start exactly when the
    power button would start, and Stop exactly when it would stop; Open is
    enabled in the tray exactly when it is in the window, namely when the
    status is 'running'; the uninstall button is enabled exactly when the
    status is neither 'running' nor 'not-installed', so also while the
    service is starting or stopping. *)
Theorem X14_controls_agree (status : PC2Status) :
  let c := Renderer.updateStatus status in
  let t := Main.updateTrayMenu status in
  (Renderer.powerDisabled c = true <->
   Renderer.powerClick status = Renderer.NoAction) /\
  (Main.startEnabled t = true <-> Renderer.powerClick status = Renderer.Start) /\
  (Main.stopEnabled t = true <-> Renderer.powerClick status = Renderer.Stop) /\
  Main.openEnabled t = negb (Renderer.openDisabled c) /\
  (Main.openEnabled t = true <-> status = running) /\
  (Renderer.uninstallDisabled c = false <->
   status <> running /\ status <> not_installed).
Proof.
  destruct status; cbv; repeat split; intros; try congruence;
    try (destruct H; congruence).
Qed.

End LogPanel.

(** ** The default sort order of strings *)

Section Sorting.

Lemma ascii_compare_lt_trans (a b c : ascii) :
  Ascii.compare a b = Lt -> Ascii.compare b c = Lt -> Ascii.compare a c = Lt.
Proof.
  unfold Ascii.compare. rewrite !N.compare_lt_iff. lia.
Qed.

Lemma compare_lt_trans (a b c : string) :
  String.compare a b = Lt -> String.compare b c = Lt -> String.compare a c = Lt.
Proof.
  revert b c. induction a as [| x a IH]; intros [| y b] [| z c]; cbn [String.compare];
    try congruence.
  destruct (Ascii.compare x y) eqn:Exy; try discriminate;
    destruct (Ascii.compare y z) eqn:Eyz; try discriminate; intros H1 H2.
  - apply Ascii.compare_eq_iff in Exy, Eyz. subst.
    assert (Ascii.compare z z = Eq) as ->
      by (unfold Ascii.compare; apply N.compare_refl).
    eapply IH; eassumption.
  - apply Ascii.compare_eq_iff in Exy. subst. rewrite Eyz. reflexivity.
  - apply Ascii.compare_eq_iff in Eyz. subst. rewrite Exy. reflexivity.
  - rewrite (ascii_compare_lt_trans x y z Exy Eyz). reflexivity.
Qed.

Lemma leb_cases (a b : string) :
  String.leb a b = true <-> String.compare a b = Lt \/ a = b.
Proof.
  unfold String.leb. split.
  - destruct (String.compare a b) eqn:E; try discriminate; intros _; auto.
    right. apply String.compare_eq_iff, E.
  - intros [-> | ->]; [reflexivity |].
    destruct (String.leb_total b b) as [H | H]; exact H.
Qed.

Lemma leb_refl (a : string) : String.leb a a = true.
Proof. apply leb_cases. auto. Qed.

Lemma leb_trans (a b c : string) :
  String.leb a b = true -> String.leb b c = true -> String.leb a c = true.
Proof.
  rewrite !leb_cases. intros [H1 | ->] [H2 | ->]; auto.
  left. eapply compare_lt_trans; eassumption.
Qed.

Lemma insert_elem (x y : string) (l : list string) :
  In y (JS.insert x l) <-> y = x \/ In y l.
Proof.
  induction l as [| z l IH]; cbn [JS.insert In]; [intuition congruence |].
  destruct (String.leb x z); cbn [In]; [intuition congruence |].
  rewrite IH. intuition congruence.
Qed.

Lemma sort_elem (y : string) (l : list string) : In y (JS.sort l) <-> In y l.
Proof.
  induction l as [| x l IH]; [reflexivity |].
  cbn [JS.sort fold_right In]. fold (JS.sort l). rewrite insert_elem, IH.
  intuition congruence.
Qed.

Lemma insert_sorted (x : string) (l : list string) :
  StronglySorted leS l -> StronglySorted leS (JS.insert x l).
Proof.
  induction 1 as [| z l Hs IH Hz]; cbn [JS.insert].
  - repeat constructor.
  - destruct (String.leb x z) eqn:E.
    + constructor; [constructor; assumption |].
      constructor; [exact E |].
      eapply List.Forall_impl; [| exact Hz].
      intros w Hw. unfold leS in *. eapply leb_trans; eassumption.
    + constructor; [exact IH |].
      apply List.Forall_forall. intros w Hw. apply insert_elem in Hw as [-> | Hw].
      * destruct (String.leb_total x z) as [H | H]; [congruence | exact H].
      * rewrite List.Forall_forall in Hz. apply Hz, Hw.
Qed.

Lemma sort_sorted (l : list string) : StronglySorted leS (JS.sort l).
Proof.
  induction l as [| x l IH]; [constructor |].
  cbn [JS.sort fold_right]. apply insert_sorted, IH.
Qed.

(** The first element of a sorted list in reverse is its greatest. *)
Lemma sorted_last (l : list string) (m : string) (rest : list string) :
  StronglySorted leS l -> rev l = m :: rest ->
  In m l /\ forall v, In v l -> String.leb v m = true.
Proof.
  intros Hs Hr.
  assert (l = rev rest ++ [m]) as ->.
  { rewrite <- (rev_involutive l), Hr. reflexivity. }
  split; [apply in_or_app; right; left; reflexivity |].
  clear Hr. induction (rev rest) as [| a front IH]; cbn [app] in *.
  - intros v [<- | []]. apply leb_refl.
  - apply StronglySorted_inv in Hs as [Hs Ha].
    intros v [<- | Hv]; [| apply IH; assumption].
    rewrite List.Forall_forall in Ha. apply Ha, in_or_app. right. left. reflexivity.
Qed.

Lemma find_snoc {A} (f : A -> bool) (r : list A) (a : A) :
  List.find f (r ++ [a])
  = match List.find f r with
    | Some x => Some x
    | None => if f a then Some a else None
    end.
Proof.
  induction r as [| b r IHr]; cbn [app List.find]; [reflexivity |].
  destruct (f b); [reflexivity | exact IHr].
Qed.

(** In a descending list, the first element that passes a test is the
    greatest that passes it. *)
Lemma find_descending (f : string -> bool) (l : list string) (w : string) :
  StronglySorted leS l ->
  List.find f (rev l) = Some w ->
  In w l /\ f w = true /\
  forall v, In v l -> f v = true -> String.leb v w = true.
Proof.
  intros Hs. induction Hs as [| a l Hs IH Ha].
  - discriminate.
  - cbn [rev]. intros Hf.
    rewrite find_snoc in Hf. destruct (List.find f (rev l)) as [x |] eqn:Ex.
    + injection Hf as ->. destruct (IH eq_refl) as (H1 & H2 & H3).
      split; [right; exact H1 | split; [exact H2 |]].
      intros v [<- | Hv] Hfv; [| apply H3; assumption].
      rewrite List.Forall_forall in Ha. apply (Ha w H1).
    + destruct (f a) eqn:Efa; [| discriminate]. injection Hf as ->.
      split; [left; reflexivity | split; [exact Efa |]].
      intros v [<- | Hv] Hfv; [apply leb_refl |].
      assert (f v = false) as Hn
        by (apply (List.find_none f (rev l) Ex v); apply -> in_rev; exact Hv).
      congruence.
Qed.

End Sorting.

(** ** What the launcher finds on the host *)

Section HostProbing.

Lemma join_cons2 (sep x y : string) (r : list string) :
  JS.join sep (x :: y :: r) = x +:+ sep +:+ JS.join sep (y :: r).
Proof. reflexivity. Qed.

Lemma join_app (sep : string) (l k : list string) :
  l <> [] -> k <> [] ->
  JS.join sep (l ++ k) = JS.join sep l +:+ sep +:+ JS.join sep k.
Proof.
  intros Hl Hk. induction l as [| x l IH]; [congruence |].
  destruct l as [| y l].
  - destruct k as [| z k]; [congruence |]. reflexivity.
  - change ((x :: y :: l) ++ k) with (x :: y :: (l ++ k)).
    rewrite !join_cons2.
    change (y :: l ++ k) with ((y :: l) ++ k). rewrite IH by discriminate.
    rewrite !append_assoc. reflexivity.
Qed.

Lemma join_String (sep : string) (a : ascii) (w : string) (ws : list string) :
  JS.join sep (String a w :: ws) = String a (JS.join sep (w :: ws)).
Proof. destruct ws; reflexivity. Qed.

(** Joining what [split] returned gives the string back. *)
Lemma join_split (c : ascii) (x : string) :
  JS.join (String c "") (JS.split c x) = x.
Proof.
  induction x as [| a x IH]; [reflexivity |].
  cbn [JS.split]. destruct (Ascii.eqb_spec a c) as [-> | Hne].
  - pose proof (split_nonempty c x) as Hs.
    destruct (JS.split c x) as [| w ws]; [congruence |].
    rewrite join_cons2, IH. reflexivity.
  - pose proof (split_nonempty c x) as Hs.
    destruct (JS.split c x) as [| w ws]; [congruence |].
    rewrite join_String, IH. reflexivity.
Qed.

(** X16.  The [PATH] handed to child processes keeps the inherited [PATH]
    unchanged at its end, behind the launcher's directories.  On Windows
    the directory of the launcher's own node comes first.  On macOS and
    Linux it comes first only when no nvm version is listed; otherwise the
    first entry is the [bin] directory of the nvm version whose name is
    greatest in the default sort order of strings (code units, not version
    numbers), ahead of the launcher's own node. *)
Theorem X16_shell_path
    (h : Host) (files : Fs.t) (envPATH : option string)
    (listing : option (list string)) :
  let inherited := orElse envPATH "" in
  let bundled := getBundledNodeBinDir h in
  let fixed := [bundled; Path.join [HOME h; ".nvm/versions/node"];
                "/usr/local/bin"; "/opt/homebrew/bin";
                Path.join [HOME h; ".npm-global/bin"];
                Path.join [HOME h; ".local/bin"]] in
  if IS_WINDOWS h
  then getShellEnv h files envPATH listing = bundled +:+ ";" +:+ inherited
  else
    exists front : list string,
      getShellEnv h files envPATH listing
      = JS.join ":" (front ++ fixed) +:+ ":" +:+ inherited /\
      (front = [] <->
       Fs.existsSync (nvmDir h) files = false \/ listing = None \/
       listing = Some []) /\
      (front <> [] ->
       exists versions latest,
         listing = Some versions /\ In latest versions /\
         (forall v, In v versions -> String.leb v latest = true) /\
         front = [Path.join [nvmDir h; latest; "bin"]]).
Proof.
  intros inherited bundled fixed. unfold getShellEnv. fold inherited bundled.
  destruct (IS_WINDOWS h); [reflexivity |].
  assert (forall front,
            additionalPaths h files listing = front ++ fixed ->
            JS.join ":" (additionalPaths h files listing ++ JS.split ":" inherited)
            = JS.join ":" (front ++ fixed) +:+ ":" +:+ inherited) as Hjoin.
  { intros front ->. rewrite join_app.
    - rewrite (join_split ":" inherited). reflexivity.
    - destruct front; discriminate.
    - apply split_nonempty. }
  unfold additionalPaths in *. fold bundled fixed in Hjoin |- *.
  destruct (Fs.existsSync (nvmDir h) files) eqn:Hex.
  - destruct listing as [versions |].
    + destruct (rev (JS.sort versions)) as [| latest rest] eqn:Hr.
      * exists []. split; [apply (Hjoin []); reflexivity |].
        assert (versions = []) as ->.
        { destruct versions as [| v vs]; [reflexivity |].
          assert (In v (JS.sort (v :: vs))) as Hin
            by (apply sort_elem; left; reflexivity).
          apply in_rev in Hin. rewrite Hr in Hin. destruct Hin. }
        split; [tauto | congruence].
      * destruct (sorted_last (JS.sort versions) latest rest
                    (sort_sorted versions) Hr) as [Hin Hmax].
        exists [Path.join [nvmDir h; latest; "bin"]].
        split; [apply (Hjoin [_]); reflexivity |].
        split.
        -- split; [discriminate |].
           intros [H | [H | H]]; try discriminate.
           injection H as ->. discriminate Hr.
        -- intros _. exists versions, latest.
           split; [reflexivity |].
           split; [apply sort_elem, Hin |].
           split; [| reflexivity].
           intros v Hv. apply Hmax, sort_elem, Hv.
    + exists []. split; [apply (Hjoin []); reflexivity |].
      split; [tauto | congruence].
  - exists []. split; [apply (Hjoin []); reflexivity |].
    split; [tauto | congruence].
Qed.

Lemma find_exists (files : Fs.t) (f : string -> bool) (l : list string) (x : string) :
  (forall p, f p = true -> Fs.existsSync p files = true) ->
  List.find f l = Some x -> Fs.existsSync x files = true.
Proof. intros Hf H. apply List.find_some in H as [_ H]. apply Hf, H. Qed.

Lemma find_map {A B} (f : B -> bool) (g : A -> B) (l : list A) :
  List.find f (map g l) = option_map g (List.find (fun x => f (g x)) l).
Proof.
  induction l as [| a l IH]; [reflexivity |].
  cbn [map List.find]. destruct (f (g a)); [reflexivity | exact IH].
Qed.

(** The scan returns a path that exists, or the bare command. *)
Lemma scanNode_exists (h : Host) (files : Fs.t) (probe : NodeProbe) :
  scanNode h files probe = "node" \/
  Fs.existsSync (scanNode h files probe) files = true.
Proof.
  unfold scanNode. destruct (IS_WINDOWS h).
  - match goal with |- context [List.find ?f ?l] =>
      destruct (List.find f l) as [x |] eqn:E
    end; [right | left; reflexivity].
    apply List.find_some in E as [_ E]. apply andb_true_iff in E as [_ E].
    exact E.
  - match goal with |- context [match ?n with Some _ => _ | None => _ end] =>
      match n with
      | (if _ then _ else _) => destruct n as [x |] eqn:En
      end
    end.
    + right. destruct (Fs.existsSync (nvmDir h) files); [| discriminate].
      destruct (nvmVersions probe) as [versions |]; [| discriminate].
      apply List.find_some in En as [_ En]. exact En.
    + match goal with |- context [List.find ?f ?l] =>
        destruct (List.find f l) as [x |] eqn:E
      end; [right | left; reflexivity].
      apply List.find_some in E as [_ E]. exact E.
Qed.

(** X17.  The scan of [findNodePath()] for a system node on macOS and
    Linux, with an nvm directory that can be listed.  What it returns
    exists on disk, or is the bare command [node].  An nvm version is used
    only if its name starts with [v20]: when some listed [v20] version has
    its binary, the result is the binary of such a version, the greatest in
    the default sort order of strings among those that have one (so
    [v20.9.0] wins over [v20.19.0]); when none has, the result is one of
    the three system locations or [node], whatever other nvm versions are
    installed.  This is what [findNodePath()] returns when the launcher's
    own node is missing. *)
Theorem X17_node_scan
    (h : Host) (files : Fs.t) (probe : NodeProbe) (versions : list string) :
  let node := scanNode h files probe in
  let usable v := JS.startsWith "v20" v && Fs.existsSync (nvmNode h v) files in
  IS_WINDOWS h = false ->
  Fs.existsSync (nvmDir h) files = true ->
  nvmVersions probe = Some versions ->
  (node = "node" \/ Fs.existsSync node files = true) /\
  ((exists v, In v versions /\ usable v = true) ->
   exists w, In w versions /\ usable w = true /\ node = nvmNode h w /\
             forall v, In v versions -> usable v = true ->
                       String.leb v w = true) /\
  ((forall v, In v versions -> usable v = false) ->
   In node ["/usr/local/bin/node"; "/opt/homebrew/bin/node"; "/usr/bin/node";
            "node"]) /\
  (forall s, host s = h -> fs s = files -> systemNode h = node ->
             Fs.existsSync (getBundledNodePath h) files = false ->
             findNodePath s = node).
Proof.
  intros node usable Hw Hd Hv.
  split; [apply scanNode_exists |].
  assert (forall v, In v (List.filter (JS.startsWith "v20") versions)
                    <-> In v versions /\ JS.startsWith "v20" v = true) as Hfil
    by (intros v; apply List.filter_In).
  subst node. unfold scanNode. rewrite Hw, Hd, Hv.
  set (v20 := List.filter (JS.startsWith "v20") versions) in *.
  rewrite find_map.
  destruct (List.find (fun x => Fs.existsSync (nvmNode h x) files)
              (rev (JS.sort v20))) as [w |] eqn:E; cbn [option_map].
  - destruct (find_descending _ _ _ (sort_sorted v20) E) as (H1 & H2 & H3).
    apply sort_elem, Hfil in H1 as [H1 H1'].
    split; [| split].
    + intros _. exists w. unfold usable. rewrite H1', H2.
      split; [exact H1 | split; [reflexivity | split; [reflexivity |]]].
      intros v Hin Hu. apply andb_true_iff in Hu as [Hu1 Hu2].
      apply H3; [| exact Hu2]. apply sort_elem, Hfil. auto.
    + intros Hnone. specialize (Hnone w H1). unfold usable in Hnone.
      rewrite H1', H2 in Hnone. discriminate.
    + intros s Hh Hf Hsys Hb. unfold findNodePath. rewrite Hh, Hf, Hb.
      exact Hsys.
  - split; [| split].
    + intros (v & Hin & Hu). exfalso.
      apply andb_true_iff in Hu as [Hu1 Hu2].
      assert (Fs.existsSync (nvmNode h v) files = false) as Hn.
      { apply (List.find_none _ _ E v). apply -> in_rev.
        apply sort_elem, Hfil. auto. }
      congruence.
    + intros _.
      match goal with |- context [List.find ?f ?l] =>
        destruct (List.find f l) as [x |] eqn:Ex
      end.
      * apply List.find_some in Ex as [Ex _]. cbn [In] in *. tauto.
      * cbn [In]. tauto.
    + intros s Hh Hf Hsys Hb. unfold findNodePath. rewrite Hh, Hf, Hb.
      exact Hsys.
Qed.

(** Three nvm versions with their binaries, and a system node. *)
Lemma X17_witness :
  let h := Sample.linux in
  let files := ["/home/ada/.nvm/versions/node";
                "/home/ada/.nvm/versions/node/v20.19.0/bin/node";
                "/home/ada/.nvm/versions/node/v20.9.0/bin/node";
                "/home/ada/.nvm/versions/node/v22.13.1/bin/node";
                "/usr/bin/node"] in
  let versions := ["v20.19.0"; "v20.9.0"; "v22.13.1"] in
  let probe := mkNodeProbe None None None (Some versions) in
  (IS_WINDOWS h = false /\ Fs.existsSync (nvmDir h) files = true /\
   nvmVersions probe = Some versions) /\
  scanNode h files probe = "/home/ada/.nvm/versions/node/v20.9.0/bin/node".
Proof.
  intros h files versions probe.
  pose proof (X17_node_scan h files probe versions) as T.
  vm_compute in T. vm_compute.
  destruct (T eq_refl eq_refl eq_refl) as (_ & A & _).
  destruct A as (w & _ & _ & Hw & _).
  - exists "v20.9.0". split; [right; left; reflexivity | reflexivity].
  - repeat split.
Defined.

Lemma find_concat {A} (f : A -> bool) (ls : list (list A)) :
  List.find f (concat ls)
  = match ls with
    | [] => None
    | l :: rest =>
        match List.find f l with
        | Some x => Some x
        | None => List.find f (concat rest)
        end
    end.
Proof.
  destruct ls as [| l rest]; [reflexivity |].
  cbn [concat]. induction l as [| a l IH]; [reflexivity |].
  cbn [app List.find]. destruct (f a); [reflexivity | exact IH].
Qed.

(** X19.  [getLocalIP()] returns the address of the first interface
    address, in the order the interfaces and their addresses are listed,
    that is IPv4 and not internal, and 127.0.0.1 when there is none; the
    LAN URL is that address with the scheme [http] and the port of the
    service, 4200. *)
Theorem X19_local_ip (interfaces : list (string * list NetworkInterfaceInfo)) :
  let external iface :=
    match family iface with IPv4 => true | IPv6 => false end
    && negb (internal iface) in
  getLocalIP interfaces
  = match List.find external (concat (map snd interfaces)) with
    | Some iface => address iface
    | None => "127.0.0.1"
    end /\
  (getLocalIP interfaces = "127.0.0.1" \/
   exists before iface after,
     concat (map snd interfaces) = before ++ iface :: after /\
     family iface = IPv4 /\ internal iface = false /\
     (forall j, In j before -> external j = false) /\
     getLocalIP interfaces = address iface) /\
  getLanURL interfaces = "http://" +:+ getLocalIP interfaces +:+ ":4200".
Proof.
  intros external.
  assert (getLocalIP interfaces
          = match List.find external (concat (map snd interfaces)) with
            | Some iface => address iface
            | None => "127.0.0.1"
            end) as Heq.
  { induction interfaces as [| [name ifaces] rest IH]; [reflexivity |].
    cbn [getLocalIP map snd]. rewrite find_concat. fold external.
    destruct (List.find external ifaces); [reflexivity | exact IH]. }
  split; [exact Heq | split; [| reflexivity]].
  rewrite Heq.
    destruct (List.find external (concat (map snd interfaces))) as [i |] eqn:E;
      [right | left; reflexivity].
    remember (concat (map snd interfaces)) as all eqn:Ea. clear Ea Heq.
    induction all as [| a all IH]; [discriminate |].
    cbn [List.find] in E. destruct (external a) eqn:Ha.
    + injection E as ->. exists [], i, all.
      unfold external in Ha. apply andb_true_iff in Ha as [H1 H2].
      apply negb_true_iff in H2.
      destruct (family i); [| discriminate].
      repeat split; auto. intros j [].
    + destruct (IH E) as (before & iface & after & -> & H1 & H2 & H3 & H4).
      exists (a :: before), iface, after.
      repeat split; auto. intros j [<- | Hj]; [exact Ha | apply H3, Hj].
Qed.

End HostProbing.

(** ** The backup of an install root that is not a checkout *)

Section InstallFiles.

Lemma prefix_cut (a p : string) :
  String.prefix a p = true ->
  p = a +:+ String.substring (String.length a)
                             (String.length p - String.length a) p.
Proof.
  revert p. induction a as [| x a IH]; intros p H.
  - cbn [String.length]. rewrite Nat.sub_0_r.
    change ("" +:+ String.substring 0 (String.length p) p)
      with (String.substring 0 (String.length p) p).
    clear H. induction p as [| y p IHp]; [reflexivity |].
    cbn [String.length String.substring]. rewrite <- IHp. reflexivity.
  - destruct p as [| y p]; [discriminate |].
    cbn [String.prefix] in H. destruct (ascii_dec x y) as [-> | Hne];
      [| discriminate].
    rewrite append_cons. cbn [String.length String.substring Nat.sub].
    rewrite <- (IH p H). reflexivity.
Qed.

Lemma prefix_append_l (a b p : string) :
  String.prefix (a +:+ b) p = true -> String.prefix a p = true.
Proof.
  revert p. induction a as [| x a IH]; intros p H; [destruct p; reflexivity |].
  rewrite append_cons in H. destruct p as [| y p]; [discriminate |].
  cbn [String.prefix] in *. destruct (ascii_dec x y); [apply IH, H | discriminate].
Qed.

Lemma substring_all_0 (p : string) :
  String.substring (String.length p) 0 p = "".
Proof.
  induction p as [| y p IH]; [reflexivity |].
  cbn [String.length String.substring]. exact IH.
Qed.

Lemma append_empty_r (p : string) : p +:+ "" = p.
Proof.
  induction p as [| y p IH]; [reflexivity |].
  rewrite append_cons, IH. reflexivity.
Qed.

(** A path in or below [dir] is [dir] followed by the rest that
    [renameSync] keeps. *)
Lemma within_cut (dir p : string) :
  Fs.within dir p = true ->
  p = dir +:+ String.substring (String.length dir)
                               (String.length p - String.length dir) p.
Proof.
  unfold Fs.within. intros H. apply orb_true_iff in H as [H | H].
  - apply String.eqb_eq in H. subst p.
    rewrite Nat.sub_diag, substring_all_0, append_empty_r. reflexivity.
  - apply prefix_cut. eapply prefix_append_l, H.
Qed.

Lemma renameSync_elem (old new p : string) (files : Fs.t) :
  p ∈ files ->
  (Fs.within old p = false /\ p ∈ Fs.renameSync old new files) \/
  (exists rest, p = old +:+ rest /\ (new +:+ rest) ∈ Fs.renameSync old new files).
Proof.
  intros Hp. unfold Fs.renameSync.
  destruct (Fs.within old p) eqn:Hw.
  - right. eexists. split; [apply within_cut, Hw |].
    apply list_elem_of_fmap. exists p. rewrite Hw. auto.
  - left. split; [reflexivity |].
    apply list_elem_of_fmap. exists p. rewrite Hw. auto.
Qed.

Lemma append_inj (a b c : string) : a +:+ b = a +:+ c -> b = c.
Proof.
  induction a as [| x a IH]; [auto |].
  rewrite !append_cons. intros H. injection H as H. auto.
Qed.

(** Nothing that [renameSync] leaves is at or below the old name, when the
    new name is the old one with a suffix that starts with an
    underscore. *)
Lemma renameSync_frees (old suffix x : string) (files : Fs.t) :
  Fs.within old x = true ->
  Fs.existsSync x (Fs.renameSync old (old +:+ "_" +:+ suffix) files) = false.
Proof.
  intros Hx. destruct (Fs.existsSync x _) eqn:E; [| reflexivity]. exfalso.
  apply existsSync_elem in E. unfold Fs.renameSync in E.
  apply list_elem_of_fmap in E as (q & Hq & _).
  destruct (Fs.within old q) eqn:Hw; [| congruence].
  rewrite append_assoc in Hq. subst x.
  unfold Fs.within in Hx. apply orb_true_iff in Hx as [Hx | Hx].
  - apply String.eqb_eq in Hx.
    assert (old +:+ ("_" +:+ suffix)
              +:+ String.substring (String.length old)
                    (String.length q - String.length old) q
            = old +:+ "") as Hy by (rewrite append_empty_r; exact Hx).
    apply append_inj in Hy. discriminate Hy.
  - rewrite prefix_append in Hx. discriminate Hx.
Qed.

(** X18.  The backup step of [installFromSource], on a macOS or Linux
    host where the install root and the existing paths are normalised
    absolute paths and nothing exists at the backup name.  When the root
    exists and holds no [package.json], it is renamed to
    [<root>_backup_<Date.now()>]: every path at or below the root is
    afterwards at the same place below the backup directory, every other
    path stays where it is, and nothing is left at or below the root, so
    the clone finds the name free.  When the root is missing or holds a
    [package.json], the step changes nothing. *)
Theorem X18_backup_keeps_files
    (t : Tools) (pc2Dir : string) (s : State) (p : string) :
  let r := backupForeignDir t pc2Dir s in
  let backupDir := pc2Dir +:+ "_backup_" +:+ pretty (dateNow t) in
  IS_WINDOWS (host s) = false ->
  Path.canonical pc2Dir = true ->
  forallb Path.canonical (fs s) = true ->
  forallb (fun x => negb (Fs.within backupDir x)) (fs s) = true ->
  p ∈ fs s ->
  if Fs.existsSync pc2Dir (fs s)
     && negb (Fs.existsSync (pc2Dir +:+ "/package.json") (fs s))
  then (if Fs.within pc2Dir p
        then exists rest, p = pc2Dir +:+ rest /\ (backupDir +:+ rest) ∈ fs r
        else p ∈ fs r) /\
       (forall x, Fs.within pc2Dir x = true -> Fs.existsSync x (fs r) = false) /\
       length (fs r) = length (fs s)
  else r = s.
Proof.
  intros r backupDir _ Hc _ _ Hp. subst r. unfold backupForeignDir.
  assert (Path.join [pc2Dir; "package.json"] = pc2Dir +:+ "/package.json") as ->.
  { destruct pc2Dir as [| a d]; [discriminate Hc | reflexivity]. }
  destruct (Fs.existsSync pc2Dir (fs s)
            && negb (Fs.existsSync (pc2Dir +:+ "/package.json") (fs s)));
    [| reflexivity].
  fold backupDir. cbn [fs set_fs emitLog set_logBuffer].
  split; [| split].
  - destruct (renameSync_elem pc2Dir backupDir p (fs s) Hp)
      as [[-> H] | (rest & H1 & H2)]; [exact H |].
    destruct (Fs.within pc2Dir p) eqn:Hw.
    + exists rest. auto.
    + unfold Fs.renameSync. apply list_elem_of_fmap. exists p.
      rewrite Hw. auto.
  - intros x Hx. apply renameSync_frees, Hx.
  - unfold Fs.renameSync. apply length_map.
Qed.

(** A root that holds a file of the user and no checkout. *)
Lemma X18_witness :
  let s := init Sample.linux
             ["/home/ada/.pc2"; "/home/ada/.pc2/notes.txt"; "/home/ada/todo.txt"]
             "10:00:00" false in
  let r := backupForeignDir Sample.buildFails "/home/ada/.pc2" s in
  ("/home/ada/.pc2/notes.txt" ∈ fs s /\
   IS_WINDOWS (host s) = false /\
   Path.canonical "/home/ada/.pc2" = true /\
   forallb Path.canonical (fs s) = true /\
   forallb (fun x => negb (Fs.within "/home/ada/.pc2_backup_1700000000000" x))
     (fs s) = true) /\
  (exists rest,
     "/home/ada/.pc2/notes.txt" = "/home/ada/.pc2" +:+ rest /\
     ("/home/ada/.pc2_backup_1700000000000" +:+ rest) ∈ fs r) /\
  Fs.existsSync "/home/ada/.pc2" (fs r) = false /\
  fs r = ["/home/ada/.pc2_backup_1700000000000";
          "/home/ada/.pc2_backup_1700000000000/notes.txt";
          "/home/ada/todo.txt"].
Proof.
  intros s r.
  assert ("/home/ada/.pc2/notes.txt" ∈ fs s) as H
    by (apply list_elem_of_further, list_elem_of_here).
  pose proof (X18_backup_keeps_files Sample.buildFails "/home/ada/.pc2" s
                "/home/ada/.pc2/notes.txt" eq_refl eq_refl eq_refl eq_refl H)
    as T.
  cbv zeta in T. fold r in T.
  change (Fs.existsSync "/home/ada/.pc2" (fs s)
          && negb (Fs.existsSync ("/home/ada/.pc2" +:+ "/package.json") (fs s)))
    with true in T.
  change (Fs.within "/home/ada/.pc2" "/home/ada/.pc2/notes.txt") with true in T.
  destruct T as (T1 & T2 & _).
  split; [repeat split; [exact H | reflexivity ..] |].
  split; [exact T1 |].
  split; [apply T2; reflexivity | reflexivity].
Defined.

End InstallFiles.

(** ** When the wait for readiness gives up *)

Section WaitGivesUp.

(** X20.  The end of a [waitForServer] that timed out, whatever happened
    during the wait: 'error' is emitted, and the promise of that
    [startPC2()] is rejected with the timeout error unless the child's
    [error] event rejected it before, so a start never stays pending once
    its wait has ended.  The handler then kills and untracks whatever
    process is tracked and not killed at that moment; this is the child of
    the start when it is still tracked, nothing when it has exited or was
    stopped, and the child of a later start when one was made in the
    meantime. *)
Theorem X20_wait_timeout
    (schedule during : list Event) (h : Host) (files : Fs.t) (clock : string)
    (port : bool) (health : Z -> ProbeOutcome) (message : string) :
  let s := run schedule (init h files clock port) in
  let p := length (children s) in
  let c := length (calls s) in
  let s2 := run during (handle CallStartPC2 s) in
  let s3 := handle (WaitSettled p health) s2 in
  fst (isInstalled s) = true -> trackedAlive s = false ->
  waitForServer health = TimedOut message -> waitingOf s2 p = Some true ->
  statusLog s3 = statusLog s2 ++ [error] /\
  signals s3 = signals s2 ++ stopSignal s2 /\
  pc2Process s3 = (if trackedAlive s2 then None else pc2Process s2) /\
  trackedAlive s3 = false /\
  call_outcome c s3
  = Some (match call_outcome c s2 with
          | Some (Rejected m) => Rejected m
          | Some Resolved => Resolved
          | _ => Rejected message
          end).
Proof.
  intros s p c s2 s3 Hi Ht Hr Hw.
  pose proof (wf_reachable schedule h files clock port) as W. fold s in W.
  assert (wf s2) as W2 by (apply wf_run, wf_handle, W).
  destruct (spawned_child s during Hi Ht) as (ch & Hch & Hc & Hk).
  fold s2 p c in Hch, Hc, Hk.
  unfold waitingOf in Hw. rewrite Hch in Hw. simpl in Hw. injection Hw as Hw.
  subst s3. rewrite (waitSettled_step s2 p ch health Hch Hw). cbv zeta.
  rewrite Hr, Hc. unfold onWaitFailed.
  remember (set_children
              (<[p := mkChild (killed ch) (exited ch) false c]> (children s2)) s2)
    as x eqn:Ex.
  assert (pc2Process x = pc2Process s2) as Px by (subst x; reflexivity).
  assert (forall q, killedOf x q = killedOf s2 q) as Kx.
  { intros q. subst x. unfold killedOf. cbn [children set_children].
    apply (insert_same_field killed _ _ _ ch); [exact Hch | reflexivity]. }
  assert (forall q, exitedOf x q = exitedOf s2 q) as Exi.
  { intros q. subst x. unfold exitedOf. cbn [children set_children].
    apply (insert_same_field exited _ _ _ ch); [exact Hch | reflexivity]. }
  assert (trackedAlive x = trackedAlive s2) as Tx.
  { unfold trackedAlive. rewrite Px. destruct (pc2Process s2) as [q |];
      [| reflexivity].
    specialize (Kx q). unfold killedOf in Kx.
    destruct (children x !! q), (children s2 !! q); simpl in Kx; congruence. }
  assert (statusLog x = statusLog s2) as Lx by (subst x; reflexivity).
  assert (signals x = signals s2) as Sx by (subst x; reflexivity).
  assert (call_outcome c x = call_outcome c s2) as Ox by (subst x; reflexivity).
  clear Ex.
  set (y := emitLog ("Failed to start: " +:+ message) (emitStatus error x)).
  assert (trackedAlive y = trackedAlive s2) as Ty
    by (rewrite <- Tx; apply trackedAlive_same; reflexivity).
  rewrite Ty.
  rewrite settle_statusLog, settle_signals, settle_pc2Process.
  assert (call_outcome c s2 <> None) as Hsome.
  { unfold contOf in Hk. unfold call_outcome.
    destruct (calls s2 !! c); discriminate. }
  unfold stopSignal.
  destruct (trackedAlive s2) eqn:Ht2.
  - destruct (trackedAlive_inv s2 Ht2) as (q & Hq & Hkq). rewrite Hq.
    assert (killTracked SIGTERM y = kill q SIGTERM y) as Hkt.
    { unfold killTracked. change (pc2Process y) with (pc2Process x).
      rewrite Px, Hq. reflexivity. }
    rewrite Hkt.
    destruct (kill_delivered q SIGTERM y) as [Hd Hs].
    { change (exitedOf y q) with (exitedOf x q). rewrite Exi.
      exact (wf_tracked _ W2 q Hq). }
    cbn [statusLog set_pc2Process signals pc2Process].
    rewrite kill_statusLog, Hs.
    change (statusLog y) with (statusLog x ++ [error]).
    change (signals y) with (signals x). rewrite Lx, Sx.
    split; [reflexivity | split; [reflexivity | split; [reflexivity | split]]].
    + apply trackedAlive_untracked. rewrite settle_pc2Process. reflexivity.
    + set (z := set_pc2Process None (kill q SIGTERM y)).
      assert (call_outcome c z = call_outcome c s2) as Oz.
      { unfold call_outcome, z. cbn [calls set_pc2Process].
        rewrite kill_calls. exact Ox. }
      destruct (call_outcome c s2) as [[| | m] |] eqn:E; [| | | congruence].
      * apply settle_hit. exact Oz.
      * apply settle_kept; [exact Oz | discriminate].
      * apply settle_kept; [exact Oz | discriminate].
  - change (statusLog y) with (statusLog x ++ [error]).
    change (signals y) with (signals x).
    change (pc2Process y) with (pc2Process x).
    rewrite Lx, Sx, Px.
    assert (forall l : list (nat * Signal),
              l ++ match pc2Process s2 with Some _ => [] | None => [] end = l)
      as Hnil by (intros l; destruct (pc2Process s2); apply app_nil_r).
    rewrite Hnil.
    split; [reflexivity | split; [reflexivity | split; [reflexivity | split]]].
    + rewrite <- Ty. apply trackedAlive_same;
        [apply settle_pc2Process | apply settle_children].
    + assert (call_outcome c y = call_outcome c s2) as Oy by exact Ox.
      destruct (call_outcome c s2) as [[| | m] |] eqn:E; [| | | congruence].
      * apply settle_hit. exact Oy.
      * apply settle_kept; [exact Oy | discriminate].
      * apply settle_kept; [exact Oy | discriminate].
Qed.

(** The service crashes at once and is started again; the second child is
    running when the wait of the first start gives up and kills it. *)
Lemma X20_witness :
  let during := [ChildExit 0 (Some 1%Z) None; CallStartPC2] in
  let s2 := run during (handle CallStartPC2 Sample.fresh) in
  let s3 := handle (WaitSettled 0 Sample.down) s2 in
  (fst (isInstalled Sample.fresh) = true /\ trackedAlive Sample.fresh = false /\
   waitForServer Sample.down = TimedOut "Timeout waiting for server to start" /\
   waitingOf s2 0 = Some true) /\
  pc2Process s2 = Some 1 /\
  signals s3 = [(1, SIGTERM)] /\ pc2Process s3 = None /\
  call_outcome 0 s3 = Some (Rejected "Timeout waiting for server to start").
Proof.
  intros during s2 s3.
  pose proof (X20_wait_timeout [] during Sample.linux Sample.installed
                "10:00:00" false Sample.down
                "Timeout waiting for server to start") as T.
  vm_compute in T. vm_compute.
  destruct (T eq_refl eq_refl eq_refl eq_refl) as (_ & A & B & _ & C).
  repeat split; assumption.
Defined.

End WaitGivesUp.

(** ** The launcher's own node and npm *)

Section BundledNode.

Lemma dirname_aux_none (n : string) :
  JS.includes n "/" = false -> Path.dirname_aux n = None.
Proof.
  induction n as [| a n IH]; [reflexivity |].
  cbn [JS.includes Path.dirname_aux String.prefix]. intros H.
  apply orb_false_iff in H as [H1 H2]. rewrite (IH H2).
  destruct (ascii_dec "/" a) as [<- | Hne]; [destruct n; discriminate |].
  destruct (Ascii.eqb_spec a "/"); [congruence | reflexivity].
Qed.

Lemma dirname_aux_child (x n : string) :
  JS.includes n "/" = false ->
  Path.dirname_aux (x +:+ "/" +:+ n) = Some x.
Proof.
  intros Hn. induction x as [| a x IH].
  - change ("" +:+ "/" +:+ n) with (String "/" n). cbn [Path.dirname_aux].
    rewrite (dirname_aux_none n Hn). reflexivity.
  - rewrite append_cons. cbn [Path.dirname_aux]. rewrite IH. reflexivity.
Qed.

Lemma dirname_child (x n : string) :
  x <> "" -> JS.includes n "/" = false ->
  Path.dirname (x +:+ "/" +:+ n) = x.
Proof.
  intros Hx Hn. unfold Path.dirname. rewrite (dirname_aux_child x n Hn).
  destruct x; [congruence | reflexivity].
Qed.

Lemma join_truthy (l : list string) : exists a r, Path.join l = String a r.
Proof.
  unfold Path.join.
  destruct (filter (fun x => JS.truthy x = true) l) as [| x segs] eqn:E.
  - eexists. eexists. reflexivity.
  - assert (x ∈ filter (fun x => JS.truthy x = true) l) as Hx
      by (rewrite E; apply list_elem_of_here).
    apply list_elem_of_filter in Hx as [Hx _].
    destruct x as [| a w]; [discriminate |].
    rewrite join_String. eexists. eexists. reflexivity.
Qed.

(** X21.  The launcher's own node and what goes with it.  The directory of
    the launcher's node that [getShellEnv] puts on [PATH] is the directory
    of the binary that [findNodePath] prefers.  [findNpmPath] answers
    either the bare command ([npm], or [npm.cmd] on Windows) or the npm
    launcher in that same directory, and the latter only when both the
    launcher's node and that npm exist, in which case [findNodePath]
    answers the launcher's node: a path returned for npm never belongs to
    another installation than the node in use.  When the launcher's node
    is missing npm is the bare command, whatever node the scan found. *)
Theorem X21_npm_beside_node (s : State) :
  let h := host s in
  Path.dirname (getBundledNodePath h) = getBundledNodeBinDir h /\
  (if hasBundledNode s
      && Fs.existsSync (Path.join [getBundledNodeBinDir h; npmName h]) (fs s)
   then findNpmPath s = Path.join [getBundledNodeBinDir h; npmName h] /\
        findNodePath s = getBundledNodePath h
   else findNpmPath s = npmName h).
Proof.
  intros h.
  assert (Path.dirname (getBundledNodePath h) = getBundledNodeBinDir h) as Hd.
  { unfold getBundledNodePath, getBundledNodeBinDir.
    destruct (join_truthy [HOME h; ".elastos"; "node"]) as (b0 & b & Hb).
    unfold BUNDLED_NODE_DIR. rewrite Hb.
    destruct (IS_WINDOWS h).
    - rewrite join_root_child by discriminate.
      apply dirname_child; [discriminate | reflexivity].
    - remember (platform h) as pl. remember (arch h) as ar.
      assert (Path.join [String b0 b;
                         "node-v" +:+ NODE_VERSION +:+ "-" +:+ pl +:+ "-" +:+ ar;
                         "bin"; "node"]
              = Path.join [String b0 b;
                           "node-v" +:+ NODE_VERSION +:+ "-" +:+ pl +:+ "-" +:+ ar;
                           "bin"] +:+ "/" +:+ "node") as ->.
      { assert (forall v0 v,
                  Path.join [String b0 b; String v0 v; "bin"; "node"]
                  = Path.join [String b0 b; String v0 v; "bin"] +:+ "/" +:+ "node")
          as Hgen.
        { intros v0 v.
          assert (Path.join [String b0 b; String v0 v; "bin"; "node"]
                  = String b0 b +:+ "/" +:+ String v0 v +:+ "/" +:+ "bin"
                      +:+ "/" +:+ "node") as -> by reflexivity.
          assert (Path.join [String b0 b; String v0 v; "bin"]
                  = String b0 b +:+ "/" +:+ String v0 v +:+ "/" +:+ "bin") as ->
            by reflexivity.
          rewrite !append_assoc. reflexivity. }
        apply Hgen. }
      apply dirname_child; [| reflexivity].
      assert (forall v0 v, Path.join [String b0 b; String v0 v; "bin"] <> "")
        as Hne by (intros v0 v; discriminate).
      apply Hne. }
  split; [exact Hd |].
  unfold findNpmPath, findNodePath, hasBundledNode. fold h. rewrite Hd.
  fold (npmName h).
  destruct (Fs.existsSync (getBundledNodePath h) (fs s)); [| reflexivity].
  cbn [andb].
  destruct (Fs.existsSync (Path.join [getBundledNodeBinDir h; npmName h]) (fs s));
    [split; reflexivity | reflexivity].
Qed.

End BundledNode.

(** ** The status query between the events *)

Section StatusQuery.

Lemma getStatus_cases (probe : ProbeOutcome) (s : State) :
  fst (getStatus probe s)
  = if fst (isInstalled s)
    then if fst (healthProbe probe) then running
         else if trackedAlive s then starting else stopped
    else not_installed.
Proof.
  unfold getStatus. destruct (isInstalled s) as [i checks]. cbn [fst].
  destruct i; [| reflexivity]. cbn [negb].
  destruct (fst (healthProbe probe)); [reflexivity |].
  destruct (trackedAlive s); reflexivity.
Qed.

(** X22.  What [getStatus()] answers around a stop and a start.  Once
    [await stopPC2()] is over (with nothing else going on) the query never
    answers 'starting': it answers 'not-installed' without the marker,
    'running' when something still answers on the port, 'stopped'
    otherwise.  Right after a call of [startPC2()] on an installed service
    (it spawned a child, or found one tracked and not killed) the query
    answers 'running' when the health request succeeds and 'starting' when
    it does not. *)
Theorem X22_status_around_stop_and_start
    (schedule : list Event) (h : Host) (files : Fs.t) (clock : string)
    (port : bool) (probe : ProbeOutcome) :
  let s := run schedule (init h files clock port) in
  let ok := fst (healthProbe probe) in
  fst (getStatus probe (await_stopPC2 [] s))
  = (if fst (isInstalled s)
     then if ok then running else stopped
     else not_installed) /\
  fst (getStatus probe (handle CallStartPC2 s))
  = (if fst (isInstalled s)
     then if ok then running else starting
     else not_installed).
Proof.
  intros s ok.
  pose proof (wf_reachable schedule h files clock port) as W. fold s in W.
  split.
  - destruct (await_stop_effect s W) as (Ht & _ & _ & _ & Hs & _).
    rewrite getStatus_cases, (isInstalled_settings _ _ Hs), Ht. reflexivity.
  - rewrite getStatus_cases.
    pose proof (settings_handle CallStartPC2 s) as Hs. cbv beta iota in Hs.
    rewrite (isInstalled_settings _ _ Hs).
    destruct (fst (isInstalled s)) eqn:Hi; [| reflexivity].
    fold ok. destruct ok; [reflexivity |].
    assert (trackedAlive (handle CallStartPC2 s) = true) as ->; [| reflexivity].
    cbn [handle]. destruct (trackedAlive s) eqn:Ht.
    + rewrite (startPC2_already_running s Hi Ht).
      rewrite <- Ht. apply trackedAlive_same; reflexivity.
    + destruct (startPC2_spawns s Hi Ht) as (P & K & _).
      unfold trackedAlive. rewrite P, K, lookup_snoc_new. reflexivity.
Qed.

End StatusQuery.
